(** * termsweeper: the Minesweeper board engine of [termsweeper.py]

    A shallow embedding of the game logic of [src/termsweeper.py] (classes
    [Position], [MineButton], [MineGrid] and the message handlers of
    [TermSweeperApp]) together with the properties of the board engine:
    mine generation, adjacency counting, the recursive opening of cells,
    flags, and how a game ends.

    Conventions of the embedding.
    - Python integers are [Z]; [range(a, b)] is [range a b].
    - The three module constants [GRID_WIDTH], [GRID_HEIGHT] and
      [MINES_AMOUNT] are section variables (the source lists 9/9/10,
      16/16/40 and 30/16/99 as the intended values).
    - A button object is identified with the place it occupies in the
      class-level list [MineGrid.buttons]; mutating a button is rewriting
      that place, so every alias of the button sees the change.
    - [None] stands for a Python exception ([IndexError], [ValueError]) or,
      for the recursive [open_cell], for a recursion that did not finish
      within its fuel.
    - [post_message] appends to the queue [posted]. Every handler runs
      to its end before another starts, but the program does not decide
      which message is handled next: a [Selected] message already on
      its way is handled before the [GameEnd] that an earlier selection
      posted, or after it, and [handle_selected] tests neither
      [disabled] nor the queue. [scheduled] and [any_order] are the
      states under every such order; what holds in every state of the
      program is stated over them. [select], [reachable] and [runs]
      are the order of a player who makes one selection at a time: the
      states they reach are states of the program (see
      [runs_any_order]), and they serve to show that a state is reached
      and to state what holds of a game played in that order only.
    - [random.sample] is not run: the list it returned is an argument,
      constrained by [random_sample] where a property needs it.
    - Python's recursion limit is not modelled, and [int(x/GRID_WIDTH)]
      is taken as the exact truncated quotient (the float division is
      exact far beyond any grid size).
    - Of the [InfoBar], the face of the restart button and the text
      written on the mine counter are modelled, the timer is not; [str]
      of an integer is stdpp's [pretty]. *)

From Stdlib Require Import ZArith Lia Ascii.
From stdpp Require Import base numbers option list sets gmap strings pretty.

Open Scope Z_scope.

(** ** Python helpers *)

(** [range(a, b)] *)
Definition range (a b : Z) : list Z := seqZ a (b - a).

(** Resolution of a Python list index: non-negative indices count from the
    front, negative ones from the back, anything else is an [IndexError]. *)
Definition py_resolve (len : nat) (i : Z) : option nat :=
  if decide (0 ≤ i < Z.of_nat len) then Some (Z.to_nat i)
  else if decide (- Z.of_nat len ≤ i < 0) then Some (Z.to_nat (Z.of_nat len + i))
  else None.

(** [l[i]] *)
Definition py_get {A} (l : list A) (i : Z) : option A :=
  n ← py_resolve (length l) i; l !! n.

(** Running a loop body over the values of an iterable, threading the
    state; an exception in the body ends the loop. *)
Fixpoint for_each {S A} (l : list A) (body : S → A → option S) (s : S) : option S :=
  match l with
  | [] => Some s
  | x :: l' => match body s x with
               | Some s' => for_each l' body s'
               | None => None
               end
  end.

(** ** Data model *)

(** [class Position(NamedTuple)] *)
Record Position := Pos { row : Z; col : Z }.

#[global] Instance Position_eq_dec : EqDecision Position.
Proof. solve_decision. Defined.

#[global] Instance Position_countable : Countable Position.
Proof.
  refine (inj_countable' (λ p, (row p, col p)) (λ rc, Pos rc.1 rc.2) _).
  by intros [].
Defined.

(** [class SelectAction(Enum)] *)
Inductive SelectAction := OPEN | FLAG.

#[global] Instance SelectAction_eq_dec : EqDecision SelectAction.
Proof. solve_decision. Defined.

(** The label of a button: one of the four character constants of
    [MineButton], or [str(value)] as written by [set_number]. *)
Inductive Label :=
| CHAR_UNOPENED
| CHAR_EMPTY
| CHAR_FLAGGED
| CHAR_MINE
| Digit (value : Z).

#[global] Instance Label_eq_dec : EqDecision Label.
Proof. solve_decision. Defined.

Definition NUMBER_COLORS : list string :=
  ["black"; "blue"; "green"; "red"; "darkblue"; "darkred"; "darkcyan";
   "white"; "grey"; "deeppink"]%string.

(** The attributes of a [MineButton] that the game logic reads or writes
    ([disabled] and the unused per-button [mines_flagged] are only ever
    reset and are left out). *)
Record MineButton := Button {
  position : Position;
  explored : bool;
  flagged : bool;
  can_focus : bool;
  label : Label;
  color : string
}.

#[global] Instance MineButton_eq_dec : EqDecision MineButton.
Proof. solve_decision. Defined.

Definition with_explored (v : bool) (b : MineButton) : MineButton :=
  Button (position b) v (flagged b) (can_focus b) (label b) (color b).
Definition with_flagged (v : bool) (b : MineButton) : MineButton :=
  Button (position b) (explored b) v (can_focus b) (label b) (color b).
Definition with_can_focus (v : bool) (b : MineButton) : MineButton :=
  Button (position b) (explored b) (flagged b) v (label b) (color b).
Definition with_label (v : Label) (b : MineButton) : MineButton :=
  Button (position b) (explored b) (flagged b) (can_focus b) v (color b).
Definition with_color (v : string) (b : MineButton) : MineButton :=
  Button (position b) (explored b) (flagged b) (can_focus b) (label b) v.

Module MineButton.

(** [MineButton.reset], which [__init__] also runs *)
Definition reset (b : MineButton) : MineButton :=
  Button (position b) false false false CHAR_UNOPENED "white".

(** [MineButton.__init__] *)
Definition init (p : Position) : MineButton :=
  reset (Button p false false false CHAR_UNOPENED "white").

(** [MineButton.toggle_flagged] *)
Definition toggle_flagged (b : MineButton) : MineButton :=
  let b := with_flagged (negb (flagged b)) b in
  with_label (if flagged b then CHAR_FLAGGED else CHAR_UNOPENED) b.

(** [MineButton.set_number]; [NUMBER_COLORS[value]] can raise. *)
Definition set_number (value : Z) (b : MineButton) : option MineButton :=
  let b := with_label (Digit value) b in
  c ← py_get NUMBER_COLORS value;
  Some (with_color c b).

(** [MineButton.explode] *)
Definition explode (b : MineButton) : MineButton :=
  with_color "deeppink" (with_label CHAR_MINE b).

End MineButton.

(** [MineGrid.GameEnd] *)
Inductive Message := GameEnd (win : bool).

#[global] Instance Message_eq_dec : EqDecision Message.
Proof. solve_decision. Defined.

(** The state of a [MineGrid] widget. *)
Record MineGrid := Grid {
  mines : gset Position;
  buttons : list (list MineButton);
  total_explored : Z;
  mines_flagged : Z;
  current_cell : Position;
  disabled : bool;
  posted : list Message
}.

Definition with_mines (v : gset Position) (g : MineGrid) : MineGrid :=
  Grid v (buttons g) (total_explored g) (mines_flagged g) (current_cell g)
       (disabled g) (posted g).
Definition with_buttons (v : list (list MineButton)) (g : MineGrid) : MineGrid :=
  Grid (mines g) v (total_explored g) (mines_flagged g) (current_cell g)
       (disabled g) (posted g).
Definition with_total_explored (v : Z) (g : MineGrid) : MineGrid :=
  Grid (mines g) (buttons g) v (mines_flagged g) (current_cell g)
       (disabled g) (posted g).
Definition with_mines_flagged (v : Z) (g : MineGrid) : MineGrid :=
  Grid (mines g) (buttons g) (total_explored g) v (current_cell g)
       (disabled g) (posted g).
Definition with_current_cell (v : Position) (g : MineGrid) : MineGrid :=
  Grid (mines g) (buttons g) (total_explored g) (mines_flagged g) v
       (disabled g) (posted g).
Definition with_disabled (v : bool) (g : MineGrid) : MineGrid :=
  Grid (mines g) (buttons g) (total_explored g) (mines_flagged g)
       (current_cell g) v (posted g).

(** [self.post_message(m)] *)
Definition post_message (m : Message) (g : MineGrid) : MineGrid :=
  Grid (mines g) (buttons g) (total_explored g) (mines_flagged g)
       (current_cell g) (disabled g) (posted g ++ [m]).

(** [MineGrid.button_at]: [self.buttons[position.row][position.col]] *)
Definition button_at (g : MineGrid) (p : Position) : option MineButton :=
  r ← py_get (buttons g) (row p); py_get r (col p).

(** Writing back the button that [button_at g p] returned, after an
    attribute of it was assigned. *)
Definition set_button (p : Position) (b : MineButton) (g : MineGrid) : MineGrid :=
  match py_resolve (length (buttons g)) (row p) with
  | Some i =>
      with_buttons
        (alter (λ r, match py_resolve (length r) (col p) with
                     | Some j => <[j := b]> r
                     | None => r
                     end) i (buttons g)) g
  | None => g
  end.

(** ** The game, for given grid constants *)

Section Game.

Variables GRID_WIDTH GRID_HEIGHT MINES_AMOUNT : Z.

(** What [random.sample(population, k)] returns when it does not raise:
    [k] elements of the population, no position of it used twice. *)
Definition random_sample (population : list Z) (k : Z) (sample : list Z) : Prop :=
  NoDup sample ∧ Z.of_nat (length sample) = k ∧ sample ⊆ population.

(** [MineGrid.generate_mines], applied to the list [sample] that
    [random.sample(range(GRID_HEIGHT*GRID_WIDTH), amount)] returned.
    [int(x/GRID_WIDTH)] truncates the quotient, [%] is the floored
    remainder. *)
Definition generate_mines (sample : list Z) : gset Position :=
  list_to_set ((λ x, Pos (x ÷ GRID_WIDTH) (x `mod` GRID_WIDTH)) <$> sample).

(** [MineGrid.count_mines_near] *)
Definition count_mines_near (g : MineGrid) (pos : Position) : Z :=
  foldl (λ count i,
           foldl (λ count j,
                    if decide (Pos i j ∈ mines g) then count + 1 else count)
                 count (range (col pos - 1) (col pos + 1 + 1)))
        0 (range (row pos - 1) (row pos + 1 + 1)).

(** [MineGrid.open_cell], on the button stored at place [p] of the grid.
    The recursion of the source is not structural, so it is cut off by
    [fuel]: one unit per nested call. *)
Fixpoint open_cell (fuel : nat) (g : MineGrid) (p : Position) : option MineGrid :=
  match fuel with
  | O => None
  | S fuel =>
      button ← button_at g p;
      if explored button then Some g
      else
        let button := with_explored true button in
        let g := set_button p button g in
        let g := with_total_explored (total_explored g + 1) g in
        let pos := position button in
        if decide (pos ∈ mines g) then
          let button := with_label CHAR_MINE button in
          c ← py_get NUMBER_COLORS 9;
          let button := with_color c button in
          Some (post_message (GameEnd false) (set_button p button g))
        else
          let mines_nearby := count_mines_near g pos in
          g ← (if decide (mines_nearby = 0) then
                 let g := set_button p (with_label CHAR_EMPTY button) g in
                 for_each (range (0 `max` (row pos - 1)) (GRID_HEIGHT `min` (row pos + 1 + 1)))
                   (λ g i,
                      for_each (range (0 `max` (col pos - 1)) (GRID_WIDTH `min` (col pos + 1 + 1)))
                        (λ g j, open_cell fuel g (Pos i j)) g) g
               else
                 button ← MineButton.set_number mines_nearby button;
                 Some (set_button p button g));
          if decide (total_explored g >= GRID_HEIGHT * GRID_WIDTH - MINES_AMOUNT)
          then Some (post_message (GameEnd true) g)
          else Some g
  end.

(** [open_cell] once more, with a log of the calls it makes: one entry
    per call, the place it was called on and whether the call got past
    the [explored] test. The state it computes is that of [open_cell]
    (see [open_cell_calls_state]). *)
Fixpoint open_cell_calls (fuel : nat) (g : MineGrid) (p : Position)
  : option (MineGrid * list (Position * bool)) :=
  match fuel with
  | O => None
  | S fuel =>
      button ← button_at g p;
      if explored button then Some (g, [(p, false)])
      else
        let button := with_explored true button in
        let g := set_button p button g in
        let g := with_total_explored (total_explored g + 1) g in
        let pos := position button in
        if decide (pos ∈ mines g) then
          let button := with_label CHAR_MINE button in
          c ← py_get NUMBER_COLORS 9;
          let button := with_color c button in
          Some (post_message (GameEnd false) (set_button p button g), [(p, true)])
        else
          let mines_nearby := count_mines_near g pos in
          gl ← (if decide (mines_nearby = 0) then
                  let g := set_button p (with_label CHAR_EMPTY button) g in
                  for_each (range (0 `max` (row pos - 1)) (GRID_HEIGHT `min` (row pos + 1 + 1)))
                    (λ gl i,
                       for_each (range (0 `max` (col pos - 1)) (GRID_WIDTH `min` (col pos + 1 + 1)))
                         (λ gl j,
                            r ← open_cell_calls fuel gl.1 (Pos i j);
                            Some (r.1, gl.2 ++ r.2)) gl) (g, [(p, true)])
                else
                  button ← MineButton.set_number mines_nearby button;
                  Some (set_button p button g, [(p, true)]));
          if decide (total_explored gl.1 >= GRID_HEIGHT * GRID_WIDTH - MINES_AMOUNT)
          then Some (post_message (GameEnd true) gl.1, gl.2)
          else Some gl
  end.

(** Fuel that is enough for every call on a grid of the configured size
    (see [open_cell_terminates]). *)
Definition enough_fuel : nat := S (Z.to_nat (GRID_HEIGHT * GRID_WIDTH)).

(** [MineGrid.flag_cell] *)
Definition flag_cell (g : MineGrid) (p : Position) : option MineGrid :=
  button ← button_at g p;
  let g := with_mines_flagged
             (mines_flagged g + (if negb (flagged button) then 1 else -1)) g in
  Some (set_button p (MineButton.toggle_flagged button) g).

(** [MineGrid.set_current_cell] (the call of [focus()] has no effect on
    the modelled state). *)
Definition set_current_cell (g : MineGrid) (value : Position) : option MineGrid :=
  old ← button_at g (current_cell g);
  let g := set_button (current_cell g) (with_can_focus false old) g in
  let g := with_current_cell value g in
  new ← button_at g (current_cell g);
  Some (set_button (current_cell g) (with_can_focus true new) g).

(** [MineGrid.handle_selected] for the event [Selected(button, action)],
    where [button] is the one stored at place [p]. *)
Definition handle_selected (g : MineGrid) (p : Position) (action : SelectAction)
  : option MineGrid :=
  button ← button_at g p;
  g ← (if decide (position button ≠ current_cell g)
       then set_current_cell g (position button) else Some g);
  button ← button_at g p;
  if decide (action = OPEN ∧ flagged button = false) then open_cell enough_fuel g p
  else if decide (action = FLAG ∧ explored button = false) then flag_cell g p
  else Some g.

(** [MineGrid.reveal_mines]; the set is visited in the order of
    [elements]. *)
Definition reveal_mines (won : bool) (g : MineGrid) : option MineGrid :=
  for_each (elements (mines g))
    (λ g mine,
       if won then
         button ← button_at g mine;
         if negb (flagged button) then
           button ← button_at g mine;
           Some (set_button mine (MineButton.toggle_flagged button) g)
         else Some g
       else
         button ← button_at g mine;
         Some (set_button mine (MineButton.explode button) g)) g.

(** [MineGrid.end_game] *)
Definition end_game (g : MineGrid) (event : Message) : option MineGrid :=
  let g := with_disabled true g in
  match event with GameEnd win => reveal_mines win g end.

(** The class attributes of [MineGrid] followed by [MineGrid.__init__]. *)
Definition new_grid (sample : list Z) : MineGrid :=
  Grid (generate_mines sample)
       ((λ row, (λ col, MineButton.init (Pos row col)) <$> range 0 GRID_WIDTH)
          <$> range 0 GRID_HEIGHT)
       0 0 (Pos 0 0) false [].

(** [MineGrid.on_mount] *)
Definition on_mount (g : MineGrid) : option MineGrid :=
  set_current_cell g (Pos 0 0).

(** [MineGrid.reset]; [sample] is what [random.sample] returns this time. *)
Definition reset (g : MineGrid) (sample : list Z) : option MineGrid :=
  let g := with_total_explored 0 g in
  let g := with_mines_flagged 0 g in
  let g := with_buttons ((λ row : list MineButton, MineButton.reset <$> row)
                            <$> buttons g) g in
  g ← set_current_cell g (Pos 0 0);
  let g := with_mines (generate_mines sample) g in
  Some (with_disabled false g).

(** ** The application around the grid *)

(** The label of the restart button of the [InfoBar]: the three faces
    that [InfoBar], [InfoBar.reset] and
    [TermSweeperApp.handle_game_end] write. *)
Inductive Face := FACE_SMILING | FACE_SUNGLASSES | FACE_DIZZY.

#[global] Instance Face_eq_dec : EqDecision Face.
Proof. solve_decision. Defined.

(** [TermSweeperApp]: its grid and, of its info bar, the restart button
    (the timer and the mine counter are display only). *)
Record TermSweeperApp := App {
  mine_grid : MineGrid;
  restart_button_label : Face
}.

(** [TermSweeperApp.handle_game_end] *)
Definition handle_game_end (app : TermSweeperApp) (event : Message) : TermSweeperApp :=
  match event with
  | GameEnd win =>
      App (mine_grid app) (if win then FACE_SUNGLASSES else FACE_DIZZY)
  end.

(** Delivery of the queued [GameEnd] messages, oldest first, with no
    other message handled in between: each goes to [MineGrid.end_game]
    and then bubbles to [TermSweeperApp.handle_game_end]. *)
Definition deliver_posted (app : TermSweeperApp) : option TermSweeperApp :=
  let queue := posted (mine_grid app) in
  let g := mine_grid app in
  let app := App (Grid (mines g) (buttons g) (total_explored g) (mines_flagged g)
                       (current_cell g) (disabled g) [])
                 (restart_button_label app) in
  for_each queue
    (λ app m,
       g ← end_game (mine_grid app) m;
       Some (handle_game_end (App g (restart_button_label app)) m)) app.

(** A selection made in turn: a click on the button at place [p] when no
    message is on its way. A disabled grid passes no input on to its
    buttons, so none of them sends the message; otherwise
    [handle_selected] runs, and the [GameEnd] messages it posts are
    handled before anything else. This is one order of handling among
    those of [scheduled]. *)
Definition select (app : TermSweeperApp) (p : Position) (action : SelectAction)
  : option TermSweeperApp :=
  if disabled (mine_grid app) then Some app
  else
    g ← handle_selected (mine_grid app) p action;
    deliver_posted (App g (restart_button_label app)).

(** [TermSweeperApp.reset]: [MineGrid.reset] and, of [InfoBar.reset], the
    restart button. *)
Definition app_reset (app : TermSweeperApp) (sample : list Z) : option TermSweeperApp :=
  g ← reset (mine_grid app) sample;
  Some (App g FACE_SMILING).

(** The application once mounted. *)
Definition start (sample : list Z) : option TermSweeperApp :=
  g ← on_mount (new_grid sample);
  Some (App g FACE_SMILING).

(** ** Notions used to state the properties *)

Definition in_bounds (p : Position) : Prop :=
  (0 ≤ row p < GRID_HEIGHT) ∧ (0 ≤ col p < GRID_WIDTH).

(** The places of the grid, by flattened index [0 .. H*W-1]. *)
Definition all_positions : list Position :=
  (λ x, Pos (x ÷ GRID_WIDTH) (x `mod` GRID_WIDTH))
    <$> range 0 (GRID_HEIGHT * GRID_WIDTH).

Definition board : gset Position := list_to_set all_positions.

Definition explored_at (g : MineGrid) (p : Position) : bool :=
  from_option explored false (button_at g p).

Definition flagged_at (g : MineGrid) (p : Position) : bool :=
  from_option flagged false (button_at g p).

Definition label_at (g : MineGrid) (p : Position) : option Label :=
  label <$> button_at g p.

(** The explored places of the grid. *)
Definition explored_set (g : MineGrid) : gset Position :=
  filter (λ p, explored_at g p = true) board.

(** The button list has [GRID_HEIGHT] rows of [GRID_WIDTH] buttons. *)
Definition grid_dims (g : MineGrid) : Prop :=
  length (buttons g) = Z.to_nat GRID_HEIGHT
  ∧ Forall (λ r, length r = Z.to_nat GRID_WIDTH) (buttons g).

(** The grid has [GRID_HEIGHT] rows of [GRID_WIDTH] buttons, the button
    at each place carries the position of that place, and the tracked
    cell is on the grid: what [MineGrid.buttons] is built as and what no
    method changes. *)
Definition grid_ok (g : MineGrid) : Prop :=
  length (buttons g) = Z.to_nat GRID_HEIGHT
  ∧ Forall (λ r, length r = Z.to_nat GRID_WIDTH) (buttons g)
  ∧ Forall (λ p, position <$> button_at g p = Some p) all_positions
  ∧ current_cell g ∈ all_positions.

(** Every mine is on the grid. *)
Definition mines_ok (g : MineGrid) : Prop :=
  Forall (λ m, m ∈ all_positions) (elements (mines g)).

(** The counter [total_explored] is the number of explored buttons. *)
Definition counter_ok (g : MineGrid) : Prop :=
  total_explored g = Z.of_nat (size (explored_set g)).

(** The 3x3 block around [pos], cut at the edges of the grid: the cells
    that the loops of [open_cell] visit. *)
Definition block (pos : Position) : list Position :=
  i ← range (0 `max` (row pos - 1)) (GRID_HEIGHT `min` (row pos + 1 + 1));
  j ← range (0 `max` (col pos - 1)) (GRID_WIDTH `min` (col pos + 1 + 1));
  [Pos i j].

(** The 3x3 square around [pos], not cut: the cells that the loops of
    [count_mines_near] visit. *)
Definition square (pos : Position) : list Position :=
  i ← range (row pos - 1) (row pos + 1 + 1);
  j ← range (col pos - 1) (col pos + 1 + 1);
  [Pos i j].

(** The up-to-8 neighbours of [pos]: rows [row-1 .. row+1], columns
    [col-1 .. col+1], cut at the edges of the grid, without [pos]. *)
Definition neighbours (pos : Position) : list Position :=
  filter (λ q, q ≠ pos) (block pos).

(** The adjacency count in the words of the specification: how many of
    the neighbours of [pos] are mines. *)
Definition adjacent_mine_count (ms : gset Position) (pos : Position) : Z :=
  Z.of_nat (length (filter (λ q, q ∈ ms) (neighbours pos))).

(** Every explored cell that counts no mine around it has its whole block
    explored, the cells of [pending] aside (those whose loop is still
    running). *)
Definition flood_closed_but (pending : list Position) (g : MineGrid) : Prop :=
  Forall (λ z, explored_at g z = true → count_mines_near g z = 0 → z ∉ pending →
               Forall (λ q, explored_at g q = true) (block z)) all_positions.

Definition flood_closed (g : MineGrid) : Prop := flood_closed_but [] g.

(** The region that opening [p] clears: [p], and the neighbours of every
    cell of the region that counts no mine around it. *)
Inductive zero_region (g : MineGrid) (p : Position) : Position → Prop :=
| zero_region_start : zero_region g p p
| zero_region_step z q :
    zero_region g p z → count_mines_near g z = 0 → q ∈ neighbours z →
    zero_region g p q.

(** What a run of calls of [open_cell] on cells without a mine does to
    the grid, from [g] to [g']: only the button list, the counter and the
    queue change; explored buttons are left as they are; no flag moves;
    the newly explored cells have no mine; the counter grows by their
    number; only wins are posted, and only once the counter has reached
    the winning count; and the grid stays closed under the flood, the
    cells of [running] (whose loops have not finished) aside. *)
Record opens_safely_but (running : list Position) (g g' : MineGrid) : Prop := {
  os_ok : grid_ok g';
  os_mines : mines g' = mines g;
  os_mines_flagged : mines_flagged g' = mines_flagged g;
  os_current_cell : current_cell g' = current_cell g;
  os_disabled : disabled g' = disabled g;
  os_frame : ∀ q, in_bounds q → explored_at g q = true →
             button_at g' q = button_at g q;
  os_flags : ∀ q b, in_bounds q → button_at g q = Some b →
             ∃ b', button_at g' q = Some b' ∧ flagged b' = flagged b
                   ∧ can_focus b' = can_focus b;
  os_no_mine : ∀ q, in_bounds q → explored_at g' q = true →
               explored_at g q = false → q ∉ mines g;
  os_total : total_explored g' - total_explored g
             = Z.of_nat (size (explored_set g')) - Z.of_nat (size (explored_set g));
  os_posted : ∃ new, posted g' = posted g ++ new
                     ∧ Forall (λ m, m = GameEnd true) new
                     ∧ (new ≠ [] →
                        GRID_HEIGHT * GRID_WIDTH - MINES_AMOUNT ≤ total_explored g');
  os_closed : ∀ pending, running ⊆ pending →
              flood_closed_but pending g → flood_closed_but pending g'
}.

Definition opens_safely : MineGrid → MineGrid → Prop := opens_safely_but [].

(** The two nested loops of [open_cell] around [pos], with [open] for
    the recursive call. *)
Definition flood_loop (open : MineGrid → Position → option MineGrid)
    (pos : Position) (g : MineGrid) : option MineGrid :=
  for_each (range (0 `max` (row pos - 1)) (GRID_HEIGHT `min` (row pos + 1 + 1)))
    (λ g i,
       for_each (range (0 `max` (col pos - 1)) (GRID_WIDTH `min` (col pos + 1 + 1)))
         (λ g j, open g (Pos i j)) g) g.

(** The grid once [open_cell] has set [explored] on the button at [p]
    and counted it, the button then being [b]. *)
Definition marked (p : Position) (b : MineButton) (g : MineGrid) : MineGrid :=
  let g1 := set_button p (with_explored true b) g in
  with_total_explored (total_explored g1 + 1) g1.

(** [g'] is [g] with the focus moved: nothing but [can_focus] of some
    buttons and the tracked cell differs. *)
Definition focus_moved (g g' : MineGrid) : Prop :=
  grid_ok g'
  ∧ mines g' = mines g ∧ total_explored g' = total_explored g
  ∧ mines_flagged g' = mines_flagged g ∧ disabled g' = disabled g
  ∧ posted g' = posted g
  ∧ ∀ q b, in_bounds q → button_at g q = Some b →
           ∃ c, button_at g' q = Some (with_can_focus c b).

(** The places that a log of calls shows as newly explored: those of
    the calls that got past the [explored] test. *)
Definition revealed (calls : list (Position * bool)) : list Position :=
  (filter (λ c, c.2 = true) calls).*1.

(** A run of logged calls of [open_cell] on cells without a mine, from
    the grid and log [s] to [s']: the grids are related by
    [opens_safely_but], and the log grew by calls that reveal pairwise
    different cells, each unexplored before and explored after. *)
Definition logs_safely_but (running : list Position)
    (s s' : MineGrid * list (Position * bool)) : Prop :=
  opens_safely_but running s.1 s'.1
  ∧ ∃ ext, s'.2 = s.2 ++ ext
           ∧ NoDup (revealed ext)
           ∧ ∀ q, q ∈ revealed ext →
                  in_bounds q ∧ explored_at s.1 q = false ∧ explored_at s'.1 q = true.

(** The excess of the calls of a log over nine per revealed cell. *)
Definition call_excess (s : MineGrid * list (Position * bool)) : Z :=
  Z.of_nat (length s.2) - 9 * Z.of_nat (length (revealed s.2)).

(** The two nested loops of [open_cell_calls] around [pos]. *)
Definition flood_loop_calls
    (open : MineGrid → Position → option (MineGrid * list (Position * bool)))
    (pos : Position) (s : MineGrid * list (Position * bool))
  : option (MineGrid * list (Position * bool)) :=
  for_each (range (0 `max` (row pos - 1)) (GRID_HEIGHT `min` (row pos + 1 + 1)))
    (λ gl i,
       for_each (range (0 `max` (col pos - 1)) (GRID_WIDTH `min` (col pos + 1 + 1)))
         (λ gl j, r ← open gl.1 (Pos i j); Some (r.1, gl.2 ++ r.2)) gl) s.

(** Every attribute of the grid but its button list is the same. *)
Definition same_fields (g g' : MineGrid) : Prop :=
  mines g' = mines g ∧ total_explored g' = total_explored g
  ∧ mines_flagged g' = mines_flagged g ∧ current_cell g' = current_cell g
  ∧ disabled g' = disabled g ∧ posted g' = posted g.

(** What [reveal_mines] does to the button of a mine: on a win a flag is
    put on it unless it has one, on a loss it is shown as a mine. *)
Definition reveal_button (won : bool) (b : MineButton) : MineButton :=
  if won then (if negb (flagged b) then MineButton.toggle_flagged b else b)
  else MineButton.explode b.

(** What a game played one selection at a time maintains about the
    grid: its shape, mines on the grid
    and [MINES_AMOUNT] of them, the counter of explored cells, and
    closure under the flood. *)
Definition grid_sound (g : MineGrid) : Prop :=
  grid_ok g ∧ mines_ok g ∧ Z.of_nat (size (mines g)) = MINES_AMOUNT
  ∧ counter_ok g ∧ flood_closed g.

(** The state of a session, read off the application: the grid is sound,
    no message is waiting, and each face of the restart button stands for
    one state of the game. *)
Definition session_ok (app : TermSweeperApp) : Prop :=
  let g := mine_grid app in
  grid_sound g ∧ posted g = []
  ∧ match restart_button_label app with
    | FACE_SMILING =>
        disabled g = false ∧ explored_set g ## mines g
        ∧ total_explored g < GRID_HEIGHT * GRID_WIDTH - MINES_AMOUNT
    | FACE_SUNGLASSES =>
        disabled g = true ∧ explored_set g ## mines g
        ∧ total_explored g = GRID_HEIGHT * GRID_WIDTH - MINES_AMOUNT
    | FACE_DIZZY =>
        disabled g = true ∧ ¬ explored_set g ## mines g
    end.

(** The three ways a selection can leave the grid of a game in play:
    still in play with nothing posted; cleared, with only wins posted; or
    with a mine explored and the loss posted. *)
Definition selection_outcome (g' : MineGrid) : Prop :=
  (posted g' = [] ∧ explored_set g' ## mines g'
   ∧ total_explored g' < GRID_HEIGHT * GRID_WIDTH - MINES_AMOUNT)
  ∨ (posted g' ≠ [] ∧ Forall (λ m, m = GameEnd true) (posted g')
     ∧ explored_set g' ## mines g'
     ∧ total_explored g' = GRID_HEIGHT * GRID_WIDTH - MINES_AMOUNT)
  ∨ (posted g' = [GameEnd false] ∧ ¬ explored_set g' ## mines g').

(** The messages posted between the states [g] and [g']. *)
Definition new_messages (g g' : MineGrid) : list Message :=
  drop (length (posted g)) (posted g').

(** States that a game played one selection at a time reaches: it starts
    with a drawn mine layout, and then come selections made in turn and
    restarts. Not every state of the program is of this kind (see
    [scheduled]). *)
Inductive reachable : TermSweeperApp → Prop :=
| reachable_start sample app :
    random_sample (range 0 (GRID_HEIGHT * GRID_WIDTH)) MINES_AMOUNT sample →
    start sample = Some app →
    reachable app
| reachable_select app p action app' :
    reachable app → p ∈ all_positions →
    select app p action = Some app' →
    reachable app'
| reachable_reset app sample app' :
    reachable app →
    random_sample (range 0 (GRID_HEIGHT * GRID_WIDTH)) MINES_AMOUNT sample →
    app_reset app sample = Some app' →
    reachable app'.

(** ** The rest of the grid: moving the focus with the keys *)

(** [MineGrid.action_move_cell_focus]: the four cases of the [match],
    and nothing for any other string. *)
Definition action_move_cell_focus (g : MineGrid) (dir : string) : option MineGrid :=
  if decide (dir = "left") then
    set_current_cell g
      (Pos (row (current_cell g)) (0 `max` (col (current_cell g) - 1)))
  else if decide (dir = "right") then
    set_current_cell g
      (Pos (row (current_cell g)) ((GRID_WIDTH - 1) `min` (col (current_cell g) + 1)))
  else if decide (dir = "up") then
    set_current_cell g
      (Pos (0 `max` (row (current_cell g) - 1)) (col (current_cell g)))
  else if decide (dir = "down") then
    set_current_cell g
      (Pos ((GRID_HEIGHT - 1) `min` (row (current_cell g) + 1)) (col (current_cell g)))
  else Some g.

(** The states of a game played one selection at a time in which the
    focus is also moved with the keys (whether or not the grid is
    disabled). *)
Inductive runs : TermSweeperApp → Prop :=
| runs_start sample app :
    random_sample (range 0 (GRID_HEIGHT * GRID_WIDTH)) MINES_AMOUNT sample →
    start sample = Some app →
    runs app
| runs_select app p action app' :
    runs app → p ∈ all_positions →
    select app p action = Some app' →
    runs app'
| runs_move app dir g' :
    runs app →
    action_move_cell_focus (mine_grid app) dir = Some g' →
    runs (App g' (restart_button_label app))
| runs_reset app sample app' :
    runs app →
    random_sample (range 0 (GRID_HEIGHT * GRID_WIDTH)) MINES_AMOUNT sample →
    app_reset app sample = Some app' →
    runs app'.

Definition can_focus_at (g : MineGrid) (p : Position) : bool :=
  from_option can_focus false (button_at g p).

(** The flagged places of the grid. *)
Definition flagged_set (g : MineGrid) : gset Position :=
  filter (λ p, flagged_at g p = true) board.

(** The tracked cell is the only button of the grid that can take the
    focus. *)
Definition focus_unique (g : MineGrid) : Prop :=
  Forall (λ q, can_focus_at g q = bool_decide (q = current_cell g)) all_positions.

(** What an explored cell without a mine is to show: nothing when it
    counts no mine around it, the count otherwise. *)
Definition count_label (g : MineGrid) (q : Position) : Label :=
  if decide (count_mines_near g q = 0) then CHAR_EMPTY
  else Digit (count_mines_near g q).

(** Every explored cell without a mine shows its count. *)
Definition labels_ok (g : MineGrid) : Prop :=
  Forall (λ q, explored_at g q = true → q ∉ mines g →
               label_at g q = Some (count_label g q)) all_positions.

(** Every unexplored cell shows the flag when it is flagged and the
    unopened mark when it is not. *)
Definition covers_ok (g : MineGrid) : Prop :=
  Forall (λ q, explored_at g q = false →
               label_at g q = Some (if flagged_at g q then CHAR_FLAGGED
                                    else CHAR_UNOPENED)) all_positions.

(** [mines_flagged] is the number of flagged buttons. *)
Definition flags_counted (g : MineGrid) : Prop :=
  mines_flagged g = Z.of_nat (size (flagged_set g)).

(** Two grids show the same: the same buttons at the places of the grid,
    the same mines, counters and tracked cell. *)
Definition same_view (g g' : MineGrid) : Prop :=
  grid_ok g' ∧ mines g' = mines g ∧ total_explored g' = total_explored g
  ∧ mines_flagged g' = mines_flagged g ∧ current_cell g' = current_cell g
  ∧ ∀ q, in_bounds q → button_at g' q = button_at g q.

(** What calls of [open_cell] write, from [g] to [g']: the buttons still
    unexplored are untouched, and each newly explored cell shows its
    count. *)
Definition shows_counts (g g' : MineGrid) : Prop :=
  (∀ q, in_bounds q → explored_at g' q = false → button_at g' q = button_at g q)
  ∧ (∀ q, in_bounds q → q ∉ mines g → explored_at g q = false →
          explored_at g' q = true → label_at g' q = Some (count_label g q)).

(** Two grids with the same mines and flag counter whose buttons agree
    on all but [can_focus] and the colour. *)
Definition same_marks (g g' : MineGrid) : Prop :=
  mines g' = mines g ∧ mines_flagged g' = mines_flagged g
  ∧ ∀ q, in_bounds q →
         explored_at g' q = explored_at g q ∧ flagged_at g' q = flagged_at g q
         ∧ label_at g' q = label_at g q.

(** The grid with its message queue taken for delivery. *)
Definition emptied (g : MineGrid) : MineGrid :=
  Grid (mines g) (buttons g) (total_explored g) (mines_flagged g)
       (current_cell g) (disabled g) [].

(** What the grid shows while the game is in play. *)
Definition play_ok (g : MineGrid) : Prop :=
  focus_unique g ∧ labels_ok g ∧ covers_ok g ∧ flags_counted g.

(** What the grid shows once the game is won: every mine carries a flag
    (those put at the end are not counted in [mines_flagged]). *)
Definition won_ok (g : MineGrid) : Prop :=
  focus_unique g ∧ labels_ok g ∧ covers_ok g
  ∧ (∀ m, in_bounds m → m ∈ mines g → flagged_at g m = true)
  ∧ explored_set g = board ∖ mines g.

(** What the grid shows once the game is lost: one mine is explored,
    every mine shows as a mine, and the flags are still counted. *)
Definition lost_ok (g : MineGrid) : Prop :=
  focus_unique g ∧ labels_ok g ∧ flags_counted g
  ∧ (∀ m, in_bounds m → m ∈ mines g → label_at g m = Some CHAR_MINE)
  ∧ (∀ q, in_bounds q → q ∉ mines g → explored_at g q = false →
          label_at g q = Some (if flagged_at g q then CHAR_FLAGGED else CHAR_UNOPENED))
  ∧ (∃ p, explored_set g ∩ mines g = {[p]}).

Definition display_ok (app : TermSweeperApp) : Prop :=
  match restart_button_label app with
  | FACE_SMILING => play_ok (mine_grid app)
  | FACE_SUNGLASSES => won_ok (mine_grid app)
  | FACE_DIZZY => lost_ok (mine_grid app)
  end.

(** ** The mine counter of the info bar *)

(** Python's [str] of an integer: its decimal digits, after a minus sign
    when it is negative. *)
Definition py_str (n : Z) : string := pretty n.

(** [n] copies of the character [c]. *)
Fixpoint fill (n : nat) (c : Ascii.ascii) : string :=
  match n with
  | O => EmptyString
  | S n => String c (fill n c)
  end.

(** The format [0>3] of the f-strings, applied to an integer: its [str],
    aligned to the right of three characters and filled with "0". A
    longer text is left as it is. *)
Definition format_0_right_3 (n : Z) : string :=
  let s := py_str n in
  fill (3 - String.length s) "0"%char +:+ s.

(** The text of [InfoBar.mine_counter] at the start and after
    [InfoBar.reset]. *)
Definition mine_counter_start : string := format_0_right_3 MINES_AMOUNT.

(** [TermSweeperApp.flag_update]: the text it writes on the mine counter
    for a FLAG selection; it writes nothing for another selection. *)
Definition flag_update (app : TermSweeperApp) (action : SelectAction) : option string :=
  if decide (action = FLAG)
  then Some (format_0_right_3 (MINES_AMOUNT - mines_flagged (mine_grid app)))
  else None.

(** The character of the decimal digit [d]. *)
Definition digit_char (d : Z) : Ascii.ascii := Ascii.ascii_of_nat (48 + Z.to_nat d).

(** FLAG selections of the buttons at the places of [ps], one after the
    other. *)
Definition flag_all (app : TermSweeperApp) (ps : list Position) : option TermSweeperApp :=
  for_each ps (λ app p, select app p FLAG) app.

(** ** Handlers in any order *)

Definition with_posted (v : list Message) (g : MineGrid) : MineGrid :=
  Grid (mines g) (buttons g) (total_explored g) (mines_flagged g)
       (current_cell g) (disabled g) v.

(** The states of the application under every order of handling. A
    handler runs to its end before the next one starts. A [Selected]
    message of any button of the grid can be the next to reach
    [MineGrid.handle_selected], whatever is waiting and whether or not
    the grid has been disabled since the click. The oldest [GameEnd]
    that [open_cell] posted can be the next to reach
    [MineGrid.end_game]; from there it is on its way to
    [TermSweeperApp.handle_game_end], which it reaches later. A key move
    and a restart can come at any time, and a restart empties no queue.
    [ended] lists the [GameEnd] messages that [end_game] has handled
    since the start or the last restart, [up] those on their way to the
    application. *)
Inductive scheduled : list Message → list Message → TermSweeperApp → Prop :=
| scheduled_start sample app :
    random_sample (range 0 (GRID_HEIGHT * GRID_WIDTH)) MINES_AMOUNT sample →
    start sample = Some app →
    scheduled [] [] app
| scheduled_selected ended up app p action g' :
    scheduled ended up app → p ∈ all_positions →
    handle_selected (mine_grid app) p action = Some g' →
    scheduled ended up (App g' (restart_button_label app))
| scheduled_game_end ended up app m rest g' :
    scheduled ended up app →
    posted (mine_grid app) = m :: rest →
    end_game (with_posted rest (mine_grid app)) m = Some g' →
    scheduled (ended ++ [m]) (up ++ [m]) (App g' (restart_button_label app))
| scheduled_bubble ended up app m :
    scheduled ended (m :: up) app →
    scheduled ended up (handle_game_end app m)
| scheduled_move ended up app dir g' :
    scheduled ended up app →
    action_move_cell_focus (mine_grid app) dir = Some g' →
    scheduled ended up (App g' (restart_button_label app))
| scheduled_reset ended up app sample app' :
    scheduled ended up app →
    random_sample (range 0 (GRID_HEIGHT * GRID_WIDTH)) MINES_AMOUNT sample →
    app_reset app sample = Some app' →
    scheduled [] up app'.

(** The states of the application, whatever the order of handling. *)
Definition any_order (app : TermSweeperApp) : Prop :=
  ∃ ended up, scheduled ended up app.

(** What every handler keeps of the grid: its shape, the mines on the
    grid and [MINES_AMOUNT] of them, and [total_explored] the number of
    explored buttons. *)
Definition grid_kept (g : MineGrid) : Prop :=
  grid_ok g ∧ mines_ok g ∧ Z.of_nat (size (mines g)) = MINES_AMOUNT ∧ counter_ok g.

(** The grid has at least one row and one column. *)
Hypothesis width_pos : 0 < GRID_WIDTH.
Hypothesis height_pos : 0 < GRID_HEIGHT.

(** ** Loops and indices *)

Lemma elem_of_range (a b x : Z) : x ∈ range a b ↔ a ≤ x < b.
Proof. unfold range. rewrite elem_of_seqZ. lia. Qed.

Lemma py_resolve_front (len : nat) (i : Z) :
  0 ≤ i < Z.of_nat len → py_resolve len i = Some (Z.to_nat i).
Proof. intros Hi. unfold py_resolve. by rewrite decide_True. Qed.

Lemma py_get_front {A} (l : list A) (i : Z) :
  0 ≤ i < Z.of_nat (length l) → py_get l i = l !! Z.to_nat i.
Proof. intros Hi. unfold py_get. by rewrite py_resolve_front. Qed.

(** A loop keeps a transitive relation [R] between its start and its end
    when each turn does, and what a turn establishes for its value ([Q])
    still holds at the end when [R] keeps it. *)
Lemma for_each_rel {S A} (R : S → S → Prop) (Q : A → S → Prop)
    (body : S → A → option S) (l : list A) (s s' : S) :
  R s s →
  (∀ s1 s2, R s1 s2 → R s2 s2) →
  (∀ s1 s2 s3, R s1 s2 → R s2 s3 → R s1 s3) →
  (∀ x s1 s2, Q x s1 → R s1 s2 → Q x s2) →
  (∀ x s0 s1, x ∈ l → R s s0 → body s0 x = Some s1 → R s0 s1 ∧ Q x s1) →
  for_each l body s = Some s' →
  R s s' ∧ ∀ x, x ∈ l → Q x s'.
Proof.
  intros Hstart Hrefl Htrans Hstable.
  revert s Hstart. induction l as [|x l IH]; intros s Hstart Hbody Hrun; simpl in Hrun.
  - simplify_eq. split; [done|]. intros x Hx. by apply elem_of_nil in Hx.
  - destruct (body s x) as [s1|] eqn:Hx; [|done].
    destruct (Hbody x s s1) as [HR HQ]; [left|done|done|].
    destruct (IH s1) as [HR' HQ']; [by eapply Hrefl| |done|].
    { intros y s0 s2 Hy HR0 Hy0. apply Hbody; [by right|by eapply Htrans|done]. }
    split; [by eapply Htrans|].
    intros y [->|Hy]%elem_of_cons; [by eapply Hstable|by apply HQ'].
Qed.

(** A loop runs to its end when each turn does. *)
Lemma for_each_total {S A} (R : S → S → Prop)
    (body : S → A → option S) (l : list A) (s : S) :
  R s s →
  (∀ s1 s2, R s1 s2 → R s2 s2) →
  (∀ s1 s2 s3, R s1 s2 → R s2 s3 → R s1 s3) →
  (∀ x s0, x ∈ l → R s s0 → ∃ s1, body s0 x = Some s1 ∧ R s0 s1) →
  ∃ s', for_each l body s = Some s' ∧ R s s'.
Proof.
  intros Hstart Hrefl Htrans.
  revert s Hstart. induction l as [|x l IH]; intros s Hstart Hbody; simpl.
  - by exists s.
  - destruct (Hbody x s) as (s1 & -> & HR); [left|done|].
    destruct (IH s1) as (s' & Hrun & HR'); [by eapply Hrefl| |].
    { intros y s0 Hy HR0. apply Hbody; [by right|by eapply Htrans]. }
    exists s'. split; [done|by eapply Htrans].
Qed.

(** ** The places of the grid *)

Lemma elem_of_all_positions (p : Position) : p ∈ all_positions ↔ in_bounds p.
Proof.
  unfold all_positions, in_bounds. rewrite list_elem_of_fmap. split.
  - intros (x & -> & Hx%elem_of_range). simpl.
    rewrite Z.quot_div_nonneg by lia.
    pose proof (Z.mod_pos_bound x GRID_WIDTH width_pos).
    assert (0 ≤ x `div` GRID_WIDTH) by (apply Z.div_pos; lia).
    assert (x `div` GRID_WIDTH < GRID_HEIGHT) by (apply Z.div_lt_upper_bound; lia).
    lia.
  - destruct p as [r c]; simpl. intros [Hr Hc].
    exists (r * GRID_WIDTH + c). split.
    + rewrite Z.quot_div_nonneg by nia.
      f_equal.
      * rewrite Z.div_add_l by lia. rewrite Z.div_small by lia. lia.
      * rewrite Z.add_comm, Z.mod_add by lia. by rewrite Z.mod_small.
    + apply elem_of_range. nia.
Qed.

Lemma index_position_inj (x y : Z) :
  0 ≤ x → 0 ≤ y →
  Pos (x ÷ GRID_WIDTH) (x `mod` GRID_WIDTH) = Pos (y ÷ GRID_WIDTH) (y `mod` GRID_WIDTH) →
  x = y.
Proof.
  intros Hx Hy Heq. injection Heq as Hq Hm.
  rewrite !Z.quot_div_nonneg in Hq by lia.
  rewrite (Z.div_mod x GRID_WIDTH), (Z.div_mod y GRID_WIDTH) by lia.
  by rewrite Hq, Hm.
Qed.

Lemma NoDup_index_positions (l : list Z) :
  NoDup l → Forall (λ x, 0 ≤ x) l →
  NoDup ((λ x, Pos (x ÷ GRID_WIDTH) (x `mod` GRID_WIDTH)) <$> l).
Proof.
  intros Hnd Hl. apply NoDup_fmap_2_strong; [|done].
  intros x y Hx Hy. rewrite Forall_forall in Hl.
  apply index_position_inj; auto.
Qed.

Lemma NoDup_all_positions : NoDup all_positions.
Proof.
  apply NoDup_index_positions; [apply NoDup_seqZ|].
  apply Forall_forall. intros x Hx%elem_of_range. lia.
Qed.

Lemma length_all_positions : length all_positions = Z.to_nat (GRID_HEIGHT * GRID_WIDTH).
Proof. unfold all_positions, range. rewrite length_fmap, length_seqZ. f_equal. lia. Qed.

Lemma elem_of_board (p : Position) : p ∈ board ↔ in_bounds p.
Proof. unfold board. by rewrite elem_of_list_to_set, elem_of_all_positions. Qed.

Lemma size_board : size board = Z.to_nat (GRID_HEIGHT * GRID_WIDTH).
Proof.
  unfold board. rewrite size_list_to_set by apply NoDup_all_positions.
  apply length_all_positions.
Qed.

Lemma elem_of_block (pos q : Position) :
  q ∈ block pos ↔
  in_bounds q ∧ row pos - 1 ≤ row q ≤ row pos + 1 ∧ col pos - 1 ≤ col q ≤ col pos + 1.
Proof.
  unfold block, in_bounds. rewrite list_elem_of_bind. split.
  - intros (i & (j & Hq%list_elem_of_singleton & Hj%elem_of_range)%list_elem_of_bind
              & Hi%elem_of_range).
    subst q; simpl. lia.
  - destruct q as [i j]; simpl. intros (Hb & Hr & Hc).
    exists i. split; [|apply elem_of_range; lia].
    apply list_elem_of_bind. exists j. split; [by apply list_elem_of_singleton|].
    apply elem_of_range; lia.
Qed.

Lemma block_self (pos : Position) : in_bounds pos → pos ∈ block pos.
Proof. intros Hp. apply elem_of_block. split; [done|lia]. Qed.

Lemma elem_of_neighbours (pos q : Position) :
  q ∈ neighbours pos ↔ q ∈ block pos ∧ q ≠ pos.
Proof. unfold neighbours. rewrite list_elem_of_filter. tauto. Qed.

(** ** Reading and writing buttons *)

Lemma grid_ok_dims (g : MineGrid) : grid_ok g → grid_dims g.
Proof. intros (? & ? & _). by split. Qed.

Lemma button_at_front (g : MineGrid) (p : Position) :
  grid_dims g → in_bounds p →
  button_at g p = buttons g !! Z.to_nat (row p) ≫= (.!! Z.to_nat (col p)).
Proof.
  intros [Hlen Hrows] [Hr Hc]. unfold button_at.
  rewrite py_get_front by lia.
  destruct (buttons g !! Z.to_nat (row p)) as [r|] eqn:Hrow; simpl; [|done].
  rewrite Forall_lookup in Hrows. specialize (Hrows _ _ Hrow).
  by rewrite py_get_front by lia.
Qed.

Lemma button_at_is_Some (g : MineGrid) (p : Position) :
  grid_dims g → in_bounds p → is_Some (button_at g p).
Proof.
  intros Hd Hp. rewrite button_at_front by done.
  destruct Hd as [Hlen Hrows]. destruct Hp as [Hr Hc].
  destruct (lookup_lt_is_Some_2 (buttons g) (Z.to_nat (row p))) as [r Hrow]; [lia|].
  rewrite Hrow; simpl. apply lookup_lt_is_Some_2.
  rewrite Forall_lookup in Hrows. rewrite (Hrows _ _ Hrow). lia.
Qed.

Lemma button_at_ok (g : MineGrid) (p : Position) :
  grid_ok g → in_bounds p → ∃ b, button_at g p = Some b ∧ position b = p.
Proof.
  intros (_ & _ & Hpos & _) Hp%elem_of_all_positions.
  rewrite Forall_forall in Hpos. specialize (Hpos p Hp).
  destruct (button_at g p) as [b|]; [|done].
  exists b. split; [done|]. by injection Hpos.
Qed.

Lemma set_button_front (g : MineGrid) (p : Position) (b : MineButton) :
  grid_dims g → in_bounds p →
  buttons (set_button p b g)
  = alter (λ r, <[Z.to_nat (col p) := b]> r) (Z.to_nat (row p)) (buttons g).
Proof.
  intros [Hlen Hrows] [Hr Hc]. unfold set_button.
  rewrite py_resolve_front by lia. simpl.
  apply list_eq. intros i. rewrite !list_lookup_alter.
  case_decide; [|done]. subst i.
  destruct (buttons g !! Z.to_nat (row p)) as [r|] eqn:Hrow; simpl; [|done].
  rewrite Forall_lookup in Hrows. specialize (Hrows _ _ Hrow).
  by rewrite py_resolve_front by lia.
Qed.

Lemma grid_dims_set_button (g : MineGrid) (p : Position) (b : MineButton) :
  grid_dims g → in_bounds p → grid_dims (set_button p b g).
Proof.
  intros Hd Hp. pose proof Hd as [Hlen Hrows]. unfold grid_dims.
  rewrite set_button_front by done. rewrite length_alter. split; [done|].
  apply Forall_alter; [done|]. intros r _ Hr. by rewrite length_insert.
Qed.

Lemma button_at_set_button (g : MineGrid) (p q : Position) (b : MineButton) :
  grid_dims g → in_bounds p → in_bounds q →
  button_at (set_button p b g) q = if decide (q = p) then Some b else button_at g q.
Proof.
  intros Hd Hp Hq.
  rewrite !button_at_front by auto using grid_dims_set_button.
  rewrite set_button_front by done.
  destruct Hd as [Hlen Hrows]. destruct Hp as [Hpr Hpc]. destruct Hq as [Hqr Hqc].
  rewrite list_lookup_alter.
  destruct (decide (Z.to_nat (row p) = Z.to_nat (row q))) as [Hrow|Hrow].
  - rewrite <- Hrow.
    destruct (lookup_lt_is_Some_2 (buttons g) (Z.to_nat (row p))) as [r Hr]; [lia|].
    rewrite Hr; simpl.
    rewrite Forall_lookup in Hrows. specialize (Hrows _ _ Hr).
    rewrite list_lookup_insert by lia.
    destruct (decide (Z.to_nat (col p) = Z.to_nat (col q))) as [Hcol|Hcol].
    + rewrite decide_True; [|split; [done|lia]].
      rewrite decide_True; [done|]. destruct p, q; simpl in *. f_equal; lia.
    + rewrite decide_False by tauto. rewrite decide_False; [done|].
      intros ->. done.
  - rewrite decide_False; [done|]. intros ->. done.
Qed.

Lemma mines_set_button p b g : mines (set_button p b g) = mines g.
Proof. unfold set_button. by case_match. Qed.
Lemma total_explored_set_button p b g :
  total_explored (set_button p b g) = total_explored g.
Proof. unfold set_button. by case_match. Qed.
Lemma mines_flagged_set_button p b g :
  mines_flagged (set_button p b g) = mines_flagged g.
Proof. unfold set_button. by case_match. Qed.
Lemma current_cell_set_button p b g :
  current_cell (set_button p b g) = current_cell g.
Proof. unfold set_button. by case_match. Qed.
Lemma disabled_set_button p b g : disabled (set_button p b g) = disabled g.
Proof. unfold set_button. by case_match. Qed.
Lemma posted_set_button p b g : posted (set_button p b g) = posted g.
Proof. unfold set_button. by case_match. Qed.

Lemma grid_ok_set_button (g : MineGrid) (p : Position) (b : MineButton) :
  grid_ok g → in_bounds p → position b = p → grid_ok (set_button p b g).
Proof.
  intros Hok Hp Hb. pose proof (grid_ok_dims _ Hok) as Hd.
  destruct (grid_dims_set_button g p b Hd Hp) as [Hlen Hrows].
  destruct Hok as (_ & _ & Hpos & Hcur).
  split; [done|]. split; [done|]. split.
  - rewrite Forall_forall in Hpos |- *. intros q Hq.
    pose proof Hq as Hq'%elem_of_all_positions.
    rewrite button_at_set_button by done.
    case_decide; [by subst|by apply Hpos].
  - by rewrite current_cell_set_button.
Qed.

(** ** Explored cells *)

Lemma elem_of_explored_set (g : MineGrid) (q : Position) :
  q ∈ explored_set g ↔ in_bounds q ∧ explored_at g q = true.
Proof. unfold explored_set. rewrite elem_of_filter, elem_of_board. tauto. Qed.

Lemma explored_at_set_button (g : MineGrid) (p q : Position) (b : MineButton) :
  grid_dims g → in_bounds p → in_bounds q →
  explored_at (set_button p b g) q
  = if decide (q = p) then explored b else explored_at g q.
Proof.
  intros. unfold explored_at. rewrite button_at_set_button by done.
  by case_decide.
Qed.

Lemma explored_set_mark (g : MineGrid) (p : Position) (b : MineButton) :
  grid_dims g → in_bounds p → explored b = true →
  explored_set (set_button p b g) = {[p]} ∪ explored_set g.
Proof.
  intros Hd Hp Hb. apply set_eq. intros q.
  rewrite elem_of_union, elem_of_singleton, !elem_of_explored_set.
  split.
  - intros [Hq He]. rewrite explored_at_set_button in He by done.
    case_decide; auto.
  - intros [->|[Hq He]].
    + split; [done|]. rewrite explored_at_set_button by done.
      by rewrite decide_True.
    + split; [done|]. rewrite explored_at_set_button by done.
      by case_decide.
Qed.

Lemma explored_set_keep (g : MineGrid) (p : Position) (b : MineButton) :
  grid_dims g → in_bounds p → explored b = explored_at g p →
  explored_set (set_button p b g) = explored_set g.
Proof.
  intros Hd Hp Hb. apply set_eq. intros q.
  rewrite !elem_of_explored_set.
  split; intros [Hq He]; (split; [done|]).
  - rewrite explored_at_set_button in He by done.
    case_decide; subst; congruence.
  - rewrite explored_at_set_button by done. case_decide; subst; congruence.
Qed.

Lemma explored_set_board (g : MineGrid) : explored_set g ⊆ board.
Proof. intros q [Hq _]%elem_of_explored_set. by apply elem_of_board. Qed.

Lemma size_explored_set (g : MineGrid) :
  (size (explored_set g) ≤ Z.to_nat (GRID_HEIGHT * GRID_WIDTH))%nat.
Proof. rewrite <- size_board. apply subseteq_size, explored_set_board. Qed.

(** ** Counting mines *)

Lemma foldl_count_cells (P : Position → Prop) `{!∀ q, Decision (P q)}
    (rows cols : list Z) (c : Z) :
  foldl (λ count i,
           foldl (λ count j, if decide (P (Pos i j)) then count + 1 else count)
                 count cols) c rows
  = c + Z.of_nat (length (filter P (i ← rows; j ← cols; [Pos i j]))).
Proof.
  revert c. induction rows as [|i rows IH]; intros c; csimpl; [lia|].
  rewrite IH, filter_app, length_app.
  assert (∀ c' : Z,
    foldl (λ count j, if decide (P (Pos i j)) then count + 1 else count) c' cols
    = c' + Z.of_nat (length (filter P (j ← cols; [Pos i j])))) as ->; [|lia].
  clear IH. induction cols as [|j cols IHc]; intros c'; csimpl; [lia|].
  rewrite IHc, filter_cons. case_decide; simpl; lia.
Qed.

Lemma count_mines_near_square (g : MineGrid) (pos : Position) :
  count_mines_near g pos
  = Z.of_nat (length (filter (λ q, q ∈ mines g) (square pos))).
Proof. exact (foldl_count_cells (λ q, q ∈ mines g) _ _ 0). Qed.

Lemma elem_of_cells (rows cols : list Z) (q : Position) :
  q ∈ (i ← rows; j ← cols; [Pos i j]) ↔ row q ∈ rows ∧ col q ∈ cols.
Proof.
  rewrite list_elem_of_bind. split.
  - intros (i & (j & ->%list_elem_of_singleton & Hj)%list_elem_of_bind & Hi). done.
  - destruct q as [i j]; simpl. intros [Hi Hj]. exists i. split; [|done].
    apply list_elem_of_bind. exists j. split; [|done]. by apply list_elem_of_singleton.
Qed.

Lemma NoDup_cells (rows cols : list Z) :
  NoDup rows → NoDup cols → NoDup (i ← rows; j ← cols; [Pos i j]).
Proof.
  intros Hr Hc. apply NoDup_bind; [| |done].
  - intros i1 i2 q _ _ (j1 & ->%list_elem_of_singleton & _)%list_elem_of_bind
           (j2 & Heq%list_elem_of_singleton & _)%list_elem_of_bind.
    by injection Heq.
  - intros i _. apply NoDup_bind; [| |done].
    + intros j1 j2 q _ _ ->%list_elem_of_singleton Heq%list_elem_of_singleton.
      by injection Heq.
    + intros j _. apply NoDup_singleton.
Qed.

Lemma elem_of_square (pos q : Position) :
  q ∈ square pos ↔
  row pos - 1 ≤ row q ≤ row pos + 1 ∧ col pos - 1 ≤ col q ≤ col pos + 1.
Proof. unfold square. rewrite elem_of_cells, !elem_of_range. lia. Qed.

Lemma NoDup_square (pos : Position) : NoDup (square pos).
Proof. apply NoDup_cells; apply NoDup_seqZ. Qed.

Lemma NoDup_block (pos : Position) : NoDup (block pos).
Proof. apply NoDup_cells; apply NoDup_seqZ. Qed.

Lemma block_square (pos q : Position) : q ∈ block pos → q ∈ square pos.
Proof. rewrite elem_of_block, elem_of_square. tauto. Qed.

(** A cell that counts no mine has no mine in its square, itself
    included. *)
Lemma count_zero_no_mine (g : MineGrid) (pos q : Position) :
  count_mines_near g pos = 0 → q ∈ square pos → q ∉ mines g.
Proof.
  rewrite count_mines_near_square. intros Hc Hq Hm.
  assert (q ∈ filter (λ q, q ∈ mines g) (square pos)) as Hin
    by by apply list_elem_of_filter.
  destruct (filter _ (square pos)); [by apply elem_of_nil in Hin|simpl in Hc; lia].
Qed.

Lemma length_square (pos : Position) : length (square pos) = 9%nat.
Proof.
  unfold square, range.
  replace (row pos + 1 + 1 - (row pos - 1)) with 3 by lia.
  replace (col pos + 1 + 1 - (col pos - 1)) with 3 by lia.
  done.
Qed.

Lemma count_mines_near_bounds (g : MineGrid) (pos : Position) :
  0 ≤ count_mines_near g pos ≤ 9.
Proof.
  rewrite count_mines_near_square.
  pose proof (length_filter (λ q, q ∈ mines g) (square pos)) as Hle.
  rewrite length_square in Hle. lia.
Qed.

(** ** Runs of safe openings *)

Lemma opens_safely_refl (running : list Position) (g : MineGrid) :
  grid_ok g → opens_safely_but running g g.
Proof.
  intros Hok. split; try done.
  - intros q b _ Hb. by exists b.
  - intros q _ H1 H2. congruence.
  - lia.
  - exists []. rewrite app_nil_r. split; [done|]. split; [constructor|done].
Qed.

Lemma opens_safely_refl_target (running : list Position) (g g' : MineGrid) :
  opens_safely_but running g g' → opens_safely_but running g' g'.
Proof. intros H. apply opens_safely_refl, H. Qed.

Lemma opens_safely_explored (running : list Position) (g g' : MineGrid) (q : Position) :
  opens_safely_but running g g' → in_bounds q →
  explored_at g q = true → explored_at g' q = true.
Proof.
  intros H Hq He. unfold explored_at in *.
  by rewrite (os_frame _ _ _ H q Hq He).
Qed.

Lemma opens_safely_subseteq (running : list Position) (g g' : MineGrid) :
  opens_safely_but running g g' → explored_set g ⊆ explored_set g'.
Proof.
  intros H q [Hq He]%elem_of_explored_set. apply elem_of_explored_set.
  split; [done|]. by eapply opens_safely_explored.
Qed.

Lemma opens_safely_total_le (running : list Position) (g g' : MineGrid) :
  opens_safely_but running g g' → total_explored g ≤ total_explored g'.
Proof.
  intros H. pose proof (os_total _ _ _ H).
  pose proof (subseteq_size _ _ (opens_safely_subseteq _ _ _ H)). lia.
Qed.

Lemma opens_safely_trans (running : list Position) (g1 g2 g3 : MineGrid) :
  opens_safely_but running g1 g2 → opens_safely_but running g2 g3 →
  opens_safely_but running g1 g3.
Proof.
  intros H12 H23. split.
  - apply H23.
  - rewrite (os_mines _ _ _ H23). apply H12.
  - rewrite (os_mines_flagged _ _ _ H23). apply H12.
  - rewrite (os_current_cell _ _ _ H23). apply H12.
  - rewrite (os_disabled _ _ _ H23). apply H12.
  - intros q Hq He.
    rewrite (os_frame _ _ _ H23 q Hq); [by apply H12|].
    by eapply opens_safely_explored.
  - intros q b Hq Hb.
    destruct (os_flags _ _ _ H12 q b Hq Hb) as (b2 & Hb2 & Hf2 & Hc2).
    destruct (os_flags _ _ _ H23 q b2 Hq Hb2) as (b3 & Hb3 & Hf3 & Hc3).
    exists b3. split; [done|]. split; congruence.
  - intros q Hq He3 He1.
    destruct (explored_at g2 q) eqn:He2.
    + by apply (os_no_mine _ _ _ H12 q).
    + rewrite <- (os_mines _ _ _ H12). by apply (os_no_mine _ _ _ H23 q).
  - pose proof (os_total _ _ _ H12). pose proof (os_total _ _ _ H23). lia.
  - destruct (os_posted _ _ _ H12) as (new1 & Hp1 & Hw1 & Ht1).
    destruct (os_posted _ _ _ H23) as (new2 & Hp2 & Hw2 & Ht2).
    exists (new1 ++ new2). split; [by rewrite Hp2, Hp1, app_assoc|].
    split; [by apply Forall_app|].
    intros Hne. destruct new2 as [|m new2]; [|by apply Ht2].
    rewrite app_nil_r in Hne.
    pose proof (opens_safely_total_le _ _ _ H23). specialize (Ht1 Hne). lia.
  - intros pending Hsub Hc. apply (os_closed _ _ _ H23); [done|].
    by apply (os_closed _ _ _ H12).
Qed.

Lemma opens_safely_weaken (running : list Position) (g g' : MineGrid) :
  opens_safely g g' → opens_safely_but running g g'.
Proof.
  intros H. split; try apply H.
  intros pending _. apply (os_closed _ _ _ H). apply list_subseteq_nil.
Qed.

(** ** One call of [open_cell] *)

Lemma open_cell_S (fuel : nat) (g : MineGrid) (p : Position) :
  open_cell (S fuel) g p =
  button ← button_at g p;
  if explored button then Some g
  else
    let b1 := with_explored true button in
    let g1 := marked p button g in
    if decide (position b1 ∈ mines g1) then
      Some (post_message (GameEnd false)
              (set_button p (with_color "deeppink" (with_label CHAR_MINE b1)) g1))
    else
      g2 ← (if decide (count_mines_near g1 (position b1) = 0) then
              flood_loop (open_cell fuel) (position b1)
                         (set_button p (with_label CHAR_EMPTY b1) g1)
            else
              b2 ← MineButton.set_number (count_mines_near g1 (position b1)) b1;
              Some (set_button p b2 g1));
      if decide (total_explored g2 >= GRID_HEIGHT * GRID_WIDTH - MINES_AMOUNT)
      then Some (post_message (GameEnd true) g2)
      else Some g2.
Proof. reflexivity. Qed.

Lemma flood_loop_rel (R : MineGrid → MineGrid → Prop) (Q : Position → MineGrid → Prop)
    (open : MineGrid → Position → option MineGrid) (pos : Position) (g g' : MineGrid) :
  R g g →
  (∀ s1 s2, R s1 s2 → R s2 s2) →
  (∀ s1 s2 s3, R s1 s2 → R s2 s3 → R s1 s3) →
  (∀ q s1 s2, Q q s1 → R s1 s2 → Q q s2) →
  (∀ q s0 s1, q ∈ block pos → R g s0 → open s0 q = Some s1 → R s0 s1 ∧ Q q s1) →
  flood_loop open pos g = Some g' →
  R g g' ∧ ∀ q, q ∈ block pos → Q q g'.
Proof.
  intros Hstart Hrefl Htrans Hstable Hbody Hrun. unfold flood_loop in Hrun.
  set (cols := range (0 `max` (col pos - 1)) (GRID_WIDTH `min` (col pos + 1 + 1))) in *.
  apply (for_each_rel R (λ i s, ∀ j, j ∈ cols → Q (Pos i j) s)) in Hrun;
    [| done | done | done | by eauto |].
  - destruct Hrun as [HR HQ]. split; [done|].
    intros [i j] Hq. pose proof Hq as [Hi Hj]%elem_of_cells. by apply HQ.
  - intros i s0 s1 Hi HR0 Hinner.
    apply (for_each_rel R (λ j s, Q (Pos i j) s)) in Hinner;
      [done | by eapply Hrefl | done | done | by eauto |].
    intros j s2 s3 Hj HR2 Hopen. apply Hbody; [|by eapply Htrans|done].
    apply elem_of_cells. by split.
Qed.

Lemma flood_loop_total (R : MineGrid → MineGrid → Prop)
    (open : MineGrid → Position → option MineGrid) (pos : Position) (g : MineGrid) :
  R g g →
  (∀ s1 s2, R s1 s2 → R s2 s2) →
  (∀ s1 s2 s3, R s1 s2 → R s2 s3 → R s1 s3) →
  (∀ q s0, q ∈ block pos → R g s0 → ∃ s1, open s0 q = Some s1 ∧ R s0 s1) →
  ∃ g', flood_loop open pos g = Some g' ∧ R g g'.
Proof.
  intros Hstart Hrefl Htrans Hbody. unfold flood_loop.
  apply (for_each_total R); [done..|].
  intros i s0 Hi HR0.
  apply (for_each_total R); [by eapply Hrefl|done..|].
  intros j s1 Hj HR1. apply Hbody; [|by eapply Htrans].
  apply elem_of_cells. by split.
Qed.

Lemma count_mines_near_mines (g g' : MineGrid) (pos : Position) :
  mines g' = mines g → count_mines_near g' pos = count_mines_near g pos.
Proof. intros Hm. unfold count_mines_near. by rewrite Hm. Qed.

Lemma set_button_with_total_explored p b v g :
  set_button p b (with_total_explored v g) = with_total_explored v (set_button p b g).
Proof. unfold set_button. simpl. by case_match. Qed.

Lemma flood_closed_but_elim (pending : list Position) (g : MineGrid) (z q : Position) :
  flood_closed_but pending g → in_bounds z → explored_at g z = true →
  count_mines_near g z = 0 → z ∉ pending → q ∈ block z →
  explored_at g q = true.
Proof.
  unfold flood_closed_but. rewrite Forall_forall. intros Hc Hz He Hn Hp Hq.
  specialize (Hc z (proj2 (elem_of_all_positions z) Hz) He Hn Hp).
  rewrite Forall_forall in Hc. by apply Hc.
Qed.

Lemma flood_closed_but_intro (pending : list Position) (g : MineGrid) :
  (∀ z q, in_bounds z → explored_at g z = true → count_mines_near g z = 0 →
          z ∉ pending → q ∈ block z → explored_at g q = true) →
  flood_closed_but pending g.
Proof.
  intros H. unfold flood_closed_but. apply Forall_forall.
  intros z Hz%elem_of_all_positions He Hn Hp. apply Forall_forall. eauto.
Qed.

Lemma marked_facts (g : MineGrid) (p : Position) (b b2 : MineButton) :
  grid_ok g → in_bounds p → position b = p → position b2 = p →
  let g1 := set_button p b2 (marked p b g) in
  grid_ok g1 ∧ mines g1 = mines g ∧ mines_flagged g1 = mines_flagged g
  ∧ current_cell g1 = current_cell g ∧ disabled g1 = disabled g
  ∧ posted g1 = posted g ∧ total_explored g1 = total_explored g + 1
  ∧ ∀ q, in_bounds q →
         button_at g1 q = if decide (q = p) then Some b2 else button_at g q.
Proof.
  intros Hok Hp Hb Hb2 g1.
  assert (grid_ok (marked p b g)) as Hok1.
  { unfold marked. by apply (grid_ok_set_button g p (with_explored true b)). }
  split; [by apply grid_ok_set_button|].
  subst g1. unfold marked.
  rewrite mines_set_button, mines_flagged_set_button, current_cell_set_button,
    disabled_set_button, posted_set_button, total_explored_set_button. simpl.
  rewrite mines_set_button, mines_flagged_set_button, current_cell_set_button,
    disabled_set_button, posted_set_button, total_explored_set_button.
  do 6 (split; [done|]).
  intros q Hq.
  rewrite button_at_set_button by (by try apply grid_ok_dims).
  case_decide; [done|].
  change (button_at (set_button p (with_explored true b) g) q = button_at g q).
  rewrite button_at_set_button by (by try apply grid_ok_dims).
  by rewrite decide_False.
Qed.

(** Putting a call together: [p] is marked, then a run of safe openings
    (the flood, or nothing) that leaves the block of [p] explored when
    [p] counts no mine. *)
Lemma open_cell_finish (g g2 : MineGrid) (p : Position) (b b2 : MineButton) :
  grid_ok g → in_bounds p → p ∉ mines g →
  button_at g p = Some b → explored b = false → position b = p →
  position b2 = p → explored b2 = true → flagged b2 = flagged b →
  can_focus b2 = can_focus b →
  opens_safely_but [p] (set_button p b2 (marked p b g)) g2 →
  (count_mines_near g p = 0 → ∀ q, q ∈ block p → explored_at g2 q = true) →
  opens_safely g g2.
Proof.
  intros Hok Hp Hnm Hb He Hpos Hpos2 He2 Hf2 Hc2 Hrun Hblock.
  destruct (marked_facts g p b b2 Hok Hp Hpos Hpos2)
    as (Hok1 & Hm1 & Hmf1 & Hcur1 & Hdis1 & Hpost1 & Htot1 & Hbtn1).
  set (g1 := set_button p b2 (marked p b g)) in *.
  assert (explored_at g p = false) as Hep by (unfold explored_at; by rewrite Hb).
  assert (∀ q, in_bounds q → q ≠ p → explored_at g1 q = explored_at g q) as Hsame.
  { intros q Hq Hne. unfold explored_at. rewrite Hbtn1 by done. by rewrite decide_False. }
  assert (explored_at g1 p = true) as Hep1.
  { unfold explored_at. rewrite Hbtn1 by done. by rewrite decide_True. }
  split.
  - apply Hrun.
  - by rewrite (os_mines _ _ _ Hrun).
  - by rewrite (os_mines_flagged _ _ _ Hrun).
  - by rewrite (os_current_cell _ _ _ Hrun).
  - by rewrite (os_disabled _ _ _ Hrun).
  - intros q Hq Heq. assert (q ≠ p) as Hne by (intros ->; congruence).
    rewrite (os_frame _ _ _ Hrun q Hq) by (rewrite Hsame; done).
    rewrite Hbtn1 by done. by rewrite decide_False.
  - intros q bq Hq Hbq. destruct (decide (q = p)) as [->|Hne].
    + destruct (os_flags _ _ _ Hrun p b2 Hp) as (b' & Hb' & Hf' & Hc').
      { rewrite Hbtn1 by done. by rewrite decide_True. }
      exists b'. split; [done|]. simplify_eq. split; congruence.
    + apply (os_flags _ _ _ Hrun q bq Hq).
      rewrite Hbtn1 by done. by rewrite decide_False.
  - intros q Hq Heq2 Heq. destruct (decide (q = p)) as [->|Hne]; [done|].
    rewrite <- Hm1. apply (os_no_mine _ _ _ Hrun q Hq Heq2).
    by rewrite Hsame.
  - assert (explored_set g1 = {[p]} ∪ explored_set g) as Hset.
    { apply set_eq. intros q.
      rewrite elem_of_union, elem_of_singleton, !elem_of_explored_set. split.
      - intros [Hq Heq]. destruct (decide (q = p)); [by left|right].
        split; [done|]. by rewrite <- Hsame.
      - intros [->|[Hq Heq]]; [done|]. split; [done|].
        rewrite Hsame; [done..|]. intros ->. congruence. }
    assert (size (explored_set g1) = S (size (explored_set g))) as Hsize.
    { rewrite Hset, size_union, size_singleton; [done|].
      apply disjoint_singleton_l. rewrite elem_of_explored_set.
      intros [_ ?]. congruence. }
    pose proof (os_total _ _ _ Hrun). lia.
  - destruct (os_posted _ _ _ Hrun) as (new & Hnew & Hwin & Hthr).
    exists new. by rewrite <- Hpost1.
  - intros pending _ Hclosed.
    assert (flood_closed_but (p :: pending) g1) as Hc1.
    { apply flood_closed_but_intro. intros z q Hz Hez Hnz Hzp Hq.
      apply not_elem_of_cons in Hzp as [Hzne Hzp].
      assert (in_bounds q) as Hqb by (by apply elem_of_block in Hq as [? _]).
      rewrite Hsame in Hez by done.
      rewrite (count_mines_near_mines g g1) in Hnz by done.
      pose proof (flood_closed_but_elim _ _ z q Hclosed Hz Hez Hnz Hzp Hq) as Heq.
      destruct (decide (q = p)) as [->|Hne]; [done|]. by rewrite Hsame. }
    apply (os_closed _ _ _ Hrun) in Hc1;
      [|intros x ->%list_elem_of_singleton; apply list_elem_of_here].
    apply flood_closed_but_intro. intros z q Hz Hez Hnz Hzp Hq.
    rewrite (count_mines_near_mines g g2) in Hnz
      by (by rewrite (os_mines _ _ _ Hrun)).
    destruct (decide (z = p)) as [->|Hzne]; [by apply Hblock|].
    apply (flood_closed_but_elim _ _ z q Hc1); try done.
    + rewrite (count_mines_near_mines g g2); [done|].
      by rewrite (os_mines _ _ _ Hrun).
    + by apply not_elem_of_cons.
Qed.

Lemma opens_safely_post (g g2 : MineGrid) :
  opens_safely g g2 →
  GRID_HEIGHT * GRID_WIDTH - MINES_AMOUNT ≤ total_explored g2 →
  opens_safely g (post_message (GameEnd true) g2).
Proof.
  intros H Hthr. split; try apply H.
  - destruct (os_posted _ _ _ H) as (new & Hnew & Hwin & _).
    exists (new ++ [GameEnd true]). simpl. rewrite Hnew, app_assoc.
    split; [done|]. split; [|done].
    apply Forall_app. split; [done|]. by constructor.
Qed.

Lemma new_messages_app (g g' : MineGrid) (new : list Message) :
  posted g' = posted g ++ new → new_messages g g' = new.
Proof. intros H. unfold new_messages. rewrite H. apply drop_app_length. Qed.

Lemma mines_marked (p : Position) (b : MineButton) (g : MineGrid) :
  mines (marked p b g) = mines g.
Proof. unfold marked. simpl. apply mines_set_button. Qed.

Lemma open_cell_explored (fuel : nat) (g : MineGrid) (p : Position) (b : MineButton) :
  button_at g p = Some b → explored b = true → open_cell (S fuel) g p = Some g.
Proof.
  intros Hb He. rewrite open_cell_S, Hb.
  change (Some b ≫= ?f) with (f b). cbv beta. by rewrite He.
Qed.

Lemma open_cell_unexplored (fuel : nat) (g : MineGrid) (p : Position) (b : MineButton) :
  button_at g p = Some b → explored b = false → position b = p → p ∉ mines g →
  open_cell (S fuel) g p =
  g2 ← (if decide (count_mines_near g p = 0) then
          flood_loop (open_cell fuel) p
            (set_button p (with_label CHAR_EMPTY (with_explored true b)) (marked p b g))
        else
          b2 ← MineButton.set_number (count_mines_near g p) (with_explored true b);
          Some (set_button p b2 (marked p b g)));
  if decide (total_explored g2 >= GRID_HEIGHT * GRID_WIDTH - MINES_AMOUNT)
  then Some (post_message (GameEnd true) g2)
  else Some g2.
Proof.
  intros Hb He Hpos Hnm. rewrite open_cell_S, Hb.
  change (Some b ≫= ?f) with (f b). cbv beta. rewrite He. cbv zeta.
  change (position (with_explored true b)) with (position b). rewrite Hpos.
  rewrite (count_mines_near_mines g (marked p b g)) by apply mines_marked.
  rewrite mines_marked. by rewrite decide_False by done.
Qed.

Lemma open_cell_mine (fuel : nat) (g : MineGrid) (p : Position) (b : MineButton) :
  button_at g p = Some b → explored b = false → position b = p → p ∈ mines g →
  open_cell (S fuel) g p =
  Some (post_message (GameEnd false)
          (set_button p (MineButton.explode (with_explored true b)) (marked p b g))).
Proof.
  intros Hb He Hpos Hm. rewrite open_cell_S, Hb.
  change (Some b ≫= ?f) with (f b). cbv beta. rewrite He. cbv zeta.
  change (position (with_explored true b)) with (position b). rewrite Hpos.
  rewrite mines_marked. by rewrite decide_True by done.
Qed.

(** What a call of [open_cell] on a cell without a mine does. *)
Lemma open_cell_safe (fuel : nat) (g : MineGrid) (p : Position) (g' : MineGrid) :
  grid_ok g → in_bounds p → p ∉ mines g →
  open_cell fuel g p = Some g' →
  opens_safely g g' ∧ explored_at g' p = true
  ∧ (explored_at g p = true → g' = g)
  ∧ (explored_at g p = false →
     GRID_HEIGHT * GRID_WIDTH - MINES_AMOUNT ≤ total_explored g' →
     GameEnd true ∈ new_messages g g')
  ∧ (explored_at g p = false → count_mines_near g p = 0 →
     ∀ q, q ∈ block p → explored_at g' q = true).
Proof.
  revert g p g'. induction fuel as [|fuel IH]; intros g p g' Hok Hp Hnm Hrun; [done|].
  destruct (button_at_ok g p Hok Hp) as (b & Hb & Hpos).
  assert (explored_at g p = explored b) as Hep by (unfold explored_at; by rewrite Hb).
  destruct (explored b) eqn:He.
  { rewrite (open_cell_explored _ _ _ b) in Hrun by done.
    simplify_eq. split; [by apply opens_safely_refl|].
    split_and!; try done; intros; congruence. }
  rewrite (open_cell_unexplored _ _ _ b) in Hrun by done.
  set (b1 := with_explored true b) in *.
  (* the state after the flood or after writing the number *)
  assert (∃ g2 b2, position b2 = p ∧ explored b2 = true ∧ flagged b2 = flagged b
             ∧ can_focus b2 = can_focus b
             ∧ opens_safely_but [p] (set_button p b2 (marked p b g)) g2
             ∧ (count_mines_near g p = 0 → ∀ q, q ∈ block p → explored_at g2 q = true)
             ∧ Some g' = if decide (total_explored g2
                                    >= GRID_HEIGHT * GRID_WIDTH - MINES_AMOUNT)
                         then Some (post_message (GameEnd true) g2) else Some g2)
    as (g2 & b2 & Hpos2 & He2 & Hf2 & Hc2 & Hsafe & Hblock & Hg').
  { destruct (decide (count_mines_near g p = 0)) as [Hzero|Hnz].
    - destruct (flood_loop _ _ _) as [g2|] eqn:Hloop; [|done].
      change (Some g2 ≫= ?f) with (f g2) in Hrun. cbv beta in Hrun.
      exists g2, (with_label CHAR_EMPTY b1). do 4 (split; [done|]).
      destruct (marked_facts g p b (with_label CHAR_EMPTY b1) Hok Hp Hpos Hpos)
        as (Hok1 & Hm1' & _).
      apply (flood_loop_rel (opens_safely_but [p])
               (λ q s, in_bounds q ∧ explored_at s q = true)) in Hloop.
      + destruct Hloop as [HR HQ]. split; [done|]. split; [|done].
        intros _ q Hq. by apply HQ.
      + by apply opens_safely_refl.
      + apply opens_safely_refl_target.
      + apply opens_safely_trans.
      + intros q s1 s2 [Hq HQ] HR. split; [done|].
        by eapply opens_safely_explored.
      + intros q s0 s1 Hq HR Hcall.
        pose proof Hq as (Hqb & _)%elem_of_block.
        destruct (IH s0 q s1) as (Hs & Heq & _); [apply HR|done| |done|].
        { rewrite (os_mines _ _ _ HR), Hm1'.
          by apply (count_zero_no_mine g p), block_square. }
        split; [by apply opens_safely_weaken|done].
    - destruct (MineButton.set_number _ b1) as [b2|] eqn:Hnum; [|done].
      change (Some b2 ≫= ?f) with (f b2) in Hrun. cbv beta in Hrun.
      change (Some ?x ≫= ?f) with (f x) in Hrun. cbv beta in Hrun.
      exists (set_button p b2 (marked p b g)), b2.
      unfold MineButton.set_number in Hnum.
      destruct (py_get NUMBER_COLORS _) as [c|]; [|done]. simpl in Hnum.
      injection Hnum as <-. do 4 (split; [done|]).
      destruct (marked_facts g p b (with_color c (with_label (Digit (count_mines_near g p)) b1))
                  Hok Hp Hpos Hpos) as (Hok1 & _).
      split; [by apply opens_safely_refl|]. by split. }
  assert (opens_safely g g2) as Hs by (by eapply open_cell_finish).
  assert (explored_at g2 p = true) as Hep2.
  { apply (opens_safely_explored _ _ _ p Hsafe Hp).
    destruct (marked_facts g p b b2 Hok Hp Hpos Hpos2) as (_ & _ & _ & _ & _ & _ & _ & Hbtn).
    unfold explored_at. rewrite Hbtn by done. by rewrite decide_True. }
  case_decide as Hthr; injection Hg' as ->.
  - split; [apply opens_safely_post; [done|lia]|].
    split; [exact Hep2|]. split; [intros; congruence|].
    split; [|intros _ Hz; exact (Hblock Hz)].
    intros _ _. destruct (os_posted _ _ _ Hs) as (new & Hnew & _).
    rewrite (new_messages_app g _ (new ++ [GameEnd true])).
    + apply elem_of_app. right. by left.
    + simpl. by rewrite Hnew, app_assoc.
  - split; [done|]. split; [done|]. split; [intros; congruence|].
    split; [|intros _ Hz; exact (Hblock Hz)].
    intros _ ?. lia.
Qed.

(** ** More fuel changes nothing *)

Lemma for_each_mono {S A} (body1 body2 : S → A → option S) (l : list A) (s s' : S) :
  (∀ s0 x s1, body1 s0 x = Some s1 → body2 s0 x = Some s1) →
  for_each l body1 s = Some s' → for_each l body2 s = Some s'.
Proof.
  intros Hbody. revert s. induction l as [|x l IH]; intros s Hrun; simpl in *; [done|].
  destruct (body1 s x) as [s1|] eqn:Hx; [|done].
  rewrite (Hbody s x s1 Hx). by apply IH.
Qed.

(** A call that returns with some fuel returns the same state with more. *)
Lemma open_cell_fuel_mono (fuel fuel' : nat) (g : MineGrid) (p : Position) (g' : MineGrid) :
  (fuel ≤ fuel')%nat →
  open_cell fuel g p = Some g' → open_cell fuel' g p = Some g'.
Proof.
  revert fuel' g p g'. induction fuel as [|fuel IH]; intros fuel' g p g' Hle Hrun; [done|].
  destruct fuel' as [|fuel']; [lia|].
  rewrite open_cell_S in Hrun |- *.
  destruct (button_at g p) as [b|]; [|done].
  change (Some b ≫= ?f) with (f b) in *. cbv beta in *.
  destruct (explored b); [done|]. cbv zeta in *.
  case_decide; [done|].
  case_decide.
  - destruct (flood_loop (open_cell fuel) _ _) as [g2|] eqn:Hloop; [|done].
    assert (flood_loop (open_cell fuel') (position (with_explored true b))
              (set_button p (with_label CHAR_EMPTY (with_explored true b)) (marked p b g))
            = Some g2) as ->; [|done].
    unfold flood_loop in *.
    eapply for_each_mono; [|exact Hloop].
    intros s0 i s1 Hinner. eapply for_each_mono; [|exact Hinner].
    intros s2 j s3 Hcall. apply IH; [lia|done].
  - done.
Qed.

(** ** Termination *)

Lemma explored_set_marked (g : MineGrid) (p : Position) (b b2 : MineButton) :
  grid_ok g → in_bounds p → button_at g p = Some b → explored b = false →
  position b = p → position b2 = p → explored b2 = true →
  size (explored_set (set_button p b2 (marked p b g))) = S (size (explored_set g)).
Proof.
  intros Hok Hp Hb He Hpos Hpos2 He2.
  destruct (marked_facts g p b b2 Hok Hp Hpos Hpos2) as (_ & _ & _ & _ & _ & _ & _ & Hbtn).
  set (g1 := set_button p b2 (marked p b g)) in *.
  assert (explored_set g1 = {[p]} ∪ explored_set g) as ->.
  { apply set_eq. intros q.
    rewrite elem_of_union, elem_of_singleton, !elem_of_explored_set.
    unfold explored_at. split.
    - intros [Hq Heq]. rewrite Hbtn in Heq by done. case_decide; auto.
    - intros [->|[Hq Heq]]; (split; [done|]); rewrite Hbtn by done.
      + by rewrite decide_True.
      + case_decide; [done|done]. }
  rewrite size_union, size_singleton; [done|].
  apply disjoint_singleton_l. rewrite elem_of_explored_set.
  unfold explored_at. rewrite Hb. simpl. intros [_ ?]. congruence.
Qed.

Lemma set_number_is_Some (value : Z) (b : MineButton) :
  0 ≤ value ≤ 9 → is_Some (MineButton.set_number value b).
Proof.
  intros Hv. unfold MineButton.set_number.
  rewrite py_get_front by (simpl; lia).
  destruct (lookup_lt_is_Some_2 NUMBER_COLORS (Z.to_nat value)) as [c ->];
    [simpl; lia|]. by eexists.
Qed.

(** A call on a cell without a mine returns when the fuel exceeds the
    number of cells not yet explored. *)
Lemma open_cell_safe_total (fuel : nat) (g : MineGrid) (p : Position) :
  grid_ok g → in_bounds p → p ∉ mines g →
  (size board < size (explored_set g) + fuel)%nat →
  is_Some (open_cell fuel g p).
Proof.
  revert g p. induction fuel as [|fuel IH]; intros g p Hok Hp Hnm Hfuel.
  { pose proof (subseteq_size _ _ (explored_set_board g)). lia. }
  destruct (button_at_ok g p Hok Hp) as (b & Hb & Hpos).
  destruct (explored b) eqn:He.
  { rewrite (open_cell_explored _ _ _ b) by done. by eexists. }
  rewrite (open_cell_unexplored _ _ _ b) by done.
  set (b1 := with_explored true b).
  assert (∃ g2, (if decide (count_mines_near g p = 0) then
            flood_loop (open_cell fuel) p
              (set_button p (with_label CHAR_EMPTY b1) (marked p b g))
          else
            b2 ← MineButton.set_number (count_mines_near g p) b1;
            Some (set_button p b2 (marked p b g))) = Some g2) as [g2 ->].
  { case_decide as Hzero.
    - destruct (marked_facts g p b (with_label CHAR_EMPTY b1) Hok Hp Hpos Hpos)
        as (Hok1 & Hm1 & _).
      pose proof (explored_set_marked g p b (with_label CHAR_EMPTY b1)
                    Hok Hp Hb He Hpos Hpos eq_refl) as Hsize.
      destruct (flood_loop_total (opens_safely_but [p]) (open_cell fuel) p
                  (set_button p (with_label CHAR_EMPTY b1) (marked p b g)))
        as (g2 & Hloop & _); [by apply opens_safely_refl
                             |apply opens_safely_refl_target
                             |apply opens_safely_trans| |by exists g2].
      intros q s0 Hq HR. pose proof Hq as (Hqb & _)%elem_of_block.
      assert (q ∉ mines s0) as Hqm.
      { rewrite (os_mines _ _ _ HR), Hm1.
        by apply (count_zero_no_mine g p), block_square. }
      destruct (IH s0 q) as [s1 Hs1]; [apply HR|done|done| |].
      { pose proof (subseteq_size _ _ (opens_safely_subseteq _ _ _ HR)). lia. }
      exists s1. split; [done|].
      apply opens_safely_weaken.
      by apply (open_cell_safe fuel s0 q s1 (os_ok _ _ _ HR)).
    - destruct (set_number_is_Some (count_mines_near g p) b1) as [b2 ->];
        [apply count_mines_near_bounds|]. by eexists. }
  change (Some g2 ≫= ?f) with (f g2). cbv beta. case_decide; by eexists.
Qed.

Lemma open_cell_mine_total (fuel : nat) (g : MineGrid) (p : Position) :
  grid_ok g → in_bounds p → p ∈ mines g → is_Some (open_cell (S fuel) g p).
Proof.
  intros Hok Hp Hm. destruct (button_at_ok g p Hok Hp) as (b & Hb & Hpos).
  destruct (explored b) eqn:He.
  - rewrite (open_cell_explored _ _ _ b) by done. by eexists.
  - rewrite (open_cell_mine _ _ _ b) by done. by eexists.
Qed.

(** [open_cell] returns on every button of the grid. *)
Lemma open_cell_terminates (g : MineGrid) (p : Position) :
  grid_ok g → in_bounds p → is_Some (open_cell enough_fuel g p).
Proof.
  intros Hok Hp. unfold enough_fuel. destruct (decide (p ∈ mines g)).
  - by apply open_cell_mine_total.
  - apply open_cell_safe_total; [done..|]. rewrite size_board. lia.
Qed.

(** ** Focus, flags and selections *)

Lemma with_can_focus_same (b : MineButton) : with_can_focus (can_focus b) b = b.
Proof. by destruct b. Qed.

Lemma focus_moved_refl (g : MineGrid) : grid_ok g → focus_moved g g.
Proof.
  intros Hok. do 6 (split; [done|]). intros q b _ Hb.
  exists (can_focus b). by rewrite with_can_focus_same.
Qed.

Lemma focus_moved_explored_at (g g' : MineGrid) (q : Position) :
  focus_moved g g' → grid_ok g → in_bounds q → explored_at g' q = explored_at g q.
Proof.
  intros (_ & _ & _ & _ & _ & _ & Hbtn) Hok Hq.
  destruct (button_at_ok g q Hok Hq) as (b & Hb & _).
  destruct (Hbtn q b Hq Hb) as (c & Hb').
  unfold explored_at. by rewrite Hb, Hb'.
Qed.

Lemma focus_moved_flagged_at (g g' : MineGrid) (q : Position) :
  focus_moved g g' → grid_ok g → in_bounds q → flagged_at g' q = flagged_at g q.
Proof.
  intros (_ & _ & _ & _ & _ & _ & Hbtn) Hok Hq.
  destruct (button_at_ok g q Hok Hq) as (b & Hb & _).
  destruct (Hbtn q b Hq Hb) as (c & Hb').
  unfold flagged_at. by rewrite Hb, Hb'.
Qed.

Lemma focus_moved_label_at (g g' : MineGrid) (q : Position) :
  focus_moved g g' → grid_ok g → in_bounds q → label_at g' q = label_at g q.
Proof.
  intros (_ & _ & _ & _ & _ & _ & Hbtn) Hok Hq.
  destruct (button_at_ok g q Hok Hq) as (b & Hb & _).
  destruct (Hbtn q b Hq Hb) as (c & Hb').
  unfold label_at. by rewrite Hb, Hb'.
Qed.

Lemma focus_moved_explored_set (g g' : MineGrid) :
  focus_moved g g' → grid_ok g → explored_set g' = explored_set g.
Proof.
  intros Hf Hok. apply set_eq. intros q. rewrite !elem_of_explored_set.
  split; intros [Hq He]; (split; [done|]).
  - by rewrite <- (focus_moved_explored_at g g').
  - by rewrite (focus_moved_explored_at g g').
Qed.

Lemma grid_ok_with_current_cell (g : MineGrid) (value : Position) :
  grid_ok g → in_bounds value → grid_ok (with_current_cell value g).
Proof.
  intros (Hlen & Hrows & Hpos & _) Hv. do 3 (split; [done|]).
  simpl. by apply elem_of_all_positions.
Qed.

Lemma grid_ok_current_cell (g : MineGrid) : grid_ok g → in_bounds (current_cell g).
Proof. intros (_ & _ & _ & Hcur). by apply elem_of_all_positions. Qed.

Lemma set_current_cell_spec (g : MineGrid) (value : Position) :
  grid_ok g → in_bounds value →
  ∃ g', set_current_cell g value = Some g' ∧ focus_moved g g'
        ∧ current_cell g' = value.
Proof.
  intros Hok Hv. pose proof (grid_ok_current_cell g Hok) as Hcur.
  unfold set_current_cell.
  destruct (button_at_ok g (current_cell g) Hok Hcur) as (old & Hold & Hpold).
  rewrite Hold. change (Some old ≫= ?f) with (f old). cbv beta zeta.
  set (g1 := set_button (current_cell g) (with_can_focus false old) g).
  assert (grid_ok g1) as Hok1 by (by apply grid_ok_set_button).
  set (g2 := with_current_cell value g1).
  assert (grid_ok g2) as Hok2 by (by apply grid_ok_with_current_cell).
  change (current_cell g2) with value.
  destruct (button_at_ok g2 value Hok2 Hv) as (new & Hnew & Hpnew).
  rewrite Hnew. change (Some new ≫= ?f) with (f new). cbv beta.
  eexists. split; [done|]. split; [|by rewrite current_cell_set_button].
  split; [by apply grid_ok_set_button|].
  rewrite mines_set_button, total_explored_set_button, mines_flagged_set_button,
    disabled_set_button, posted_set_button. simpl. unfold g1.
  rewrite mines_set_button, total_explored_set_button, mines_flagged_set_button,
    disabled_set_button, posted_set_button.
  do 5 (split; [done|]).
  intros q b Hq Hb.
  rewrite button_at_set_button by (by try apply grid_ok_dims).
  assert (button_at g2 q = if decide (q = current_cell g)
                           then Some (with_can_focus false old) else Some b) as Hq2.
  { change (button_at g2 q) with (button_at g1 q). unfold g1.
    rewrite button_at_set_button by (by try apply grid_ok_dims).
    by case_decide. }
  destruct (decide (q = value)) as [->|Hqv].
  - rewrite Hq2 in Hnew. case_decide; simplify_eq; by eexists.
  - rewrite Hq2. case_decide; simplify_eq; [by eexists|].
    exists (can_focus b). by rewrite with_can_focus_same.
Qed.

Lemma flag_cell_spec (g : MineGrid) (p : Position) (b : MineButton) :
  button_at g p = Some b →
  flag_cell g p
  = Some (set_button p (MineButton.toggle_flagged b)
            (with_mines_flagged
               (mines_flagged g + (if negb (flagged b) then 1 else -1)) g)).
Proof. intros Hb. unfold flag_cell. by rewrite Hb. Qed.

(** [handle_selected] moves the focus to the selected button and then
    opens it, flags it, or does nothing. *)
Lemma handle_selected_spec (g : MineGrid) (p : Position) (action : SelectAction) :
  grid_ok g → in_bounds p →
  ∃ g0 b0, focus_moved g g0 ∧ current_cell g0 = p ∧ button_at g0 p = Some b0
    ∧ handle_selected g p action
      = if decide (action = OPEN ∧ flagged b0 = false) then open_cell enough_fuel g0 p
        else if decide (action = FLAG ∧ explored b0 = false) then flag_cell g0 p
        else Some g0.
Proof.
  intros Hok Hp. unfold handle_selected.
  destruct (button_at_ok g p Hok Hp) as (b & Hb & Hpos).
  rewrite Hb. change (Some b ≫= ?f) with (f b). cbv beta. rewrite Hpos.
  assert (∃ g0, (if decide (p ≠ current_cell g) then set_current_cell g p else Some g)
                = Some g0 ∧ focus_moved g g0 ∧ current_cell g0 = p)
    as (g0 & -> & Hfocus & Hcur).
  { case_decide as Hne.
    - by apply set_current_cell_spec.
    - exists g. split; [done|]. split; [by apply focus_moved_refl|].
      by destruct (decide (p = current_cell g)). }
  change (Some g0 ≫= ?f) with (f g0). cbv beta.
  destruct (button_at_ok g0 p (proj1 Hfocus) Hp) as (b0 & Hb0 & _).
  exists g0, b0. rewrite Hb0. done.
Qed.

(** ** The calls that [open_cell] makes *)

Lemma for_each_fst {S T A} (body : S → A → option S)
    (body2 : S * T → A → option (S * T)) (l : list A) (s : S * T) :
  (∀ s x, fst <$> body2 s x = body s.1 x) →
  fst <$> for_each l body2 s = for_each l body s.1.
Proof.
  intros Hbody. revert s. induction l as [|x l IH]; intros s; simpl; [done|].
  specialize (Hbody s x).
  destruct (body2 s x) as [s1|]; simpl in Hbody; rewrite <- Hbody; [apply IH|done].
Qed.

(** The logged [open_cell] computes the state that [open_cell] computes. *)
Lemma open_cell_calls_state (fuel : nat) (g : MineGrid) (p : Position) :
  fst <$> open_cell_calls fuel g p = open_cell fuel g p.
Proof.
  revert g p. induction fuel as [|fuel IH]; intros g p; [done|]. simpl.
  destruct (button_at g p) as [b|]; [|done]. simpl.
  destruct (explored b); [done|].
  case_decide; [done|].
  case_decide.
  - match goal with
    | |- fst <$> (for_each ?l ?b2 ?s ≫= _) = for_each ?l ?b1 ?s1 ≫= _ =>
        pose proof (for_each_fst b1 b2 l s) as Hloop
    end.
    simpl in Hloop. rewrite <- Hloop.
    + destruct (for_each _ _ _) as [[g2 t2]|]; [|done]. simpl. by case_decide.
    + intros [g0 t0] i. simpl.
      match goal with
      | |- fst <$> for_each ?l ?b2 ?s = for_each ?l ?b1 ?s1 =>
          apply (for_each_fst b1 b2 l s)
      end.
      intros [g1 t1] j. simpl. rewrite <- IH.
      by destruct (open_cell_calls fuel g1 _) as [[??]|].
  - destruct (MineButton.set_number _ _); [|done]. simpl. by case_decide.
Qed.

Lemma for_each_cost {S A} (R : S → S → Prop) (c : S → Z) (k : Z)
    (body : S → A → option S) (l : list A) (s s' : S) :
  R s s →
  (∀ s1 s2, R s1 s2 → R s2 s2) →
  (∀ s1 s2 s3, R s1 s2 → R s2 s3 → R s1 s3) →
  (∀ x s0 s1, x ∈ l → R s s0 → body s0 x = Some s1 → R s0 s1 ∧ c s1 ≤ c s0 + k) →
  for_each l body s = Some s' →
  R s s' ∧ c s' ≤ c s + k * Z.of_nat (length l).
Proof.
  intros Hstart Hrefl Htrans.
  revert s Hstart. induction l as [|x l IH]; intros s Hstart Hbody Hrun; simpl in Hrun.
  - simplify_eq. split; [done|]. simpl. lia.
  - destruct (body s x) as [s1|] eqn:Hx; [|done].
    destruct (Hbody x s s1) as [HR Hc]; [apply list_elem_of_here|done|done|].
    destruct (IH s1) as [HR' Hc']; [by eapply Hrefl| |done|].
    { intros y s0 s2 Hy HR0 Hy0. apply (Hbody y); [by apply list_elem_of_further|by eapply Htrans|done]. }
    split; [by eapply Htrans|]. rewrite length_cons. lia.
Qed.

Lemma revealed_app (l k : list (Position * bool)) :
  revealed (l ++ k) = revealed l ++ revealed k.
Proof. unfold revealed. by rewrite filter_app, fmap_app. Qed.

Lemma logs_safely_refl (running : list Position) (s : MineGrid * list (Position * bool)) :
  grid_ok s.1 → logs_safely_but running s s.
Proof.
  intros Hok. split; [by apply opens_safely_refl|].
  exists []. rewrite app_nil_r. split; [done|]. split; [constructor|].
  intros q Hq. by apply elem_of_nil in Hq.
Qed.

Lemma logs_safely_refl_target (running : list Position)
    (s s' : MineGrid * list (Position * bool)) :
  logs_safely_but running s s' → logs_safely_but running s' s'.
Proof. intros [H _]. apply logs_safely_refl, H. Qed.

Lemma logs_safely_trans (running : list Position)
    (s1 s2 s3 : MineGrid * list (Position * bool)) :
  logs_safely_but running s1 s2 → logs_safely_but running s2 s3 →
  logs_safely_but running s1 s3.
Proof.
  intros [H12 (e1 & Ht1 & Hnd1 & Hr1)] [H23 (e2 & Ht2 & Hnd2 & Hr2)].
  split; [by eapply opens_safely_trans|].
  exists (e1 ++ e2). split; [by rewrite Ht2, Ht1, app_assoc|].
  rewrite revealed_app. split.
  - apply NoDup_app. split; [done|]. split; [|done].
    intros q Hq1 Hq2.
    destruct (Hr1 q Hq1) as (_ & _ & He). destruct (Hr2 q Hq2) as (_ & He' & _).
    congruence.
  - intros q [Hq|Hq]%elem_of_app.
    + destruct (Hr1 q Hq) as (Hb & He1 & He2). split; [done|]. split; [done|].
      by eapply opens_safely_explored.
    + destruct (Hr2 q Hq) as (Hb & He2 & He3). split; [done|]. split; [|done].
      destruct (explored_at s1.1 q) eqn:He1; [|done].
      rewrite (opens_safely_explored _ _ _ q H12 Hb He1) in He2. done.
Qed.

Lemma open_cell_calls_explored (fuel : nat) (g : MineGrid) (p : Position) (b : MineButton) :
  button_at g p = Some b → explored b = true →
  open_cell_calls (S fuel) g p = Some (g, [(p, false)]).
Proof. intros Hb He. simpl. rewrite Hb. simpl. by rewrite He. Qed.

Lemma open_cell_calls_mine (fuel : nat) (g : MineGrid) (p : Position) (b : MineButton) :
  button_at g p = Some b → explored b = false → position b = p → p ∈ mines g →
  open_cell_calls (S fuel) g p =
  Some (post_message (GameEnd false)
          (set_button p (MineButton.explode (with_explored true b)) (marked p b g)),
        [(p, true)]).
Proof.
  intros Hb He Hpos Hm.
  change (open_cell_calls (S fuel) g p) with
    (button ← button_at g p;
     if explored button then Some (g, [(p, false)])
     else
       if decide (position (with_explored true button) ∈ mines (marked p button g)) then
         Some (post_message (GameEnd false)
                 (set_button p (MineButton.explode (with_explored true button))
                    (marked p button g)), [(p, true)])
       else
         gl ← (if decide (count_mines_near (marked p button g)
                            (position (with_explored true button)) = 0) then
                 flood_loop_calls (open_cell_calls fuel)
                   (position (with_explored true button))
                   (set_button p (with_label CHAR_EMPTY (with_explored true button))
                      (marked p button g), [(p, true)])
               else
                 b2 ← MineButton.set_number
                        (count_mines_near (marked p button g)
                           (position (with_explored true button)))
                        (with_explored true button);
                 Some (set_button p b2 (marked p button g), [(p, true)]));
         if decide (total_explored gl.1 >= GRID_HEIGHT * GRID_WIDTH - MINES_AMOUNT)
         then Some (post_message (GameEnd true) gl.1, gl.2)
         else Some gl).
  rewrite Hb. change (Some b ≫= ?f) with (f b). cbv beta. rewrite He.
  change (position (with_explored true b)) with (position b). rewrite Hpos.
  rewrite mines_marked. by rewrite decide_True by done.
Qed.

Lemma open_cell_calls_unexplored (fuel : nat) (g : MineGrid) (p : Position) (b : MineButton) :
  button_at g p = Some b → explored b = false → position b = p → p ∉ mines g →
  open_cell_calls (S fuel) g p =
  gl ← (if decide (count_mines_near g p = 0) then
          flood_loop_calls (open_cell_calls fuel) p
            (set_button p (with_label CHAR_EMPTY (with_explored true b)) (marked p b g),
             [(p, true)])
        else
          b2 ← MineButton.set_number (count_mines_near g p) (with_explored true b);
          Some (set_button p b2 (marked p b g), [(p, true)]));
  if decide (total_explored gl.1 >= GRID_HEIGHT * GRID_WIDTH - MINES_AMOUNT)
  then Some (post_message (GameEnd true) gl.1, gl.2)
  else Some gl.
Proof.
  intros Hb He Hpos Hnm.
  change (open_cell_calls (S fuel) g p) with
    (button ← button_at g p;
     if explored button then Some (g, [(p, false)])
     else
       if decide (position (with_explored true button) ∈ mines (marked p button g)) then
         Some (post_message (GameEnd false)
                 (set_button p (MineButton.explode (with_explored true button))
                    (marked p button g)), [(p, true)])
       else
         gl ← (if decide (count_mines_near (marked p button g)
                            (position (with_explored true button)) = 0) then
                 flood_loop_calls (open_cell_calls fuel)
                   (position (with_explored true button))
                   (set_button p (with_label CHAR_EMPTY (with_explored true button))
                      (marked p button g), [(p, true)])
               else
                 b2 ← MineButton.set_number
                        (count_mines_near (marked p button g)
                           (position (with_explored true button)))
                        (with_explored true button);
                 Some (set_button p b2 (marked p button g), [(p, true)]));
         if decide (total_explored gl.1 >= GRID_HEIGHT * GRID_WIDTH - MINES_AMOUNT)
         then Some (post_message (GameEnd true) gl.1, gl.2)
         else Some gl).
  rewrite Hb. change (Some b ≫= ?f) with (f b). cbv beta. rewrite He.
  change (position (with_explored true b)) with (position b). rewrite Hpos.
  rewrite (count_mines_near_mines g (marked p b g)) by apply mines_marked.
  rewrite mines_marked. by rewrite decide_False by done.
Qed.

Lemma revealed_cons_true (p : Position) (l : list (Position * bool)) :
  revealed ((p, true) :: l) = p :: revealed l.
Proof. unfold revealed. by rewrite filter_cons_True. Qed.

Lemma revealed_cons_false (p : Position) (l : list (Position * bool)) :
  revealed ((p, false) :: l) = revealed l.
Proof. unfold revealed. by rewrite filter_cons_False. Qed.

Lemma length_range_clipped (lo hi x : Z) :
  (length (range (lo `max` (x - 1)) (hi `min` (x + 1 + 1))) ≤ 3)%nat.
Proof. unfold range. rewrite length_seqZ. lia. Qed.

(** What the log of a call on a cell without a mine shows. *)
Lemma open_cell_calls_safe (fuel : nat) (g : MineGrid) (p : Position)
    (g' : MineGrid) (calls : list (Position * bool)) :
  grid_ok g → in_bounds p → p ∉ mines g →
  open_cell_calls fuel g p = Some (g', calls) →
  NoDup (revealed calls)
  ∧ (∀ q, q ∈ revealed calls →
          in_bounds q ∧ explored_at g q = false ∧ explored_at g' q = true)
  ∧ Z.of_nat (length calls) ≤ 1 + 9 * Z.of_nat (length (revealed calls)).
Proof.
  revert g p g' calls.
  induction fuel as [|fuel IH]; intros g p g' calls Hok Hp Hnm Hrun; [done|].
  destruct (button_at_ok g p Hok Hp) as (b & Hb & Hpos).
  assert (explored_at g p = explored b) as Hep by (unfold explored_at; by rewrite Hb).
  destruct (explored b) eqn:He.
  { rewrite (open_cell_calls_explored _ _ _ b) in Hrun by done. simplify_eq.
    rewrite revealed_cons_false. split; [constructor|]. split; [|simpl; lia].
    intros q Hq. by apply elem_of_nil in Hq. }
  rewrite (open_cell_calls_unexplored _ _ _ b) in Hrun by done.
  set (b1 := with_explored true b) in *.
  assert (∃ g2 b2 ext, position b2 = p ∧ explored b2 = true
             ∧ logs_safely_but [p] (set_button p b2 (marked p b g), [(p, true)])
                               (g2, (p, true) :: ext)
             ∧ call_excess (g2, (p, true) :: ext) ≤ 1
             ∧ calls = (p, true) :: ext
             ∧ ∀ q, explored_at g' q = explored_at g2 q)
    as (g2 & b2 & ext & Hpos2 & He2 & Hlog & Hexc & -> & Hg').
  { destruct (decide (count_mines_near g p = 0)) as [Hzero|Hnz].
    - destruct (flood_loop_calls _ _ _) as [[g2 t2]|] eqn:Hloop; [|done].
      change (Some (g2, t2) ≫= ?f) with (f (g2, t2)) in Hrun. cbv beta in Hrun.
      destruct (marked_facts g p b (with_label CHAR_EMPTY b1) Hok Hp Hpos Hpos)
        as (Hok1 & Hm1 & _).
      unfold flood_loop_calls in Hloop.
      apply (for_each_cost (logs_safely_but [p]) call_excess 3) in Hloop;
        [|by apply logs_safely_refl|apply logs_safely_refl_target
         |apply logs_safely_trans|].
      + destruct Hloop as [HR Hc].
        pose proof HR as [_ (ext & Hext & _)]. cbn [fst snd] in Hext. subst t2.
        change ([(p, true)] ++ ext) with ((p, true) :: ext) in *.
        exists g2, (with_label CHAR_EMPTY b1), ext. do 2 (split; [done|]).
        split; [done|]. split.
        { pose proof (length_range_clipped 0 GRID_HEIGHT (row p)).
          assert (call_excess (set_button p (with_label CHAR_EMPTY b1) (marked p b g),
                               [(p, true)]) = -8) as Hstart.
          { unfold call_excess. cbn [fst snd]. rewrite revealed_cons_true.
            change (revealed []) with (@nil Position). rewrite !length_cons.
            simpl length. lia. }
          lia. }
        cbn [fst snd] in Hrun. case_decide; injection Hrun as <- <-; done.
      + intros i s0 s1 Hi HR0 Hinner.
        apply (for_each_cost (logs_safely_but [p]) call_excess 1) in Hinner;
          [|by eapply logs_safely_refl_target|apply logs_safely_refl_target
           |apply logs_safely_trans|].
        * destruct Hinner as [HR Hc]. split; [done|].
          pose proof (length_range_clipped 0 GRID_WIDTH (col p)). lia.
        * intros j [g3 t3] s4 Hj HR3 Hcall. simpl in Hcall.
          destruct (open_cell_calls fuel g3 (Pos i j)) as [[g4 t4]|] eqn:Hq; [|done].
          simpl in Hcall. injection Hcall as <-.
          assert (logs_safely_but [p]
                    (set_button p (with_label CHAR_EMPTY b1) (marked p b g), [(p, true)])
                    (g3, t3)) as HR by (by eapply logs_safely_trans).
          destruct HR as [HRg _]. simpl in HRg.
          assert (in_bounds (Pos i j)) as Hqb.
          { apply elem_of_range in Hi. apply elem_of_range in Hj.
            split; simpl; lia. }
          assert (Pos i j ∉ mines g3) as Hqm.
          { rewrite (os_mines _ _ _ HRg), Hm1.
            apply (count_zero_no_mine g p); [done|]. apply elem_of_square.
            apply elem_of_range in Hi. apply elem_of_range in Hj. simpl. lia. }
          destruct (IH g3 (Pos i j) g4 t4 (os_ok _ _ _ HRg) Hqb Hqm Hq)
            as (Hnd & Hrev & Hlen).
          assert (open_cell fuel g3 (Pos i j) = Some g4) as Hq'.
          { rewrite <- open_cell_calls_state, Hq. done. }
          destruct (open_cell_safe fuel g3 (Pos i j) g4 (os_ok _ _ _ HRg) Hqb Hqm Hq')
            as (Hs & _).
          split.
          -- split; [by apply opens_safely_weaken|]. by exists t4.
          -- unfold call_excess. cbn [fst snd].
             rewrite revealed_app, !length_app. lia.
    - destruct (MineButton.set_number _ b1) as [b2|] eqn:Hnum; [|done].
      change (Some b2 ≫= ?f) with (f b2) in Hrun. cbv beta in Hrun.
      change (Some ?x ≫= ?f) with (f x) in Hrun. cbv beta in Hrun.
      unfold MineButton.set_number in Hnum.
      destruct (py_get NUMBER_COLORS _) as [c|]; [|done]. simpl in Hnum.
      injection Hnum as <-.
      set (b2 := with_color c (with_label (Digit (count_mines_near g p)) b1)) in *.
      exists (set_button p b2 (marked p b g)), b2, [].
      do 2 (split; [done|]).
      destruct (marked_facts g p b b2 Hok Hp Hpos Hpos) as (Hok1 & _).
      split; [by apply logs_safely_refl|]. split.
      { unfold call_excess. cbn [fst snd]. rewrite revealed_cons_true.
        change (revealed []) with (@nil Position). rewrite !length_cons.
        simpl length. lia. }
      cbn [fst snd] in Hrun. case_decide; injection Hrun as <- <-; done. }
  destruct Hlog as [Hs (ext' & Hext & Hnd & Hrev)]. simpl in Hs, Hext, Hrev.
  injection Hext as <-.
  destruct (marked_facts g p b b2 Hok Hp Hpos Hpos2) as (_ & _ & _ & _ & _ & _ & _ & Hbtn).
  assert (explored_at (set_button p b2 (marked p b g)) p = true) as Hp1.
  { unfold explored_at. rewrite Hbtn by done. by rewrite decide_True. }
  rewrite revealed_cons_true. split; [|split].
  - constructor; [|done]. intros Hin. destruct (Hrev p Hin) as (_ & ? & _). congruence.
  - intros q [->|Hq]%elem_of_cons.
    + split; [done|]. split; [congruence|]. rewrite Hg'.
      by apply (opens_safely_explored _ _ _ p Hs).
    + destruct (Hrev q Hq) as (Hqb & Hq1 & Hq2). split; [done|].
      rewrite Hg'. split; [|done].
      unfold explored_at in Hq1 |- *. rewrite Hbtn in Hq1 by done.
      case_decide; [|done]. simpl in Hq1. congruence.
  - unfold call_excess in Hexc. cbn [fst snd] in Hexc.
    rewrite revealed_cons_true in Hexc. lia.
Qed.

(** ** Mine generation and adjacency *)

Lemma mines_ok_in_bounds (g : MineGrid) (m : Position) :
  mines_ok g → m ∈ mines g → in_bounds m.
Proof.
  unfold mines_ok. rewrite Forall_forall. intros Hok Hm.
  apply elem_of_all_positions, Hok. by apply elem_of_elements.
Qed.

Lemma generate_mines_spec (sample : list Z) :
  random_sample (range 0 (GRID_HEIGHT * GRID_WIDTH)) MINES_AMOUNT sample →
  Z.of_nat (size (generate_mines sample)) = MINES_AMOUNT
  ∧ ∀ m, m ∈ generate_mines sample → in_bounds m.
Proof.
  intros (Hnd & Hlen & Hsub). unfold generate_mines. split.
  - rewrite size_list_to_set, length_fmap; [done|].
    apply NoDup_index_positions; [done|].
    apply Forall_forall. intros x Hx%Hsub%elem_of_range. lia.
  - intros m (x & -> & Hx%Hsub)%elem_of_list_to_set%list_elem_of_fmap.
    apply elem_of_all_positions. unfold all_positions.
    apply list_elem_of_fmap. by exists x.
Qed.

Lemma random_sample_exists :
  0 ≤ MINES_AMOUNT ≤ GRID_HEIGHT * GRID_WIDTH →
  random_sample (range 0 (GRID_HEIGHT * GRID_WIDTH)) MINES_AMOUNT (range 0 MINES_AMOUNT).
Proof.
  intros HM. split; [apply NoDup_seqZ|]. split.
  - unfold range. rewrite length_seqZ. lia.
  - intros x Hx%elem_of_range. apply elem_of_range. lia.
Qed.

(** [count_mines_near] counts the mines among the neighbours and the cell
    itself. *)
Lemma count_mines_near_spec (g : MineGrid) (pos : Position) :
  mines_ok g → in_bounds pos →
  count_mines_near g pos
  = adjacent_mine_count (mines g) pos + (if decide (pos ∈ mines g) then 1 else 0).
Proof.
  intros Hmines Hpos. rewrite count_mines_near_square. unfold adjacent_mine_count.
  set (near := filter (λ q, q ∈ mines g) (square pos)).
  set (adj := filter (λ q, q ∈ mines g) (neighbours pos)).
  assert (NoDup near) as Hnd1 by apply NoDup_filter, NoDup_square.
  assert (NoDup adj) as Hnd2
    by (apply NoDup_filter; unfold neighbours; apply NoDup_filter, NoDup_block).
  rewrite <- (size_list_to_set (C:=gset Position) near) by done.
  rewrite <- (size_list_to_set (C:=gset Position) adj) by done.
  assert (list_to_set near
          = list_to_set adj ∪ (if decide (pos ∈ mines g) then {[pos]} else ∅ : gset Position))
    as ->.
  { apply set_eq. intros q. unfold near, adj.
    rewrite elem_of_union, !elem_of_list_to_set, !list_elem_of_filter,
      elem_of_neighbours, elem_of_block, elem_of_square.
    split.
    - intros [Hm Hsq]. destruct (decide (q = pos)) as [->|Hne].
      + right. rewrite decide_True by done. by apply elem_of_singleton.
      + left. pose proof (mines_ok_in_bounds g q Hmines Hm). tauto.
    - intros [(Hm & (Hb & Hsq) & Hne)|Hq]; [done|].
      case_decide; [|by apply elem_of_empty in Hq].
      apply elem_of_singleton in Hq as ->. split; [done|]. lia. }
  rewrite size_union.
  - case_decide; [rewrite size_singleton|rewrite size_empty]; lia.
  - intros q. unfold adj.
    rewrite elem_of_list_to_set, list_elem_of_filter, elem_of_neighbours.
    intros (_ & _ & Hne) Hq. case_decide; [|by apply elem_of_empty in Hq].
    by apply elem_of_singleton in Hq.
Qed.

(** ** Opening a mine, and opening in general *)

Lemma new_messages_same (g : MineGrid) : new_messages g g = [].
Proof. unfold new_messages. apply drop_all. Qed.

(** What a call of [open_cell] on an unexplored mine does: the button is
    marked and shown as a mine, the loss is posted, nothing else. *)
Lemma open_cell_mine_facts (fuel : nat) (g : MineGrid) (p : Position) (g' : MineGrid) :
  grid_ok g → in_bounds p → p ∈ mines g → explored_at g p = false →
  open_cell (S fuel) g p = Some g' →
  grid_ok g' ∧ mines g' = mines g ∧ mines_flagged g' = mines_flagged g
  ∧ current_cell g' = current_cell g ∧ disabled g' = disabled g
  ∧ posted g' = posted g ++ [GameEnd false]
  ∧ total_explored g' = total_explored g + 1
  ∧ explored_set g' = {[p]} ∪ explored_set g
  ∧ (∀ q, in_bounds q → q ≠ p → button_at g' q = button_at g q)
  ∧ ∃ b, button_at g p = Some b
         ∧ button_at g' p = Some (MineButton.explode (with_explored true b)).
Proof.
  intros Hok Hp Hm He Hrun.
  destruct (button_at_ok g p Hok Hp) as (b & Hb & Hpos).
  assert (explored b = false) as Heb by (unfold explored_at in He; by rewrite Hb in He).
  rewrite (open_cell_mine _ _ _ b) in Hrun by done. injection Hrun as <-.
  destruct (marked_facts g p b (MineButton.explode (with_explored true b)) Hok Hp Hpos Hpos)
    as (Hok1 & Hm1 & Hmf1 & Hcur1 & Hdis1 & Hpost1 & Htot1 & Hbtn1).
  split; [done|]. do 4 (split; [done|]).
  split; [simpl; by rewrite Hpost1|]. split; [done|]. split; [|split].
  - apply set_eq. intros q.
    rewrite elem_of_union, elem_of_singleton, !elem_of_explored_set.
    unfold explored_at.
    change (button_at (post_message (GameEnd false) ?x) q) with (button_at x q).
    split.
    + intros [Hq Heq]. rewrite Hbtn1 in Heq by done. case_decide; auto.
    + intros [->|[Hq Heq]]; (split; [done|]); rewrite Hbtn1 by done.
      * by rewrite decide_True.
      * by case_decide.
  - intros q Hq Hne.
    change (button_at (post_message (GameEnd false) ?x) q) with (button_at x q).
    rewrite Hbtn1 by done. by rewrite decide_False.
  - exists b. split; [done|].
    change (button_at (post_message (GameEnd false) ?x) p) with (button_at x p).
    rewrite Hbtn1 by done. by rewrite decide_True.
Qed.

(** What every call of [open_cell] on a button of the grid guarantees. *)
Lemma open_cell_facts (fuel : nat) (g : MineGrid) (p : Position) (g' : MineGrid) :
  grid_ok g → in_bounds p → open_cell fuel g p = Some g' →
  grid_ok g' ∧ mines g' = mines g ∧ mines_flagged g' = mines_flagged g
  ∧ current_cell g' = current_cell g ∧ disabled g' = disabled g
  ∧ explored_at g' p = true
  ∧ (∀ q, in_bounds q → flagged_at g' q = flagged_at g q)
  ∧ (∀ q, in_bounds q → explored_at g q = true → button_at g' q = button_at g q)
  ∧ total_explored g' - total_explored g
    = Z.of_nat (size (explored_set g')) - Z.of_nat (size (explored_set g))
  ∧ explored_set g ⊆ explored_set g'.
Proof.
  intros Hok Hp Hrun. destruct (decide (p ∈ mines g)) as [Hm|Hnm].
  - destruct fuel as [|fuel]; [done|].
    destruct (explored_at g p) eqn:He.
    + destruct (button_at_ok g p Hok Hp) as (b & Hb & Hpos).
      rewrite (open_cell_explored _ _ _ b) in Hrun
        by (try done; unfold explored_at in He; by rewrite Hb in He).
      injection Hrun as <-. do 5 (split; [done|]). split; [done|].
      do 2 (split; [done|]). split; [lia|done].
    + destruct (open_cell_mine_facts fuel g p g' Hok Hp Hm He Hrun)
        as (Hok' & Hm' & Hmf' & Hcur' & Hdis' & Hpost' & Htot' & Hset' & Hbtn' & b & Hb & Hb').
      do 5 (split; [done|]).
      split; [unfold explored_at; by rewrite Hb'|]. split; [|split; [|split]].
      * intros q Hq. unfold flagged_at. destruct (decide (q = p)) as [->|Hne].
        -- by rewrite Hb, Hb'.
        -- by rewrite Hbtn'.
      * intros q Hq Heq. apply Hbtn'; [done|]. intros ->. congruence.
      * rewrite Hset', size_union, size_singleton; [lia|].
        apply disjoint_singleton_l. rewrite elem_of_explored_set.
        intros [_ ?]. congruence.
      * rewrite Hset'. apply union_subseteq_r.
  - destruct (open_cell_safe fuel g p g' Hok Hp Hnm Hrun) as (Hs & Hep & _).
    split; [apply Hs|]. split; [apply Hs|]. split; [apply Hs|].
    split; [apply Hs|]. split; [apply Hs|]. split; [done|].
    split; [|split; [apply Hs|split; [apply Hs|by eapply opens_safely_subseteq]]].
    intros q Hq. destruct (button_at_ok g q Hok Hq) as (b & Hb & _).
    destruct (os_flags _ _ _ Hs q b Hq Hb) as (b' & Hb' & Hf & _).
    unfold flagged_at. by rewrite Hb, Hb'.
Qed.

Lemma handle_selected_focused (g : MineGrid) (p : Position) (b : MineButton)
    (action : SelectAction) :
  button_at g p = Some b → position b = current_cell g →
  handle_selected g p action
  = if decide (action = OPEN ∧ flagged b = false) then open_cell enough_fuel g p
    else if decide (action = FLAG ∧ explored b = false) then flag_cell g p
    else Some g.
Proof.
  intros Hb Hpos. unfold handle_selected. rewrite Hb.
  change (Some b ≫= ?f) with (f b). cbv beta.
  rewrite decide_False by (intros Hne; by apply Hne).
  change (Some g ≫= ?f) with (f g). cbv beta. by rewrite Hb.
Qed.

(** ** A new grid *)

Lemma grid_dims_new_grid (sample : list Z) : grid_dims (new_grid sample).
Proof.
  split; simpl.
  - unfold range. rewrite length_fmap, length_seqZ. f_equal. lia.
  - apply Forall_fmap, Forall_forall. intros i _. simpl.
    unfold range. rewrite length_fmap, length_seqZ. f_equal. lia.
Qed.

Lemma button_at_new_grid (sample : list Z) (p : Position) :
  in_bounds p → button_at (new_grid sample) p = Some (MineButton.init p).
Proof.
  intros Hp. rewrite button_at_front by (done || apply grid_dims_new_grid).
  destruct Hp as [Hr Hc]. simpl. unfold range.
  rewrite list_lookup_fmap, lookup_seqZ_lt by lia. simpl.
  rewrite list_lookup_fmap, lookup_seqZ_lt by lia. simpl.
  destruct p as [r c]; simpl in *. do 3 f_equal; lia.
Qed.

Lemma grid_ok_new_grid (sample : list Z) : grid_ok (new_grid sample).
Proof.
  destruct (grid_dims_new_grid sample) as [Hlen Hrows].
  do 2 (split; [done|]). split.
  - apply Forall_forall. intros p Hp%elem_of_all_positions.
    by rewrite button_at_new_grid.
  - apply elem_of_all_positions. split; simpl; lia.
Qed.

(** ** Showing the mines *)

Lemma same_fields_refl (g : MineGrid) : same_fields g g.
Proof. by repeat split. Qed.

Lemma same_fields_trans (g1 g2 g3 : MineGrid) :
  same_fields g1 g2 → same_fields g2 g3 → same_fields g1 g3.
Proof.
  intros (?&?&?&?&?&?) (?&?&?&?&?&?). repeat split; congruence.
Qed.

Lemma same_fields_set_button (p : Position) (b : MineButton) (g : MineGrid) :
  same_fields g (set_button p b g).
Proof.
  unfold same_fields.
  by rewrite mines_set_button, total_explored_set_button, mines_flagged_set_button,
    current_cell_set_button, disabled_set_button, posted_set_button.
Qed.

(** A loop that rewrites the button of each place it visits with an
    idempotent [f] rewrites exactly the buttons of the places visited. *)
Lemma for_each_update (f : MineButton → MineButton)
    (body : MineGrid → Position → option MineGrid) (l : list Position) (g : MineGrid) :
  (∀ b, f (f b) = f b) →
  (∀ g0 m, grid_ok g0 → in_bounds m →
     ∃ g1, body g0 m = Some g1 ∧ grid_ok g1 ∧ same_fields g0 g1
           ∧ ∀ q, in_bounds q →
                  button_at g1 q = if decide (q = m) then f <$> button_at g0 q
                                   else button_at g0 q) →
  grid_ok g → (∀ m, m ∈ l → in_bounds m) →
  ∃ g', for_each l body g = Some g' ∧ grid_ok g' ∧ same_fields g g'
        ∧ ∀ q, in_bounds q →
               button_at g' q = if decide (q ∈ l) then f <$> button_at g q
                                else button_at g q.
Proof.
  intros Hidem Hbody. revert g. induction l as [|m l IH]; intros g Hok Hl; cbn [for_each].
  - exists g. split; [done|]. split; [done|]. split; [apply same_fields_refl|].
    intros q _. rewrite decide_False; [done|]. apply not_elem_of_nil.
  - destruct (Hbody g m Hok) as (g1 & -> & Hok1 & Hf1 & Hb1);
      [apply Hl, list_elem_of_here|].
    destruct (IH g1 Hok1) as (g' & Hrun & Hok' & Hf' & Hb');
      [intros; by apply Hl, list_elem_of_further|].
    exists g'. split; [done|]. split; [done|].
    split; [by eapply same_fields_trans|].
    intros q Hq. rewrite Hb', Hb1 by done.
    destruct (decide (q = m)) as [->|Hne].
    + rewrite (decide_True (P := m ∈ m :: l)) by apply list_elem_of_here.
      case_decide; [|done].
      destruct (button_at g m); simpl; [|done]. by rewrite Hidem.
    + destruct (decide (q ∈ l)) as [Hin|Hnin].
      * by rewrite decide_True by (by apply list_elem_of_further).
      * rewrite decide_False; [done|]. by intros [?|?]%elem_of_cons.
Qed.

Lemma reveal_button_idemp (won : bool) (b : MineButton) :
  reveal_button won (reveal_button won b) = reveal_button won b.
Proof. destruct won, b as [? ? [] ? ? ?]; reflexivity. Qed.

Lemma reveal_button_explored (won : bool) (b : MineButton) :
  explored (reveal_button won b) = explored b.
Proof. destruct won, b as [? ? [] ? ? ?]; reflexivity. Qed.

Lemma reveal_button_position (won : bool) (b : MineButton) :
  position (reveal_button won b) = position b.
Proof. destruct won, b as [? ? [] ? ? ?]; reflexivity. Qed.

(** [reveal_mines] returns, and rewrites the buttons of the mines, all of
    them and nothing else. *)
Lemma reveal_mines_spec (won : bool) (g : MineGrid) :
  grid_ok g → mines_ok g →
  ∃ g', reveal_mines won g = Some g' ∧ grid_ok g' ∧ same_fields g g'
        ∧ ∀ q, in_bounds q →
               button_at g' q = if decide (q ∈ mines g)
                                then reveal_button won <$> button_at g q
                                else button_at g q.
Proof.
  intros Hok Hmines. unfold reveal_mines.
  destruct (for_each_update (reveal_button won)
              (λ g mine,
                 if won then
                   button ← button_at g mine;
                   if negb (flagged button) then
                     button ← button_at g mine;
                     Some (set_button mine (MineButton.toggle_flagged button) g)
                   else Some g
                 else
                   button ← button_at g mine;
                   Some (set_button mine (MineButton.explode button) g))
              (elements (mines g)) g) as (g' & Hrun & Hok' & Hf' & Hb').
  - apply reveal_button_idemp.
  - intros g0 m Hok0 Hm.
    destruct (button_at_ok g0 m Hok0 Hm) as (b & Hb & Hpos).
    pose proof (grid_ok_dims g0 Hok0) as Hd.
    assert (∀ b', position b' = m → b' = reveal_button won b →
              ∃ g1, Some (set_button m b' g0) = Some g1 ∧ grid_ok g1 ∧ same_fields g0 g1
                    ∧ ∀ q, in_bounds q →
                           button_at g1 q
                           = if decide (q = m) then reveal_button won <$> button_at g0 q
                             else button_at g0 q) as Hset.
    { intros b' Hpos' ->. eexists. split; [done|].
      split; [by apply grid_ok_set_button|]. split; [apply same_fields_set_button|].
      intros q Hq. rewrite button_at_set_button by done.
      case_decide; [subst; by rewrite Hb|done]. }
    destruct won; rewrite Hb; simpl.
    + destruct (flagged b) eqn:Hfl; simpl.
      * exists g0. split; [done|]. split; [done|]. split; [apply same_fields_refl|].
        intros q Hq. case_decide; [subst|done]. rewrite Hb. simpl.
        unfold reveal_button. by rewrite Hfl.
      * apply Hset; [done|]. unfold reveal_button. by rewrite Hfl.
    + by apply Hset.
  - done.
  - intros m Hm%elem_of_elements. by apply (mines_ok_in_bounds g).
  - exists g'. split; [done|]. split; [done|]. split; [done|].
    intros q Hq. rewrite Hb' by done.
    destruct (decide (q ∈ mines g)) as [Hin|Hnin].
    + by rewrite decide_True by (by apply elem_of_elements).
    + by rewrite decide_False by (by rewrite elem_of_elements).
Qed.

(** ** Sound grids *)

Lemma explored_set_ext (g g' : MineGrid) :
  (∀ q, in_bounds q → explored_at g' q = explored_at g q) →
  explored_set g' = explored_set g.
Proof.
  intros Hext. apply set_eq. intros q. rewrite !elem_of_explored_set.
  split; intros [Hq He]; (split; [done|]); by rewrite ?Hext in * by done.
Qed.

Lemma flood_closed_ext (pending : list Position) (g g' : MineGrid) :
  (∀ q, in_bounds q → explored_at g' q = explored_at g q) →
  mines g' = mines g →
  flood_closed_but pending g → flood_closed_but pending g'.
Proof.
  intros Hext Hm Hc. apply flood_closed_but_intro. intros z q Hz He Hn Hp Hq.
  assert (in_bounds q) by (by apply elem_of_block in Hq as [? _]).
  rewrite Hext in He |- * by done.
  rewrite (count_mines_near_mines g g') in Hn by done.
  by apply (flood_closed_but_elim pending g z q).
Qed.

Lemma grid_sound_ext (g g' : MineGrid) :
  grid_ok g' → mines g' = mines g → total_explored g' = total_explored g →
  (∀ q, in_bounds q → explored_at g' q = explored_at g q) →
  grid_sound g → grid_sound g' ∧ explored_set g' = explored_set g.
Proof.
  intros Hok Hm Ht Hext (_ & Hmines & Hsize & Hcount & Hclosed).
  pose proof (explored_set_ext g g' Hext) as Hset.
  split; [|done]. split; [done|]. split; [|split; [|split]].
  - unfold mines_ok. by rewrite Hm.
  - by rewrite Hm.
  - unfold counter_ok. by rewrite Ht, Hset.
  - by apply (flood_closed_ext [] g g').
Qed.

Lemma mines_subseteq_board (g : MineGrid) : mines_ok g → mines g ⊆ board.
Proof. intros Hm q Hq. apply elem_of_board. by apply (mines_ok_in_bounds g). Qed.

(** With no mine explored, at most [H*W - MINES_AMOUNT] cells are
    explored. *)
Lemma total_explored_le (g : MineGrid) :
  grid_sound g → explored_set g ## mines g →
  total_explored g ≤ GRID_HEIGHT * GRID_WIDTH - MINES_AMOUNT.
Proof.
  intros (_ & Hmines & Hsize & Hcount & _) Hdisj.
  assert (explored_set g ∪ mines g ⊆ board) as Hsub.
  { apply union_subseteq. split; [apply explored_set_board|by apply mines_subseteq_board]. }
  apply subseteq_size in Hsub. rewrite size_union, size_board in Hsub by done.
  unfold counter_ok in Hcount. lia.
Qed.

Lemma toggle_flagged_explored (b : MineButton) :
  explored (MineButton.toggle_flagged b) = explored b.
Proof. done. Qed.

(** ** A selection in a game in play *)

Lemma handle_selected_session (g : MineGrid) (p : Position) (action : SelectAction) :
  grid_sound g → posted g = [] → disabled g = false →
  explored_set g ## mines g →
  total_explored g < GRID_HEIGHT * GRID_WIDTH - MINES_AMOUNT →
  in_bounds p →
  ∃ g', handle_selected g p action = Some g' ∧ grid_sound g'
        ∧ disabled g' = false ∧ selection_outcome g'.
Proof.
  intros Hsound Hpost Hdis Hdisj Htot Hp.
  pose proof Hsound as (Hok & _).
  destruct (handle_selected_spec g p action Hok Hp)
    as (g0 & b0 & Hfocus & Hcur & Hb0 & ->).
  pose proof Hfocus as (Hok0 & Hm0 & Ht0 & Hmf0 & Hdis0 & Hpost0 & Hbtn0).
  destruct (grid_sound_ext g g0 Hok0 Hm0 Ht0) as [Hsound0 Hset0];
    [intros q Hq; by apply focus_moved_explored_at|done|].
  rewrite <- Hset0, <- Hm0 in Hdisj. rewrite <- Ht0 in Htot.
  rewrite <- Hpost0 in Hpost. rewrite <- Hdis0 in Hdis.
  clear Hsound Hok Hfocus Hm0 Ht0 Hmf0 Hdis0 Hpost0 Hbtn0 Hset0 g.
  pose proof Hsound0 as (_ & Hmines0 & Hsize0 & Hcount0 & Hclosed0).
  assert (selection_outcome g0) as Hplay by (left; done).
  case_decide as HA; [|case_decide as HB].
  - destruct (open_cell_terminates g0 p Hok0 Hp) as [g' Hrun].
    exists g'. split; [done|]. destruct (decide (p ∈ mines g0)) as [Hm|Hnm].
    + assert (explored_at g0 p = false) as Hep0.
      { destruct (explored_at g0 p) eqn:He; [|done]. exfalso.
        apply (Hdisj p); [by apply elem_of_explored_set|done]. }
      unfold enough_fuel in Hrun.
      destruct (open_cell_mine_facts _ g0 p g' Hok0 Hp Hm Hep0 Hrun)
        as (Hok' & Hm' & Hmf' & Hcur' & Hdis' & Hpost' & Htot' & Hset' & Hbtn' & _).
      assert (p ∉ explored_set g0) as Hpn
        by (rewrite elem_of_explored_set; intros [_ ?]; congruence).
      split; [|split; [congruence|]].
      * split; [done|]. split; [unfold mines_ok; by rewrite Hm'|].
        split; [by rewrite Hm'|]. split.
        -- unfold counter_ok in *.
           rewrite Htot', Hset', size_union, size_singleton
             by (by apply disjoint_singleton_l). lia.
        -- apply flood_closed_but_intro. intros z q Hz He Hn _ Hq.
           assert (in_bounds q) as Hqb by (by apply elem_of_block in Hq as [? _]).
           rewrite (count_mines_near_mines g0 g') in Hn by done.
           assert (z ≠ p) as Hzp.
           { intros ->. apply (count_zero_no_mine g0 p p); [done| |done].
             apply elem_of_square. lia. }
           assert (z ∈ explored_set g') as Hz' by (by apply elem_of_explored_set).
           rewrite Hset', elem_of_union, elem_of_singleton in Hz'.
           destruct Hz' as [?|[_ He0]%elem_of_explored_set]; [done|].
           pose proof (flood_closed_but_elim [] g0 z q Hclosed0 Hz He0 Hn
                         (not_elem_of_nil z) Hq) as Hq0.
           assert (q ∈ explored_set g') as [_ ?]%elem_of_explored_set; [|done].
           rewrite Hset'. apply elem_of_union. right. by apply elem_of_explored_set.
      * right. right. split; [by rewrite Hpost', Hpost|].
        intros Hd. apply (Hd p); [|by rewrite Hm'].
        rewrite Hset'. apply elem_of_union. left. by apply elem_of_singleton.
    + destruct (open_cell_safe _ g0 p g' Hok0 Hp Hnm Hrun) as (Hs & Hep & Hsame & Hwin & _).
      assert (grid_sound g') as Hsound'.
      { split; [apply Hs|]. split; [unfold mines_ok; by rewrite (os_mines _ _ _ Hs)|].
        split; [by rewrite (os_mines _ _ _ Hs)|]. split.
        - unfold counter_ok in *. pose proof (os_total _ _ _ Hs). lia.
        - by apply (os_closed _ _ _ Hs). }
      assert (explored_set g' ## mines g') as Hdisj'.
      { intros q [Hqb Hqe]%elem_of_explored_set Hqm.
        rewrite (os_mines _ _ _ Hs) in Hqm.
        destruct (explored_at g0 q) eqn:He0.
        - apply (Hdisj q); [by apply elem_of_explored_set|done].
        - by apply (os_no_mine _ _ _ Hs q). }
      pose proof (total_explored_le g' Hsound' Hdisj') as Hle.
      split; [done|]. split; [by rewrite (os_disabled _ _ _ Hs)|].
      destruct (os_posted _ _ _ Hs) as (new & Hnew & Hwins & Hthr).
      destruct new as [|m new].
      * left. rewrite app_nil_r in Hnew. split; [congruence|]. split; [done|].
        destruct (explored_at g0 p) eqn:Hep0; [by rewrite (Hsame eq_refl)|].
        destruct (decide (GRID_HEIGHT * GRID_WIDTH - MINES_AMOUNT ≤ total_explored g'))
          as [Hge|]; [|lia].
        specialize (Hwin eq_refl Hge).
        rewrite (new_messages_app g0 g' []) in Hwin by (by rewrite app_nil_r).
        by apply elem_of_nil in Hwin.
      * right. left. rewrite Hpost in Hnew. simpl in Hnew. rewrite Hnew.
        split; [done|]. split; [done|]. split; [done|].
        specialize (Hthr ltac:(done)). lia.
  - destruct HB as [-> Heb].
    rewrite (flag_cell_spec g0 p b0 Hb0). eexists. split; [done|].
    destruct (button_at_ok g0 p Hok0 Hp) as (b0' & Hb0' & Hpos0).
    assert (b0' = b0) as -> by congruence.
    set (g1 := with_mines_flagged _ g0).
    assert (grid_ok (set_button p (MineButton.toggle_flagged b0) g1)) as Hok'
      by (by apply grid_ok_set_button).
    destruct (grid_sound_ext g0 (set_button p (MineButton.toggle_flagged b0) g1))
      as [Hsound' Hset']; [done|by rewrite mines_set_button
                          |by rewrite total_explored_set_button| |done|].
    { intros q Hq. unfold explored_at.
      rewrite button_at_set_button by (by try apply grid_ok_dims).
      destruct (decide (q = p)) as [->|]; [|done].
      change (button_at g1 p) with (button_at g0 p). by rewrite Hb0. }
    split; [done|]. split; [by rewrite disabled_set_button|].
    left. rewrite posted_set_button, Hset', mines_set_button, total_explored_set_button.
    done.
  - exists g0. done.
Qed.

(** ** The end of a game *)

Lemma end_game_spec (g : MineGrid) (win : bool) :
  grid_sound g →
  ∃ g', end_game g (GameEnd win) = Some g' ∧ grid_sound g'
        ∧ explored_set g' = explored_set g ∧ mines g' = mines g
        ∧ total_explored g' = total_explored g ∧ mines_flagged g' = mines_flagged g
        ∧ posted g' = posted g ∧ disabled g' = true
        ∧ ∀ q, in_bounds q →
               button_at g' q = if decide (q ∈ mines g)
                                then reveal_button win <$> button_at g q
                                else button_at g q.
Proof.
  intros Hsound. pose proof Hsound as (Hok & Hmines & _).
  unfold end_game.
  destruct (reveal_mines_spec win (with_disabled true g) Hok Hmines)
    as (g' & Hrun & Hok' & (Hm & Ht & Hmf & Hcur & Hdis & Hpost) & Hbtn).
  exists g'. split; [done|].
  destruct (grid_sound_ext g g' Hok' Hm Ht) as [Hsound' Hset']; [|done|].
  { intros q Hq. unfold explored_at. rewrite Hbtn by done.
    change (button_at (with_disabled true g) q) with (button_at g q).
    case_decide; [|done]. destruct (button_at g q); [|done]. simpl.
    apply reveal_button_explored. }
  done.
Qed.

Lemma deliver_loop (queue : list Message) (g : MineGrid) (face : Face) :
  grid_sound g →
  ∃ app', for_each queue
            (λ app m,
               g ← end_game (mine_grid app) m;
               Some (handle_game_end (App g (restart_button_label app)) m))
            (App g face) = Some app'
          ∧ grid_sound (mine_grid app')
          ∧ explored_set (mine_grid app') = explored_set g
          ∧ mines (mine_grid app') = mines g
          ∧ total_explored (mine_grid app') = total_explored g
          ∧ posted (mine_grid app') = posted g
          ∧ (queue = [] → app' = App g face)
          ∧ (∀ win, last queue = Some (GameEnd win) →
               disabled (mine_grid app') = true
               ∧ restart_button_label app'
                 = if win then FACE_SUNGLASSES else FACE_DIZZY).
Proof.
  revert g face. induction queue as [|[win] queue IH]; intros g face Hsound.
  - exists (App g face). cbn [for_each mine_grid]. do 7 (split; [done|]).
    intros win Hl. done.
  - cbn [for_each mine_grid restart_button_label].
    destruct (end_game_spec g win Hsound)
      as (g1 & -> & Hsound1 & Hset1 & Hm1 & Ht1 & _ & Hpost1 & Hdis1 & _).
    change (Some g1 ≫= ?f) with (f g1). cbv beta.
    cbn [handle_game_end mine_grid].
    destruct (IH g1 (if win then FACE_SUNGLASSES else FACE_DIZZY) Hsound1)
      as (app' & Hrun & Hsound' & Hset' & Hm' & Ht' & Hpost' & Hnil & Hlast).
    exists app'. split; [done|]. split; [done|].
    split; [congruence|]. split; [congruence|]. split; [congruence|].
    split; [congruence|]. split; [done|].
    intros win' Hl. destruct queue as [|m queue].
    + simpl in Hl. injection Hl as <-. by rewrite (Hnil eq_refl).
    + by apply Hlast.
Qed.

Lemma last_Forall {A} (P : A → Prop) (l : list A) (x : A) :
  Forall P l → last l = Some x → P x.
Proof.
  intros Hl Hx. rewrite Forall_forall in Hl. apply Hl.
  apply last_Some in Hx as [l' ->]. apply elem_of_app. right. apply list_elem_of_here.
Qed.

(** A selection keeps a session sound. *)
Lemma select_session (app : TermSweeperApp) (p : Position) (action : SelectAction) :
  session_ok app → in_bounds p →
  ∃ app', select app p action = Some app' ∧ session_ok app'.
Proof.
  intros Hs Hp. unfold select.
  destruct (disabled (mine_grid app)) eqn:Hdis; [by exists app|].
  destruct app as [g face]. simpl in *.
  destruct Hs as (Hsound & Hpost & Hface). simpl in *.
  destruct face; [|by destruct Hface; congruence..].
  destruct Hface as (_ & Hdisj & Htot).
  destruct (handle_selected_session g p action Hsound Hpost Hdis Hdisj Htot Hp)
    as (g' & -> & Hsound' & Hdis' & Hout).
  change (Some g' ≫= ?f) with (f g'). cbv beta.
  unfold deliver_posted. cbn [mine_grid restart_button_label].
  set (g0 := Grid (mines g') (buttons g') (total_explored g') (mines_flagged g')
                  (current_cell g') (disabled g') []).
  assert (grid_sound g0) as Hsound0 by exact Hsound'.
  destruct (deliver_loop (posted g') g0 FACE_SMILING Hsound0)
    as (app' & Hrun & Hsound'' & Hset'' & Hm'' & Ht'' & Hpost'' & Hnil & Hlast).
  exists app'. split; [done|]. split; [done|]. split; [done|].
  change (explored_set g0) with (explored_set g') in Hset''.
  change (mines g0) with (mines g') in Hm''.
  change (total_explored g0) with (total_explored g') in Ht''.
  destruct Hout as [(Hq & Hd & Ht)|[(Hq & Hw & Hd & Ht)|(Hq & Hd)]].
  - rewrite (Hnil Hq). simpl. done.
  - destruct (last (posted g')) as [[win]|] eqn:Hl;
      [|by apply last_None in Hl].
    pose proof (last_Forall _ _ _ Hw Hl) as Hwin. injection Hwin as ->.
    destruct (Hlast true eq_refl) as [Hdis'' ->].
    rewrite Hset'', Hm'', Ht''. done.
  - rewrite Hq in Hlast. destruct (Hlast false eq_refl) as [Hdis'' ->].
    rewrite Hset'', Hm''. done.
Qed.

(** ** The start of a game *)

Lemma explored_set_empty (g : MineGrid) :
  (∀ q, in_bounds q → explored_at g q = false) → explored_set g = ∅.
Proof.
  intros He. apply set_eq. intros q. rewrite elem_of_explored_set.
  split; [|by intros ?%elem_of_empty]. intros [Hq Heq]. rewrite He in Heq; done.
Qed.

(** A grid with nothing explored, a zero counter, an empty queue and
    freshly drawn mines starts a sound session. *)
Lemma fresh_session (g : MineGrid) (sample : list Z) :
  MINES_AMOUNT < GRID_HEIGHT * GRID_WIDTH →
  random_sample (range 0 (GRID_HEIGHT * GRID_WIDTH)) MINES_AMOUNT sample →
  grid_ok g → mines g = generate_mines sample → total_explored g = 0 →
  posted g = [] → disabled g = false →
  (∀ q, in_bounds q → explored_at g q = false) →
  session_ok (App g FACE_SMILING).
Proof.
  intros HM Hsample Hok Hm Ht Hpost Hdis He.
  destruct (generate_mines_spec sample Hsample) as [Hsize Hin].
  pose proof (explored_set_empty g He) as Hset.
  split; [|split; [done|]]; simpl.
  - split; [done|]. split; [|split; [by rewrite Hm|split]].
    + unfold mines_ok. apply Forall_forall. intros m Hmm%elem_of_elements.
      apply elem_of_all_positions, Hin. by rewrite <- Hm.
    + unfold counter_ok. rewrite Ht, Hset, size_empty. done.
    + apply flood_closed_but_intro. intros z q Hz Hez. rewrite He in Hez; done.
  - split; [done|]. rewrite Hset, Ht. split; [|lia].
    apply disjoint_empty_l.
Qed.

Lemma start_session (sample : list Z) :
  MINES_AMOUNT < GRID_HEIGHT * GRID_WIDTH →
  random_sample (range 0 (GRID_HEIGHT * GRID_WIDTH)) MINES_AMOUNT sample →
  ∃ app, start sample = Some app ∧ session_ok app.
Proof.
  intros HM Hsample. unfold start, on_mount.
  pose proof (grid_ok_new_grid sample) as Hok.
  destruct (set_current_cell_spec (new_grid sample) (Pos 0 0) Hok)
    as (g & -> & Hfocus & Hcur); [split; simpl; lia|].
  eexists. split; [done|].
  pose proof Hfocus as (Hok' & Hm & Ht & _ & Hdis & Hpost & _).
  apply (fresh_session g sample); try done.
  intros q Hq. rewrite (focus_moved_explored_at _ _ q Hfocus Hok Hq).
  unfold explored_at. by rewrite button_at_new_grid.
Qed.

Lemma reset_session (app : TermSweeperApp) (sample : list Z) :
  MINES_AMOUNT < GRID_HEIGHT * GRID_WIDTH →
  random_sample (range 0 (GRID_HEIGHT * GRID_WIDTH)) MINES_AMOUNT sample →
  session_ok app →
  ∃ app', app_reset app sample = Some app' ∧ session_ok app'.
Proof.
  intros HM Hsample (Hsound & Hpost & _). destruct app as [g face]. simpl in *.
  pose proof Hsound as (Hok & _). pose proof (grid_ok_dims g Hok) as [Hlen Hrows].
  unfold app_reset, reset. cbn [mine_grid].
  set (g1 := with_buttons _ _).
  assert (grid_dims g1) as Hd1.
  { split; simpl; [by rewrite length_fmap|].
    apply Forall_fmap. eapply Forall_impl; [done|].
    intros r Hr. simpl. by rewrite length_fmap. }
  assert (∀ q, in_bounds q → button_at g1 q = MineButton.reset <$> button_at g q) as Hbtn1.
  { intros q Hq. rewrite !button_at_front by (done || by apply grid_ok_dims).
    simpl. rewrite list_lookup_fmap.
    destruct (buttons g !! Z.to_nat (row q)) as [r|]; [|done]. simpl.
    by rewrite list_lookup_fmap. }
  assert (grid_ok g1) as Hok1.
  { destruct Hd1. do 2 (split; [done|]). split; [|apply Hok].
    apply Forall_forall. intros q Hq%elem_of_all_positions.
    rewrite Hbtn1 by done.
    destruct (button_at_ok g q Hok Hq) as (b & -> & Hpos). simpl. by f_equal. }
  destruct (set_current_cell_spec g1 (Pos 0 0) Hok1)
    as (g2 & -> & Hfocus & Hcur); [split; simpl; lia|].
  change (Some g2 ≫= ?f) with (f g2). cbv beta zeta.
  eexists. split; [done|].
  pose proof Hfocus as (Hok2 & Hm2 & Ht2 & _ & Hdis2 & Hpost2 & _).
  apply (fresh_session _ sample); try done.
  { cbn [posted with_disabled with_mines]. rewrite Hpost2. exact Hpost. }
  intros q Hq.
  change (explored_at (with_disabled false (with_mines (generate_mines sample) g2)) q)
    with (explored_at g2 q).
  rewrite (focus_moved_explored_at _ _ q Hfocus Hok1 Hq).
  unfold explored_at. rewrite Hbtn1 by done.
  by destruct (button_at g q).
Qed.

(** Every state of a game played one selection at a time is a sound
    session. *)
Lemma reachable_session_ok (app : TermSweeperApp) :
  MINES_AMOUNT < GRID_HEIGHT * GRID_WIDTH →
  reachable app → session_ok app.
Proof.
  intros HM. induction 1 as [sample app Hsample Hstart
                            |app p action app' _ IH Hp Hsel
                            |app sample app' _ IH Hsample Hreset].
  - destruct (start_session sample HM Hsample) as (app' & Happ & Hs). congruence.
  - apply elem_of_all_positions in Hp.
    destruct (select_session app p action IH Hp) as (app'' & Happ & Hs). congruence.
  - destruct (reset_session app sample HM Hsample IH) as (app'' & Happ & Hs). congruence.
Qed.

Lemma no_mine_explored_iff (g : MineGrid) :
  mines_ok g →
  explored_set g ## mines g ↔ ∀ m, m ∈ mines g → explored_at g m = false.
Proof.
  intros Hmines. split.
  - intros Hd m Hm. destruct (explored_at g m) eqn:He; [|done]. exfalso.
    apply (Hd m); [|done]. apply elem_of_explored_set.
    split; [by apply (mines_ok_in_bounds g)|done].
  - intros Hall q [_ He]%elem_of_explored_set Hm. rewrite (Hall q Hm) in He. done.
Qed.

(** ** Moving the focus *)

(** [set_current_cell] makes the button of the new cell focusable, takes
    the focus off the button of the old one, and writes no other
    button. *)
Lemma set_current_cell_buttons (g : MineGrid) (value : Position) :
  grid_ok g → in_bounds value →
  ∃ g', set_current_cell g value = Some g' ∧ focus_moved g g'
        ∧ current_cell g' = value
        ∧ ∀ q b, in_bounds q → button_at g q = Some b →
            button_at g' q
            = Some (if decide (q = value) then with_can_focus true b
                    else if decide (q = current_cell g) then with_can_focus false b
                    else b).
Proof.
  intros Hok Hv. pose proof (grid_ok_current_cell g Hok) as Hcur.
  destruct (set_current_cell_spec g value Hok Hv) as (g' & Hrun & Hfocus & Hcur').
  exists g'. do 3 (split; [done|]).
  unfold set_current_cell in Hrun.
  destruct (button_at_ok g (current_cell g) Hok Hcur) as (old & Hold & Hpold).
  rewrite Hold in Hrun. change (Some old ≫= ?f) with (f old) in Hrun.
  cbv beta zeta in Hrun.
  set (g1 := set_button (current_cell g) (with_can_focus false old) g) in *.
  assert (grid_ok g1) as Hok1 by (by apply grid_ok_set_button).
  set (g2 := with_current_cell value g1) in *.
  assert (grid_ok g2) as Hok2 by (by apply grid_ok_with_current_cell).
  change (current_cell g2) with value in Hrun.
  destruct (button_at_ok g2 value Hok2 Hv) as (new & Hnew & Hpnew).
  rewrite Hnew in Hrun. change (Some new ≫= ?f) with (f new) in Hrun.
  cbv beta in Hrun. injection Hrun as <-.
  intros q b Hq Hb.
  rewrite button_at_set_button by (by try apply grid_ok_dims).
  assert (button_at g2 q = if decide (q = current_cell g)
                           then Some (with_can_focus false old) else Some b) as Hq2.
  { change (button_at g2 q) with (button_at g1 q). unfold g1.
    rewrite button_at_set_button by (by try apply grid_ok_dims).
    by case_decide. }
  destruct (decide (q = value)) as [->|Hqv].
  - rewrite Hq2 in Hnew. f_equal.
    destruct (decide (value = current_cell g)) as [Heq|Hne].
    + injection Hnew as <-. rewrite <- Heq in Hold. rewrite Hold in Hb.
      by injection Hb as ->.
    + by injection Hnew as <-.
  - rewrite Hq2. destruct (decide (q = current_cell g)) as [->|Hne]; [|done].
    rewrite Hold in Hb. by injection Hb as ->.
Qed.

Lemma action_move_cell_focus_spec (g : MineGrid) (dir : string) :
  grid_ok g →
  ∃ g', action_move_cell_focus g dir = Some g' ∧ focus_moved g g'
        ∧ in_bounds (current_cell g')
        ∧ current_cell g'
          = (if decide (dir = "left") then
               Pos (row (current_cell g)) (0 `max` (col (current_cell g) - 1))
             else if decide (dir = "right") then
               Pos (row (current_cell g))
                   ((GRID_WIDTH - 1) `min` (col (current_cell g) + 1))
             else if decide (dir = "up") then
               Pos (0 `max` (row (current_cell g) - 1)) (col (current_cell g))
             else if decide (dir = "down") then
               Pos ((GRID_HEIGHT - 1) `min` (row (current_cell g) + 1))
                   (col (current_cell g))
             else current_cell g)%string.
Proof.
  intros Hok. pose proof (grid_ok_current_cell g Hok) as [Hr Hc].
  unfold action_move_cell_focus.
  assert (∀ v, in_bounds v →
            ∃ g', set_current_cell g v = Some g' ∧ focus_moved g g'
                  ∧ in_bounds (current_cell g') ∧ current_cell g' = v) as Hset.
  { intros v Hv.
    destruct (set_current_cell_spec g v Hok Hv) as (g' & Hrun & Hfocus & Hcur').
    exists g'. by rewrite Hcur'. }
  destruct (decide (dir = "left")); [apply Hset; split; simpl; lia|].
  destruct (decide (dir = "right")); [apply Hset; split; simpl; lia|].
  destruct (decide (dir = "up")); [apply Hset; split; simpl; lia|].
  destruct (decide (dir = "down")); [apply Hset; split; simpl; lia|].
  exists g. split; [done|]. split; [by apply focus_moved_refl|]. by split.
Qed.

(** ** Flag selections *)

Lemma toggle_flagged_twice (b : MineButton) :
  MineButton.toggle_flagged (MineButton.toggle_flagged b)
  = with_label (if flagged b then CHAR_FLAGGED else CHAR_UNOPENED) b.
Proof. by destruct b as [? ? [] ? ? ?]. Qed.

(** A FLAG selection of an unexplored button moves the focus there and
    toggles the flag of that button, counting it. *)
Lemma handle_selected_flag (g : MineGrid) (p : Position) (b : MineButton) :
  grid_ok g → in_bounds p → button_at g p = Some b → explored b = false →
  ∃ g0 c, focus_moved g g0 ∧ current_cell g0 = p
    ∧ button_at g0 p = Some (with_can_focus c b)
    ∧ handle_selected g p FLAG
      = Some (set_button p (MineButton.toggle_flagged (with_can_focus c b))
                (with_mines_flagged
                   (mines_flagged g + (if negb (flagged b) then 1 else -1)) g0)).
Proof.
  intros Hok Hp Hb Hex.
  destruct (handle_selected_spec g p FLAG Hok Hp)
    as (g0 & b0 & Hfocus & Hcur & Hb0 & ->).
  pose proof Hfocus as (Hok0 & _ & _ & Hmf & _ & _ & Hbtn).
  destruct (Hbtn p b Hp Hb) as (c & Hb0').
  rewrite Hb0 in Hb0'. injection Hb0' as ->.
  exists g0, c. do 3 (split; [done|]).
  rewrite decide_False by (intros [? _]; done).
  rewrite decide_True by done.
  rewrite (flag_cell_spec g0 p _ Hb0). simpl. by rewrite Hmf.
Qed.

Lemma session_ok_focus_moved (g g' : MineGrid) (face : Face) :
  session_ok (App g face) → focus_moved g g' → session_ok (App g' face).
Proof.
  intros (Hsound & Hpost & Hface) Hfocus. simpl in *.
  pose proof Hsound as (Hok & _).
  pose proof Hfocus as (Hok' & Hm & Ht & Hmf & Hdis & Hpost' & Hbtn).
  destruct (grid_sound_ext g g' Hok' Hm Ht) as [Hsound' Hset'];
    [intros q Hq; by apply focus_moved_explored_at|done|].
  split; [done|]. split; [simpl; congruence|]. simpl.
  rewrite Hset', Hm, Ht, Hdis. done.
Qed.

(** With key moves too. *)
Lemma runs_session_ok (app : TermSweeperApp) :
  MINES_AMOUNT < GRID_HEIGHT * GRID_WIDTH →
  runs app → session_ok app.
Proof.
  intros HM. induction 1 as [sample app Hsample Hstart
                            |app p action app' _ IH Hp Hsel
                            |app dir g' _ IH Hmove
                            |app sample app' _ IH Hsample Hreset].
  - destruct (start_session sample HM Hsample) as (app' & Happ & Hs). congruence.
  - apply elem_of_all_positions in Hp.
    destruct (select_session app p action IH Hp) as (app'' & Happ & Hs). congruence.
  - destruct app as [g face]. simpl in *.
    destruct (action_move_cell_focus_spec g dir) as (g'' & Hrun & Hfocus & _);
      [apply IH|].
    assert (g'' = g') as -> by congruence.
    by apply (session_ok_focus_moved g).
  - destruct (reset_session app sample HM Hsample IH) as (app'' & Happ & Hs). congruence.
Qed.

(** ** Restarting, and the indices of the cells *)

Lemma reset_spec (g : MineGrid) (sample : list Z) :
  grid_ok g →
  ∃ g', reset g sample = Some g' ∧ grid_ok g'
        ∧ mines g' = generate_mines sample
        ∧ total_explored g' = 0 ∧ mines_flagged g' = 0 ∧ disabled g' = false
        ∧ current_cell g' = Pos 0 0 ∧ posted g' = posted g
        ∧ ∀ q, in_bounds q →
            button_at g' q
            = Some (Button q false false (bool_decide (q = Pos 0 0))
                           CHAR_UNOPENED "white").
Proof.
  intros Hok. pose proof (grid_ok_dims g Hok) as [Hlen Hrows].
  unfold reset.
  set (g1 := with_buttons _ _).
  assert (grid_dims g1) as Hd1.
  { split; simpl; [by rewrite length_fmap|].
    apply Forall_fmap. eapply Forall_impl; [done|].
    intros r Hr. simpl. by rewrite length_fmap. }
  assert (∀ q, in_bounds q →
            button_at g1 q = Some (Button q false false false CHAR_UNOPENED "white"))
    as Hbtn1.
  { intros q Hq. rewrite button_at_front by done.
    destruct (button_at_ok g q Hok Hq) as (b & Hb & Hpos).
    rewrite button_at_front in Hb by (done || by apply grid_ok_dims).
    simpl. rewrite list_lookup_fmap.
    destruct (buttons g !! Z.to_nat (row q)) as [r|]; [|done]. simpl in *.
    rewrite list_lookup_fmap, Hb. simpl. unfold MineButton.reset. by rewrite Hpos. }
  assert (grid_ok g1) as Hok1.
  { destruct Hd1. do 2 (split; [done|]). split; [|apply Hok].
    apply Forall_forall. intros q Hq%elem_of_all_positions.
    by rewrite Hbtn1. }
  destruct (set_current_cell_buttons g1 (Pos 0 0) Hok1)
    as (g2 & -> & Hfocus & Hcur & Hbtn2); [split; simpl; lia|].
  change (Some g2 ≫= ?f) with (f g2). cbv beta zeta.
  eexists. split; [done|].
  pose proof Hfocus as (Hok2 & Hm2 & Ht2 & Hmf2 & Hdis2 & Hpost2 & _).
  split; [exact Hok2|]. split; [done|]. split; [exact Ht2|]. split; [exact Hmf2|].
  split; [done|]. split; [exact Hcur|]. split; [exact Hpost2|].
  intros q Hq.
  change (button_at (with_disabled false (with_mines (generate_mines sample) g2)) q)
    with (button_at g2 q).
  rewrite (Hbtn2 q _ Hq (Hbtn1 q Hq)). f_equal.
  destruct (decide (q = Pos 0 0)) as [->|Hne].
  - by rewrite bool_decide_eq_true_2.
  - rewrite bool_decide_eq_false_2 by done. by case_decide.
Qed.

(** The cell at row [r] and column [c] is a mine exactly when the index
    [r * GRID_WIDTH + c] was drawn. *)
Lemma elem_of_generate_mines (sample : list Z) (p : Position) :
  sample ⊆ range 0 (GRID_HEIGHT * GRID_WIDTH) →
  p ∈ generate_mines sample ↔ in_bounds p ∧ row p * GRID_WIDTH + col p ∈ sample.
Proof.
  intros Hsub. unfold generate_mines.
  rewrite elem_of_list_to_set, list_elem_of_fmap. split.
  - intros (x & -> & Hx). pose proof (Hsub x Hx) as Hr%elem_of_range.
    split.
    + apply elem_of_all_positions. unfold all_positions.
      apply list_elem_of_fmap. exists x. split; [done|]. by apply elem_of_range.
    + simpl. rewrite Z.quot_div_nonneg by lia.
      replace (x `div` GRID_WIDTH * GRID_WIDTH + x `mod` GRID_WIDTH) with x; [done|].
      rewrite (Z.div_mod x GRID_WIDTH) at 1 by lia. lia.
  - destruct p as [r c]; simpl. intros [[Hr Hc] Hx]. simpl in *.
    exists (r * GRID_WIDTH + c). split; [|done].
    rewrite Z.quot_div_nonneg by nia. f_equal.
    + rewrite Z.div_add_l by lia. rewrite Z.div_small by lia. lia.
    + rewrite Z.add_comm, Z.mod_add by lia. by rewrite Z.mod_small.
Qed.

(** ** What the grid shows *)

Lemma Forall_positions (P : Position → Prop) :
  Forall P all_positions ↔ ∀ q, in_bounds q → P q.
Proof.
  rewrite Forall_forall. split.
  - intros HP q Hq. by apply HP, elem_of_all_positions.
  - intros HP q Hq%elem_of_all_positions. by apply HP.
Qed.

Lemma elem_of_flagged_set (g : MineGrid) (q : Position) :
  q ∈ flagged_set g ↔ in_bounds q ∧ flagged_at g q = true.
Proof. unfold flagged_set. rewrite elem_of_filter, elem_of_board. tauto. Qed.

Lemma flagged_set_ext (g g' : MineGrid) :
  (∀ q, in_bounds q → flagged_at g' q = flagged_at g q) →
  flagged_set g' = flagged_set g.
Proof.
  intros Hext. apply set_eq. intros q. rewrite !elem_of_flagged_set.
  split; intros [Hq He]; (split; [done|]); by rewrite ?Hext in * by done.
Qed.

Lemma count_label_mines (g g' : MineGrid) (q : Position) :
  mines g' = mines g → count_label g' q = count_label g q.
Proof. intros Hm. unfold count_label. by rewrite (count_mines_near_mines g g'). Qed.

(** The four parts of what is shown depend on the buttons through their
    attributes only. *)
Lemma focus_unique_ext (g g' : MineGrid) :
  current_cell g' = current_cell g →
  (∀ q, in_bounds q → can_focus_at g' q = can_focus_at g q) →
  focus_unique g → focus_unique g'.
Proof.
  unfold focus_unique. rewrite !Forall_positions. intros Hc Hext Hf q Hq.
  by rewrite Hext, Hc, Hf.
Qed.

Lemma labels_ok_ext (g g' : MineGrid) :
  mines g' = mines g →
  (∀ q, in_bounds q → explored_at g q = true → q ∉ mines g →
        explored_at g' q = true → label_at g' q = label_at g q) →
  (∀ q, in_bounds q → q ∉ mines g → explored_at g' q = true →
        explored_at g q = false → label_at g' q = Some (count_label g q)) →
  labels_ok g → labels_ok g'.
Proof.
  unfold labels_ok. rewrite !Forall_positions. intros Hm Hold Hnew Hl q Hq He Hnm.
  rewrite Hm in Hnm. rewrite (count_label_mines g g') by done.
  destruct (explored_at g q) eqn:He0.
  - rewrite Hold by done. by apply Hl.
  - by apply Hnew.
Qed.

Lemma covers_ok_ext (g g' : MineGrid) :
  (∀ q, in_bounds q → explored_at g' q = false →
        explored_at g q = false ∧ label_at g' q = label_at g q
        ∧ flagged_at g' q = flagged_at g q) →
  covers_ok g → covers_ok g'.
Proof.
  unfold covers_ok. rewrite !Forall_positions. intros Hext Hc q Hq He.
  destruct (Hext q Hq He) as (He0 & -> & ->). by apply Hc.
Qed.

Lemma same_view_at (g g' : MineGrid) (q : Position) :
  same_view g g' → in_bounds q →
  explored_at g' q = explored_at g q ∧ flagged_at g' q = flagged_at g q
  ∧ label_at g' q = label_at g q ∧ can_focus_at g' q = can_focus_at g q.
Proof.
  intros (_ & _ & _ & _ & _ & Hbtn) Hq.
  unfold explored_at, flagged_at, label_at, can_focus_at. by rewrite Hbtn.
Qed.

Lemma same_view_refl (g : MineGrid) : grid_ok g → same_view g g.
Proof. intros Hok. by do 5 (split; [done|]). Qed.

Lemma play_ok_same_view (g g' : MineGrid) : same_view g g' → play_ok g → play_ok g'.
Proof.
  intros Hv (Hf & Hl & Hc & Hn).
  pose proof Hv as (_ & Hm & _ & Hmf & Hcur & _).
  split; [|split; [|split]].
  - apply (focus_unique_ext g); [done| |done]. intros q Hq. by apply same_view_at.
  - apply (labels_ok_ext g); [done| | |done].
    + intros q Hq _ _ _. by apply same_view_at.
    + intros q Hq _ He He0. destruct (same_view_at g g' q Hv Hq) as (He' & _). congruence.
  - apply (covers_ok_ext g); [|done]. intros q Hq He.
    destruct (same_view_at g g' q Hv Hq) as (He' & Hf' & Hl' & _).
    split; [congruence|done].
  - unfold flags_counted. rewrite Hmf, (flagged_set_ext g g'); [done|].
    intros q Hq. by apply same_view_at.
Qed.

(** ** What [open_cell] writes *)

Lemma shows_counts_refl (g : MineGrid) : shows_counts g g.
Proof. split; [done|]. intros q _ _ H1 H2. congruence. Qed.

Lemma shows_counts_trans (g1 g2 g3 : MineGrid) :
  mines g2 = mines g1 →
  (∀ q, in_bounds q → explored_at g2 q = true → button_at g3 q = button_at g2 q) →
  shows_counts g1 g2 → shows_counts g2 g3 → shows_counts g1 g3.
Proof.
  intros Hm Hframe [H12a H12b] [H23a H23b]. split.
  - intros q Hq He3.
    assert (explored_at g2 q = false) as He2.
    { destruct (explored_at g2 q) eqn:He2; [|done].
      unfold explored_at in He3. rewrite (Hframe q Hq He2) in He3.
      unfold explored_at in He2. congruence. }
    rewrite H23a, H12a by done. done.
  - intros q Hq Hnm He1 He3. destruct (explored_at g2 q) eqn:He2.
    + unfold label_at. rewrite (Hframe q Hq He2). by apply H12b.
    + rewrite <- (count_label_mines g1 g2 q Hm). apply H23b; try done. by rewrite Hm.
Qed.

Lemma shows_counts_marked (g : MineGrid) (p : Position) (b b2 : MineButton) :
  grid_ok g → in_bounds p → button_at g p = Some b → position b = p →
  position b2 = p → explored b2 = true → label b2 = count_label g p →
  shows_counts g (set_button p b2 (marked p b g)).
Proof.
  intros Hok Hp Hb Hpos Hpos2 He2 Hl2.
  destruct (marked_facts g p b b2 Hok Hp Hpos Hpos2) as (_ & _ & _ & _ & _ & _ & _ & Hbtn).
  split.
  - intros q Hq He. unfold explored_at in He. rewrite Hbtn in He |- * by done.
    case_decide; [simpl in He; congruence|done].
  - intros q Hq Hnm He He'. unfold explored_at in He'. unfold label_at.
    rewrite Hbtn in He' |- * by done.
    case_decide; [subst; simpl; by rewrite Hl2|]. unfold explored_at in He. congruence.
Qed.

(** A call on a cell without a mine leaves the unexplored buttons alone
    and writes on each newly explored cell its count. *)
Lemma open_cell_shows (fuel : nat) (g : MineGrid) (p : Position) (g' : MineGrid) :
  grid_ok g → in_bounds p → p ∉ mines g →
  open_cell fuel g p = Some g' → shows_counts g g'.
Proof.
  revert g p g'. induction fuel as [|fuel IH]; intros g p g' Hok Hp Hnm Hrun; [done|].
  destruct (button_at_ok g p Hok Hp) as (b & Hb & Hpos).
  destruct (explored b) eqn:He.
  { rewrite (open_cell_explored _ _ _ b) in Hrun by done.
    injection Hrun as <-. apply shows_counts_refl. }
  rewrite (open_cell_unexplored _ _ _ b) in Hrun by done.
  set (b1 := with_explored true b) in *.
  destruct (decide (count_mines_near g p = 0)) as [Hzero|Hnz].
  - destruct (flood_loop _ _ _) as [g2|] eqn:Hloop; [|done].
    change (Some g2 ≫= ?f) with (f g2) in Hrun. cbv beta in Hrun.
    assert (shows_counts g g2) as Hs;
      [|by case_decide; injection Hrun as <-].
    destruct (marked_facts g p b (with_label CHAR_EMPTY b1) Hok Hp Hpos Hpos)
      as (Hok1 & Hm1 & _).
    apply (flood_loop_rel
             (λ s s', opens_safely_but [p] s s' ∧ shows_counts s s')
             (λ _ _, True)) in Hloop.
    + destruct Hloop as [[Hsafe Hshow] _].
      apply (shows_counts_trans g
               (set_button p (with_label CHAR_EMPTY b1) (marked p b g)) g2);
        [done|apply Hsafe| |done].
      apply shows_counts_marked; try done.
      unfold count_label. by rewrite decide_True.
    + split; [by apply opens_safely_refl|apply shows_counts_refl].
    + intros s1 s2 [H12 _]. split; [by eapply opens_safely_refl_target|].
      apply shows_counts_refl.
    + intros s1 s2 s3 [H12 S12] [H23 S23]. split; [by eapply opens_safely_trans|].
      apply (shows_counts_trans s1 s2 s3); [apply H12|apply H23|done|done].
    + done.
    + intros q s0 s1 Hq [HR _] Hcall. pose proof Hq as (Hqb & _)%elem_of_block.
      assert (q ∉ mines s0) as Hqm.
      { rewrite (os_mines _ _ _ HR), Hm1.
        by apply (count_zero_no_mine g p), block_square. }
      destruct (open_cell_safe fuel s0 q s1 (os_ok _ _ _ HR) Hqb Hqm Hcall) as (Hs & _).
      split; [|done]. split; [by apply opens_safely_weaken|].
      by apply (IH s0 q s1 (os_ok _ _ _ HR)).
  - destruct (MineButton.set_number _ b1) as [b2|] eqn:Hnum; [|done].
    change (Some b2 ≫= ?f) with (f b2) in Hrun. cbv beta in Hrun.
    change (Some ?x ≫= ?f) with (f x) in Hrun. cbv beta in Hrun.
    unfold MineButton.set_number in Hnum.
    destruct (py_get NUMBER_COLORS _) as [c|]; [|done]. simpl in Hnum.
    injection Hnum as <-.
    assert (shows_counts g
              (set_button p (with_color c (with_label (Digit (count_mines_near g p)) b1))
                 (marked p b g))) as Hs;
      [|by case_decide; injection Hrun as <-].
    apply shows_counts_marked; try done.
    unfold count_label. by rewrite decide_False.
Qed.

(** What every call of [open_cell] leaves alone and what it writes. *)
Lemma open_cell_view (fuel : nat) (g : MineGrid) (p : Position) (g' : MineGrid) :
  grid_ok g → in_bounds p → open_cell fuel g p = Some g' →
  (∀ q, in_bounds q → can_focus_at g' q = can_focus_at g q)
  ∧ shows_counts g g'.
Proof.
  intros Hok Hp Hrun. destruct (decide (p ∈ mines g)) as [Hm|Hnm].
  - destruct fuel as [|fuel]; [done|]. destruct (explored_at g p) eqn:He.
    + destruct (button_at_ok g p Hok Hp) as (b & Hb & _).
      rewrite (open_cell_explored _ _ _ b) in Hrun
        by (try done; unfold explored_at in He; by rewrite Hb in He).
      injection Hrun as <-. split; [done|apply shows_counts_refl].
    + destruct (open_cell_mine_facts fuel g p g' Hok Hp Hm He Hrun)
        as (_ & _ & _ & _ & _ & _ & _ & Hset & Hbtn & b & Hb & Hb').
      split; [|split].
      * intros q Hq. unfold can_focus_at. destruct (decide (q = p)) as [->|Hne].
        -- by rewrite Hb, Hb'.
        -- by rewrite Hbtn.
      * intros q Hq He'. apply Hbtn; [done|]. intros ->.
        unfold explored_at in He'. rewrite Hb' in He'. done.
      * intros q Hq Hqm He0 He'. exfalso.
        assert (q ∈ explored_set g') as Hin by (by apply elem_of_explored_set).
        rewrite Hset, elem_of_union, elem_of_singleton in Hin.
        destruct Hin as [->|[_ ?]%elem_of_explored_set]; [done|congruence].
  - destruct (open_cell_safe fuel g p g' Hok Hp Hnm Hrun) as (Hs & _).
    split; [|by apply (open_cell_shows fuel g p)].
    intros q Hq. destruct (button_at_ok g q Hok Hq) as (b & Hb & _).
    destruct (os_flags _ _ _ Hs q b Hq Hb) as (b' & Hb' & _ & Hc).
    unfold can_focus_at. by rewrite Hb, Hb'.
Qed.

Lemma open_cell_play_ok (fuel : nat) (g : MineGrid) (p : Position) (g' : MineGrid) :
  grid_ok g → in_bounds p → open_cell fuel g p = Some g' →
  play_ok g → play_ok g'.
Proof.
  intros Hok Hp Hrun (Hf & Hl & Hc & Hn).
  destruct (open_cell_facts fuel g p g' Hok Hp Hrun)
    as (Hok' & Hm & Hmf & Hcur & _ & _ & Hflags & Hframe & _ & _).
  destruct (open_cell_view fuel g p g' Hok Hp Hrun) as (Hfocus & Hshow1 & Hshow2).
  split; [|split; [|split]].
  - by apply (focus_unique_ext g).
  - apply (labels_ok_ext g); [done| |by intros; apply Hshow2|done].
    intros q Hq He _ _. unfold label_at. by rewrite Hframe.
  - apply (covers_ok_ext g); [|done]. intros q Hq He'.
    pose proof (Hshow1 q Hq He') as Hb.
    unfold explored_at, label_at, flagged_at in *. rewrite Hb in He' |- *. done.
  - unfold flags_counted. rewrite Hmf, (flagged_set_ext g g'); done.
Qed.

(** ** Steps that keep what is shown *)

Lemma same_marks_focus_moved (g g' : MineGrid) :
  grid_ok g → focus_moved g g' → same_marks g g'.
Proof.
  intros Hok Hfocus. pose proof Hfocus as (_ & Hm & _ & Hmf & _).
  do 2 (split; [done|]). intros q Hq.
  split; [by apply focus_moved_explored_at|].
  split; [by apply focus_moved_flagged_at|by apply focus_moved_label_at].
Qed.

Lemma same_marks_same_view (g g' : MineGrid) : same_view g g' → same_marks g g'.
Proof.
  intros Hv. pose proof Hv as (_ & Hm & _ & Hmf & _).
  do 2 (split; [done|]). intros q Hq.
  destruct (same_view_at g g' q Hv Hq) as (? & ? & ? & _). done.
Qed.

Lemma same_marks_explored_set (g g' : MineGrid) :
  same_marks g g' → explored_set g' = explored_set g.
Proof. intros (_ & _ & H). apply explored_set_ext. intros q Hq. by apply H. Qed.

Lemma same_marks_flagged_set (g g' : MineGrid) :
  same_marks g g' → flagged_set g' = flagged_set g.
Proof. intros (_ & _ & H). apply flagged_set_ext. intros q Hq. by apply H. Qed.

Lemma labels_ok_marks (g g' : MineGrid) : same_marks g g' → labels_ok g → labels_ok g'.
Proof.
  intros (Hm & _ & H). apply labels_ok_ext; [done| |].
  - intros q Hq _ _ _. by apply H.
  - intros q Hq _ He He0. destruct (H q Hq) as (He' & _). congruence.
Qed.

Lemma covers_ok_marks (g g' : MineGrid) : same_marks g g' → covers_ok g → covers_ok g'.
Proof.
  intros (_ & _ & H). apply covers_ok_ext. intros q Hq He.
  destruct (H q Hq) as (He' & Hf' & Hl'). split; [congruence|done].
Qed.

Lemma flags_counted_marks (g g' : MineGrid) :
  same_marks g g' → flags_counted g → flags_counted g'.
Proof.
  intros Hs Hn. pose proof Hs as (_ & Hmf & _). unfold flags_counted.
  by rewrite Hmf, (same_marks_flagged_set g g').
Qed.

Lemma play_ok_marks (g g' : MineGrid) :
  same_marks g g' → focus_unique g' → play_ok g → play_ok g'.
Proof.
  intros Hs Hf' (_ & Hl & Hc & Hn). split; [done|].
  split; [by apply (labels_ok_marks g)|].
  split; [by apply (covers_ok_marks g)|by apply (flags_counted_marks g)].
Qed.

Lemma won_ok_marks (g g' : MineGrid) :
  same_marks g g' → focus_unique g' → won_ok g → won_ok g'.
Proof.
  intros Hs Hf' (_ & Hl & Hc & Hfl & He). pose proof Hs as (Hm & _ & H).
  split; [done|]. split; [by apply (labels_ok_marks g)|].
  split; [by apply (covers_ok_marks g)|]. split.
  - intros m Hb Hmm. rewrite Hm in Hmm.
    destruct (H m Hb) as (_ & -> & _). by apply Hfl.
  - by rewrite (same_marks_explored_set g g'), Hm.
Qed.

Lemma lost_ok_marks (g g' : MineGrid) :
  same_marks g g' → focus_unique g' → lost_ok g → lost_ok g'.
Proof.
  intros Hs Hf' (_ & Hl & Hn & Hmine & Hcov & p & Hp). pose proof Hs as (Hm & _ & H).
  split; [done|]. split; [by apply (labels_ok_marks g)|].
  split; [by apply (flags_counted_marks g)|]. split; [|split].
  - intros m Hb Hmm. rewrite Hm in Hmm.
    destruct (H m Hb) as (_ & _ & ->). by apply Hmine.
  - intros q Hq Hqm He. rewrite Hm in Hqm.
    destruct (H q Hq) as (He' & -> & ->). apply Hcov; [done..|congruence].
  - exists p. by rewrite (same_marks_explored_set g g'), Hm.
Qed.

Lemma same_view_trans (g1 g2 g3 : MineGrid) :
  same_view g1 g2 → same_view g2 g3 → same_view g1 g3.
Proof.
  intros (_ & Hm & Ht & Hmf & Hc & Hb) (Hok & Hm' & Ht' & Hmf' & Hc' & Hb').
  split; [done|]. do 4 (split; [congruence|]).
  intros q Hq. by rewrite Hb', Hb.
Qed.

Lemma focus_unique_same_view (g g' : MineGrid) :
  same_view g g' → focus_unique g → focus_unique g'.
Proof.
  intros Hv. pose proof Hv as (_ & _ & _ & _ & Hcur & _).
  apply focus_unique_ext; [done|]. intros q Hq. by apply same_view_at.
Qed.

(** [set_current_cell] makes the new cell the only focusable one of a
    grid in which no cell but the old one was focusable. *)
Lemma set_current_cell_focus (g : MineGrid) (value : Position) (g' : MineGrid) :
  grid_ok g → in_bounds value → set_current_cell g value = Some g' →
  (∀ q, in_bounds q → q ≠ current_cell g → can_focus_at g q = false) →
  focus_unique g'.
Proof.
  intros Hok Hv Hrun Hf.
  destruct (set_current_cell_buttons g value Hok Hv) as (g'' & Hrun' & _ & Hcur & Hbtn).
  assert (g'' = g') as -> by congruence.
  unfold focus_unique. rewrite Forall_positions. intros q Hq.
  destruct (button_at_ok g q Hok Hq) as (b & Hb & _).
  pose proof (Hf q Hq) as Hfq. unfold can_focus_at in *. rewrite Hb in Hfq. simpl in Hfq.
  rewrite (Hbtn q b Hq Hb), Hcur. simpl.
  destruct (decide (q = value)) as [->|Hne].
  - by rewrite bool_decide_eq_true_2.
  - rewrite (bool_decide_eq_false_2 _ Hne).
    destruct (decide (q = current_cell g)) as [->|Hne']; [done|].
    simpl. by apply Hfq.
Qed.

Lemma focus_unique_others (g : MineGrid) (q : Position) :
  focus_unique g → in_bounds q → q ≠ current_cell g → can_focus_at g q = false.
Proof.
  unfold focus_unique. rewrite Forall_positions. intros Hf Hq Hne.
  rewrite (Hf q Hq). by apply bool_decide_eq_false_2.
Qed.

(** [handle_selected] on a grid whose tracked cell is the only focusable
    one: the focus moves to the selected button, which is then the only
    focusable one, before the button is opened or flagged. *)
Lemma handle_selected_focus (g : MineGrid) (p : Position) (action : SelectAction) :
  grid_ok g → in_bounds p → focus_unique g →
  ∃ g0 b0, focus_moved g g0 ∧ focus_unique g0 ∧ current_cell g0 = p
    ∧ button_at g0 p = Some b0
    ∧ handle_selected g p action
      = if decide (action = OPEN ∧ flagged b0 = false) then open_cell enough_fuel g0 p
        else if decide (action = FLAG ∧ explored b0 = false) then flag_cell g0 p
        else Some g0.
Proof.
  intros Hok Hp Hf. unfold handle_selected.
  destruct (button_at_ok g p Hok Hp) as (b & Hb & Hpos).
  rewrite Hb. change (Some b ≫= ?f) with (f b). cbv beta. rewrite Hpos.
  assert (∃ g0, (if decide (p ≠ current_cell g) then set_current_cell g p else Some g)
                = Some g0 ∧ focus_moved g g0 ∧ focus_unique g0 ∧ current_cell g0 = p)
    as (g0 & -> & Hfocus & Hf0 & Hcur).
  { destruct (decide (p ≠ current_cell g)) as [Hne|Heq].
    - destruct (set_current_cell_spec g p Hok Hp) as (g0 & Hrun & Hfocus & Hcur).
      exists g0. split; [done|]. split; [done|]. split; [|done].
      apply (set_current_cell_focus g p); [done..|].
      intros q Hq Hneq. by apply focus_unique_others.
    - exists g. split; [done|]. split; [by apply focus_moved_refl|]. split; [done|].
      by destruct (decide (p = current_cell g)). }
  change (Some g0 ≫= ?f) with (f g0). cbv beta.
  destruct (button_at_ok g0 p (proj1 Hfocus) Hp) as (b0 & Hb0 & _).
  exists g0, b0. rewrite Hb0. done.
Qed.

(** ** Flags and what is shown *)

Lemma flagged_set_flag (g : MineGrid) (p : Position) (b : MineButton) (v : Z) :
  grid_ok g → in_bounds p → button_at g p = Some b →
  let g' := set_button p (MineButton.toggle_flagged b) (with_mines_flagged v g) in
  Z.of_nat (size (flagged_set g'))
  = Z.of_nat (size (flagged_set g)) + (if negb (flagged b) then 1 else -1).
Proof.
  intros Hok Hp Hb g'.
  pose proof (grid_ok_dims g Hok) as Hd.
  assert (∀ q, in_bounds q →
               flagged_at g' q = if decide (q = p) then negb (flagged b)
                                 else flagged_at g q) as Hfl.
  { intros q Hq. unfold flagged_at, g'.
    rewrite (button_at_set_button (with_mines_flagged v g)) by done.
    by case_decide. }
  destruct (flagged b) eqn:Hfb; simpl.
  - assert (flagged_set g = {[p]} ∪ flagged_set g') as ->.
    { apply set_eq. intros q.
      rewrite elem_of_union, elem_of_singleton, !elem_of_flagged_set. split.
      - intros [Hq Hfq]. destruct (decide (q = p)) as [->|Hne]; [by left|right].
        split; [done|]. rewrite Hfl by done. by rewrite decide_False.
      - intros [->|[Hq Hfq]].
        + split; [done|]. unfold flagged_at. by rewrite Hb.
        + split; [done|]. rewrite Hfl in Hfq by done.
          destruct (decide (q = p)); [simpl in Hfq; congruence|done]. }
    rewrite size_union, size_singleton; [lia|].
    apply disjoint_singleton_l. rewrite elem_of_flagged_set. intros [_ Hfp].
    rewrite Hfl in Hfp by done. rewrite decide_True in Hfp by done.
    simpl in Hfp. congruence.
  - assert (flagged_set g' = {[p]} ∪ flagged_set g) as ->.
    { apply set_eq. intros q.
      rewrite elem_of_union, elem_of_singleton, !elem_of_flagged_set. split.
      - intros [Hq Hfq]. destruct (decide (q = p)) as [->|Hne]; [by left|right].
        split; [done|]. rewrite Hfl in Hfq by done. by rewrite decide_False in Hfq.
      - intros [->|[Hq Hfq]].
        + split; [done|]. rewrite Hfl by done. by rewrite decide_True.
        + split; [done|]. rewrite Hfl by done.
          by destruct (decide (q = p)). }
    rewrite size_union, size_singleton; [lia|].
    apply disjoint_singleton_l. rewrite elem_of_flagged_set. intros [_ Hfp].
    unfold flagged_at in Hfp. rewrite Hb in Hfp. simpl in Hfp. congruence.
Qed.

(** Flagging an unexplored button keeps what a game in play shows. *)
Lemma flag_cell_play_ok (g : MineGrid) (p : Position) (b : MineButton) (g' : MineGrid) :
  grid_ok g → in_bounds p → button_at g p = Some b → explored b = false →
  flag_cell g p = Some g' → play_ok g → play_ok g'.
Proof.
  intros Hok Hp Hb Heb Hrun (Hf & Hl & Hc & Hn).
  rewrite (flag_cell_spec g p b Hb) in Hrun. injection Hrun as <-.
  set (v := mines_flagged g + (if negb (flagged b) then 1 else -1)).
  pose proof (grid_ok_dims g Hok) as Hd.
  assert (∀ q, in_bounds q →
               button_at (set_button p (MineButton.toggle_flagged b)
                            (with_mines_flagged v g)) q
               = if decide (q = p) then Some (MineButton.toggle_flagged b)
                 else button_at g q) as Hbtn.
  { intros q Hq. by rewrite (button_at_set_button (with_mines_flagged v g)). }
  split; [|split; [|split]].
  - apply (focus_unique_ext g); [by rewrite current_cell_set_button| |done].
    intros q Hq. unfold can_focus_at. rewrite Hbtn by done.
    destruct (decide (q = p)) as [->|]; [by rewrite Hb|done].
  - apply (labels_ok_ext g); [by rewrite mines_set_button| | |done].
    + intros q Hq He _ _. unfold label_at. rewrite Hbtn by done.
      destruct (decide (q = p)) as [->|]; [|done].
      unfold explored_at in He. rewrite Hb in He. simpl in He. congruence.
    + intros q Hq _ He' He. exfalso. unfold explored_at in He', He.
      rewrite Hbtn in He' by done.
      destruct (decide (q = p)) as [->|]; [|congruence].
      simpl in He'. congruence.
  - unfold covers_ok in *. rewrite Forall_positions in Hc |- *. intros q Hq He.
    unfold explored_at, label_at, flagged_at in *. rewrite Hbtn in He |- * by done.
    destruct (decide (q = p)) as [->|]; [|by apply Hc].
    simpl. by destruct (flagged b).
  - unfold flags_counted in *.
    rewrite (flagged_set_flag g p b v Hok Hp Hb).
    rewrite mines_flagged_set_button. simpl. unfold v. lia.
Qed.


(** ** The end of a game and what is shown *)

(** [end_game] rewrites the buttons of the mines and [disabled], and
    nothing else. *)
Lemma end_game_view (g : MineGrid) (win : bool) (g' : MineGrid) :
  grid_ok g → mines_ok g → end_game g (GameEnd win) = Some g' →
  grid_ok g' ∧ mines g' = mines g ∧ total_explored g' = total_explored g
  ∧ mines_flagged g' = mines_flagged g ∧ current_cell g' = current_cell g
  ∧ ∀ q, in_bounds q →
         button_at g' q = if decide (q ∈ mines g)
                          then reveal_button win <$> button_at g q
                          else button_at g q.
Proof.
  intros Hok Hmines Hrun. unfold end_game in Hrun.
  destruct (reveal_mines_spec win (with_disabled true g) Hok Hmines)
    as (g'' & Hrun' & Hok' & (Hm & Ht & Hmf & Hcur & _ & _) & Hbtn).
  assert (g'' = g') as -> by congruence.
  do 5 (split; [done|]). exact Hbtn.
Qed.

Lemma end_game_explored_at (g : MineGrid) (win : bool) (g' : MineGrid) (q : Position) :
  grid_ok g → mines_ok g → end_game g (GameEnd win) = Some g' → in_bounds q →
  explored_at g' q = explored_at g q ∧ can_focus_at g' q = can_focus_at g q.
Proof.
  intros Hok Hmines Hrun Hq.
  destruct (end_game_view g win g' Hok Hmines Hrun) as (_ & _ & _ & _ & _ & Hbtn).
  unfold explored_at, can_focus_at. rewrite Hbtn by done.
  case_decide; [|done]. destruct (button_at g q) as [b|]; [|done]. simpl.
  by destruct win, b as [? ? [] ? ? ?].
Qed.

(** A win delivered to a game in play with every cell without a mine
    explored: every mine ends up flagged. *)
Lemma end_game_won (g g' : MineGrid) :
  grid_ok g → mines_ok g → end_game g (GameEnd true) = Some g' →
  play_ok g → explored_set g = board ∖ mines g → won_ok g'.
Proof.
  intros Hok Hmines Hrun (Hf & Hl & Hc & _) Hset.
  destruct (end_game_view g true g' Hok Hmines Hrun)
    as (Hok' & Hm & Ht & Hmf & Hcur & Hbtn).
  pose proof (λ q, end_game_explored_at g true g' q Hok Hmines Hrun) as Hat.
  split; [|split; [|split; [|split]]].
  - apply (focus_unique_ext g); [done| |done]. intros q Hq. by apply Hat.
  - apply (labels_ok_ext g); [done| | |done].
    + intros q Hq _ Hnm _. unfold label_at. rewrite Hbtn by done.
      by rewrite decide_False.
    + intros q Hq _ He' He. destruct (Hat q Hq) as [Heq _]. congruence.
  - unfold covers_ok in *. rewrite Forall_positions in Hc |- *. intros q Hq He.
    destruct (Hat q Hq) as [Heq _]. rewrite Heq in He. specialize (Hc q Hq He).
    unfold label_at, flagged_at in *. rewrite Hbtn by done.
    case_decide; [|done]. destruct (button_at g q) as [b|]; [|done]. simpl in *.
    unfold reveal_button. destruct (flagged b) eqn:Hfb; simpl; [by rewrite Hfb|].
    unfold MineButton.toggle_flagged. simpl. by rewrite Hfb.
  - intros m Hb Hmm. rewrite Hm in Hmm. unfold flagged_at. rewrite Hbtn by done.
    rewrite decide_True by done.
    destruct (button_at_ok g m Hok Hb) as (b & -> & _). simpl.
    unfold reveal_button. destruct (flagged b) eqn:Hfb; simpl; [done|].
    unfold MineButton.toggle_flagged. simpl. by rewrite Hfb.
  - rewrite Hm, <- Hset. apply explored_set_ext. intros q Hq. by apply Hat.
Qed.

(** A further win delivered to a won game changes nothing that is
    shown. *)
Lemma end_game_won_again (g g' : MineGrid) :
  grid_ok g → mines_ok g → end_game g (GameEnd true) = Some g' →
  won_ok g → won_ok g'.
Proof.
  intros Hok Hmines Hrun Hw. pose proof Hw as (Hf & _ & _ & Hfl & _).
  destruct (end_game_view g true g' Hok Hmines Hrun)
    as (Hok' & Hm & Ht & Hmf & Hcur & Hbtn).
  assert (same_view g g') as Hv.
  { do 5 (split; [done|]). intros q Hq. rewrite Hbtn by done.
    case_decide as Hqm; [|done]. specialize (Hfl q Hq Hqm).
    unfold flagged_at in Hfl. destruct (button_at g q) as [b|]; [|done]. simpl in *.
    unfold reveal_button. by rewrite Hfl. }
  apply (won_ok_marks g); [by apply same_marks_same_view| |done].
  by apply (focus_unique_same_view g).
Qed.

(** A loss delivered to a game in play in which one mine is explored. *)
Lemma end_game_lost (g g' : MineGrid) (p : Position) :
  grid_ok g → mines_ok g → end_game g (GameEnd false) = Some g' →
  play_ok g → explored_set g ∩ mines g = {[p]} → lost_ok g'.
Proof.
  intros Hok Hmines Hrun (Hf & Hl & Hc & Hn) Hset.
  destruct (end_game_view g false g' Hok Hmines Hrun)
    as (Hok' & Hm & Ht & Hmf & Hcur & Hbtn).
  pose proof (λ q, end_game_explored_at g false g' q Hok Hmines Hrun) as Hat.
  assert (∀ q, in_bounds q → flagged_at g' q = flagged_at g q) as Hfl.
  { intros q Hq. unfold flagged_at. rewrite Hbtn by done.
    case_decide; [|done]. by destruct (button_at g q). }
  split; [|split; [|split; [|split; [|split]]]].
  - apply (focus_unique_ext g); [done| |done]. intros q Hq. by apply Hat.
  - apply (labels_ok_ext g); [done| | |done].
    + intros q Hq _ Hnm _. unfold label_at. rewrite Hbtn by done.
      by rewrite decide_False.
    + intros q Hq _ He' He. destruct (Hat q Hq) as [Heq _]. congruence.
  - unfold flags_counted. by rewrite Hmf, (flagged_set_ext g g').
  - intros m Hb Hmm. rewrite Hm in Hmm. unfold label_at. rewrite Hbtn by done.
    rewrite decide_True by done.
    by destruct (button_at_ok g m Hok Hb) as (b & -> & _).
  - intros q Hq Hnm He. rewrite Hm in Hnm. destruct (Hat q Hq) as [Heq _].
    rewrite Heq in He. unfold covers_ok in Hc. rewrite Forall_positions in Hc.
    specialize (Hc q Hq He). rewrite Hfl by done.
    unfold label_at in *. rewrite Hbtn by done. by rewrite decide_False.
  - exists p. rewrite Hm, <- Hset. f_equal.
    apply explored_set_ext. intros q Hq. by apply Hat.
Qed.

(** A selection in a game in play keeps what is shown, and when it posts
    a loss the selected cell is the one explored mine. *)
Lemma handle_selected_display (g : MineGrid) (p : Position) (action : SelectAction)
    (g' : MineGrid) :
  grid_ok g → in_bounds p → explored_set g ## mines g → posted g = [] →
  play_ok g → handle_selected g p action = Some g' →
  play_ok g'
  ∧ (posted g' = [GameEnd false] → explored_set g' ∩ mines g' = {[p]}).
Proof.
  intros Hok Hp Hdisj Hpost Hplay Hrun.
  destruct (handle_selected_focus g p action Hok Hp (proj1 Hplay))
    as (g0 & b0 & Hfocus & Hf0 & Hcur & Hb0 & Heq).
  rewrite Heq in Hrun. clear Heq.
  pose proof Hfocus as (Hok0 & Hm0 & _ & _ & _ & Hpost0 & _).
  assert (play_ok g0) as Hplay0
    by (apply (play_ok_marks g); [by apply same_marks_focus_moved|done..]).
  rewrite <- (focus_moved_explored_set g g0 Hfocus Hok), <- Hm0 in Hdisj.
  rewrite <- Hpost0 in Hpost.
  clear Hfocus Hm0 Hpost0 Hplay Hok g. 
  destruct (decide (action = OPEN ∧ flagged b0 = false)) as [HA|HA];
    [|destruct (decide (action = FLAG ∧ explored b0 = false)) as [[_ HB]|HB]].
  - split; [by apply (open_cell_play_ok enough_fuel g0 p)|]. intros Hloss.
    destruct (decide (p ∈ mines g0)) as [Hm|Hnm].
    + unfold enough_fuel in Hrun.
      destruct (explored_at g0 p) eqn:He.
      { exfalso. apply (Hdisj p); [|done]. by apply elem_of_explored_set. }
      destruct (open_cell_mine_facts _ g0 p g' Hok0 Hp Hm He Hrun)
        as (_ & Hm' & _ & _ & _ & _ & _ & Hset & _).
      rewrite Hset, Hm'. apply set_eq. intros q.
      rewrite elem_of_intersection, elem_of_union, !elem_of_singleton. split.
      * intros [[->|Hq] Hqm]; [done|]. exfalso. by apply (Hdisj q).
      * intros ->. split; [by left|done].
    + exfalso. destruct (open_cell_safe enough_fuel g0 p g' Hok0 Hp Hnm Hrun) as (Hs & _).
      destruct (os_posted _ _ _ Hs) as (new & Hnew & Hwins & _).
      rewrite Hpost in Hnew. simpl in Hnew. rewrite Hloss in Hnew. subst new.
      apply Forall_cons in Hwins as [Hw _]. done.
  - split; [by apply (flag_cell_play_ok g0 p b0)|]. intros Hloss. exfalso.
    rewrite (flag_cell_spec g0 p b0 Hb0) in Hrun. injection Hrun as <-.
    rewrite posted_set_button in Hloss. simpl in Hloss. congruence.
  - injection Hrun as <-. split; [done|]. intros Hloss. congruence.
Qed.


(** ** What is shown in a game played one selection at a time *)

(** With no mine explored and the winning count reached, every cell
    without a mine is explored. *)
Lemma cleared_all (g : MineGrid) :
  grid_sound g → explored_set g ## mines g →
  total_explored g = GRID_HEIGHT * GRID_WIDTH - MINES_AMOUNT →
  explored_set g = board ∖ mines g.
Proof.
  intros (_ & Hmines & Hsize & Hcount & _) Hdisj Ht.
  pose proof (mines_subseteq_board g Hmines) as Hsub.
  apply set_subseteq_size_eq.
  - intros q Hq. apply elem_of_difference. split.
    + by apply (explored_set_board g).
    + intros Hqm. by apply (Hdisj q).
  - rewrite size_difference by done. pose proof (subseteq_size _ _ Hsub) as Hle.
    rewrite size_board in *. unfold counter_ok in Hcount. lia.
Qed.

(** The wins of a queue, delivered to a won game. *)
Lemma deliver_wins (queue : list Message) (g : MineGrid) (face : Face)
    (app' : TermSweeperApp) :
  Forall (λ m, m = GameEnd true) queue → grid_sound g → won_ok g →
  for_each queue
    (λ app m,
       g ← end_game (mine_grid app) m;
       Some (handle_game_end (App g (restart_button_label app)) m))
    (App g face) = Some app' →
  won_ok (mine_grid app')
  ∧ (face = FACE_SUNGLASSES → restart_button_label app' = FACE_SUNGLASSES).
Proof.
  revert g face. induction queue as [|m queue IH]; intros g face Hwins Hsound Hw Hrun.
  - cbn [for_each] in Hrun. injection Hrun as <-. done.
  - apply Forall_cons in Hwins as [-> Hwins].
    cbn [for_each mine_grid restart_button_label] in Hrun.
    destruct (end_game_spec g true Hsound) as (g1 & Hend & Hsound1 & _).
    rewrite Hend in Hrun. change (Some g1 ≫= ?f) with (f g1) in Hrun. cbv beta in Hrun.
    cbn [handle_game_end mine_grid] in Hrun.
    pose proof Hsound as (Hok & Hmines & _).
    destruct (IH g1 FACE_SUNGLASSES Hwins Hsound1
                (end_game_won_again g g1 Hok Hmines Hend Hw) Hrun) as [Hw' Hface].
    split; [done|]. intros _. by apply Hface.
Qed.

(** What [deliver_posted] leaves on show, for each of the three outcomes
    of a selection. *)
Lemma deliver_posted_display (g : MineGrid) (p : Position) (app' : TermSweeperApp) :
  grid_sound g → selection_outcome g → play_ok g →
  (posted g = [GameEnd false] → explored_set g ∩ mines g = {[p]}) →
  deliver_posted (App g FACE_SMILING) = Some app' →
  display_ok app'.
Proof.
  intros Hsound Hout Hplay Hloss Hrun.
  unfold deliver_posted in Hrun. cbn [mine_grid restart_button_label] in Hrun.
  change (Grid (mines g) (buttons g) (total_explored g) (mines_flagged g)
               (current_cell g) (disabled g) []) with (emptied g) in Hrun.
  assert (grid_sound (emptied g)) as Hsound0 by exact Hsound.
  pose proof Hsound0 as (Hok0 & Hmines0 & _).
  assert (same_view g (emptied g)) as Hv by (by do 5 (split; [done|])).
  pose proof (play_ok_same_view g (emptied g) Hv Hplay) as Hplay0.
  destruct Hout as [(Hq & Hd & Ht)|[(Hq & Hw & Hd & Ht)|(Hq & Hd)]].
  - rewrite Hq in Hrun. cbn [for_each] in Hrun. injection Hrun as <-. exact Hplay0.
  - destruct (posted g) as [|m queue]; [done|].
    apply Forall_cons in Hw as [-> Hw].
    cbn [for_each mine_grid restart_button_label] in Hrun.
    destruct (end_game_spec (emptied g) true Hsound0) as (g1 & Hend & Hsound1 & _).
    rewrite Hend in Hrun. change (Some g1 ≫= ?f) with (f g1) in Hrun. cbv beta in Hrun.
    cbn [handle_game_end mine_grid] in Hrun.
    assert (won_ok g1) as Hw1.
    { apply (end_game_won (emptied g)); try done.
      change (explored_set g = board ∖ mines g). by apply cleared_all. }
    destruct (deliver_wins queue g1 FACE_SUNGLASSES app' Hw Hsound1 Hw1 Hrun)
      as [Hw' Hface].
    unfold display_ok. by rewrite (Hface eq_refl).
  - rewrite Hq in Hrun. cbn [for_each mine_grid restart_button_label] in Hrun.
    destruct (end_game_spec (emptied g) false Hsound0) as (g1 & Hend & _).
    rewrite Hend in Hrun. change (Some g1 ≫= ?f) with (f g1) in Hrun. cbv beta in Hrun.
    cbn [handle_game_end mine_grid] in Hrun. injection Hrun as <-.
    unfold display_ok. cbn [restart_button_label mine_grid].
    apply (end_game_lost (emptied g) g1 p); try done.
    change (explored_set g ∩ mines g = {[p]}). by apply Hloss.
Qed.

(** A selection keeps what is shown in keeping with the state of the
    game. *)
Lemma select_display (app : TermSweeperApp) (p : Position) (action : SelectAction)
    (app' : TermSweeperApp) :
  session_ok app → display_ok app → in_bounds p →
  select app p action = Some app' → display_ok app'.
Proof.
  intros Hs Hd Hp Hrun. unfold select in Hrun.
  destruct (disabled (mine_grid app)) eqn:Hdis; [by injection Hrun as <-|].
  destruct app as [g face]. simpl in *.
  destruct Hs as (Hsound & Hpost & Hface). simpl in *.
  destruct face; [|by destruct Hface; congruence..].
  destruct Hface as (_ & Hdisj & Htot). unfold display_ok in Hd. simpl in Hd.
  destruct (handle_selected_session g p action Hsound Hpost Hdis Hdisj Htot Hp)
    as (g' & Hsel & Hsound' & Hdis' & Hout).
  rewrite Hsel in Hrun. change (Some g' ≫= ?f) with (f g') in Hrun. cbv beta in Hrun.
  destruct (handle_selected_display g p action g' (proj1 Hsound) Hp Hdisj Hpost Hd Hsel)
    as [Hplay' Hloss].
  by apply (deliver_posted_display g' p).
Qed.

(** Each case of [action_move_cell_focus] sets the tracked cell to a cell
    of the grid, or does nothing. *)
Lemma action_move_cell_focus_set (g : MineGrid) (dir : string) :
  grid_ok g →
  ∃ value, in_bounds value
           ∧ (action_move_cell_focus g dir = set_current_cell g value
              ∨ action_move_cell_focus g dir = Some g).
Proof.
  intros Hok. destruct (grid_ok_current_cell g Hok) as [Hr Hc].
  unfold action_move_cell_focus.
  destruct (decide (dir = "left")); [|destruct (decide (dir = "right"));
    [|destruct (decide (dir = "up")); [|destruct (decide (dir = "down"))]]].
  5: { exists (current_cell g). split; [done|by right]. }
  all: eexists; (split; [|left; reflexivity]); split; simpl; lia.
Qed.

(** Moving the focus with the keys keeps what is shown. *)
Lemma action_move_cell_focus_display (app : TermSweeperApp) (dir : string)
    (g' : MineGrid) :
  grid_ok (mine_grid app) → display_ok app →
  action_move_cell_focus (mine_grid app) dir = Some g' →
  display_ok (App g' (restart_button_label app)).
Proof.
  destruct app as [g face]. simpl. intros Hok Hd Hrun.
  destruct (action_move_cell_focus_spec g dir Hok) as (g'' & Hrun' & Hfocus & _).
  assert (g'' = g') as -> by congruence. clear Hrun'.
  pose proof (same_marks_focus_moved g g' Hok Hfocus) as Hmarks.
  assert (focus_unique g → focus_unique g') as Hf.
  { intros Hf. destruct (action_move_cell_focus_set g dir Hok) as (v & Hv & [Heq|Heq]);
      rewrite Heq in Hrun.
    - apply (set_current_cell_focus g v); [done..|].
      intros q Hq Hne. by apply focus_unique_others.
    - by injection Hrun as <-. }
  unfold display_ok in *. simpl in *. destruct face.
  - apply (play_ok_marks g); [done|apply Hf, Hd|done].
  - apply (won_ok_marks g); [done|apply Hf, Hd|done].
  - apply (lost_ok_marks g); [done|apply Hf, Hd|done].
Qed.

(** A grid whose buttons are all as [MineButton.reset] leaves them, but
    for the focus on the tracked cell, and whose flag counter is zero. *)
Lemma fresh_play_ok (g : MineGrid) :
  mines_flagged g = 0 →
  (∀ q, in_bounds q →
        button_at g q = Some (Button q false false (bool_decide (q = current_cell g))
                                     CHAR_UNOPENED "white")) →
  play_ok g.
Proof.
  intros Hmf Hbtn. split; [|split; [|split]].
  - unfold focus_unique. rewrite Forall_positions. intros q Hq.
    unfold can_focus_at. by rewrite Hbtn.
  - unfold labels_ok. rewrite Forall_positions. intros q Hq He.
    unfold explored_at in He. by rewrite Hbtn in He.
  - unfold covers_ok. rewrite Forall_positions. intros q Hq _.
    unfold label_at, flagged_at. by rewrite Hbtn.
  - unfold flags_counted. rewrite Hmf.
    assert (flagged_set g = ∅) as ->; [|by rewrite size_empty].
    apply set_eq. intros q. rewrite elem_of_flagged_set.
    split; [|by intros ?%elem_of_empty]. intros [Hq Hf].
    unfold flagged_at in Hf. by rewrite Hbtn in Hf.
Qed.

Lemma app_reset_display (app : TermSweeperApp) (sample : list Z) (app' : TermSweeperApp) :
  grid_ok (mine_grid app) → app_reset app sample = Some app' → display_ok app'.
Proof.
  intros Hok Hrun. unfold app_reset in Hrun.
  destruct (reset_spec (mine_grid app) sample Hok)
    as (g' & Hreset & _ & _ & _ & Hmf & _ & Hcur & _ & Hbtn).
  rewrite Hreset in Hrun. injection Hrun as <-.
  unfold display_ok. simpl. apply fresh_play_ok; [done|].
  intros q Hq. by rewrite Hcur, Hbtn.
Qed.

Lemma start_display (sample : list Z) (app : TermSweeperApp) :
  start sample = Some app → display_ok app.
Proof.
  intros Hrun. unfold start, on_mount in Hrun.
  pose proof (grid_ok_new_grid sample) as Hok.
  destruct (set_current_cell_buttons (new_grid sample) (Pos 0 0) Hok)
    as (g & Hset & Hfocus & Hcur & Hbtn); [split; simpl; lia|].
  rewrite Hset in Hrun. injection Hrun as <-.
  unfold display_ok. simpl. apply fresh_play_ok.
  - destruct Hfocus as (_ & _ & _ & -> & _). done.
  - intros q Hq. rewrite (Hbtn q _ Hq (button_at_new_grid sample q Hq)), Hcur.
    change (current_cell (new_grid sample)) with (Pos 0 0).
    destruct (decide (q = Pos 0 0)) as [->|Hne].
    + by rewrite bool_decide_eq_true_2.
    + rewrite (bool_decide_eq_false_2 _ Hne). by destruct q.
Qed.

(** In every state of a game played one selection at a time, what is
    shown is in keeping with the state of the game. *)
Lemma runs_display_ok (app : TermSweeperApp) :
  MINES_AMOUNT < GRID_HEIGHT * GRID_WIDTH →
  runs app → display_ok app.
Proof.
  intros HM. induction 1 as [sample app Hsample Hstart
                            |app p action app' Hruns IH Hp Hsel
                            |app dir g' Hruns IH Hmove
                            |app sample app' Hruns IH Hsample Hreset].
  - by apply (start_display sample).
  - apply elem_of_all_positions in Hp.
    apply (select_display app p action); [by apply runs_session_ok|done..].
  - apply (action_move_cell_focus_display app dir g'); [|done..].
    apply (runs_session_ok app HM Hruns).
  - apply (app_reset_display app sample); [|done].
    apply (runs_session_ok app HM Hruns).
Qed.


(** ** Flags without limit *)

(** The grid at the start: every button as [MineButton.reset] leaves it,
    but for the focus on the first cell. *)
Lemma start_buttons (sample : list Z) (app : TermSweeperApp) :
  start sample = Some app →
  mines_flagged (mine_grid app) = 0 ∧ current_cell (mine_grid app) = Pos 0 0
  ∧ restart_button_label app = FACE_SMILING
  ∧ ∀ q, in_bounds q →
         button_at (mine_grid app) q
         = Some (Button q false false (bool_decide (q = Pos 0 0)) CHAR_UNOPENED "white").
Proof.
  intros Hrun. unfold start, on_mount in Hrun.
  pose proof (grid_ok_new_grid sample) as Hok.
  destruct (set_current_cell_buttons (new_grid sample) (Pos 0 0) Hok)
    as (g & Hset & Hfocus & Hcur & Hbtn); [split; simpl; lia|].
  rewrite Hset in Hrun. injection Hrun as <-. simpl.
  split; [by destruct Hfocus as (_ & _ & _ & -> & _)|]. split; [done|]. split; [done|].
  intros q Hq. rewrite (Hbtn q _ Hq (button_at_new_grid sample q Hq)).
  change (current_cell (new_grid sample)) with (Pos 0 0).
  destruct (decide (q = Pos 0 0)) as [->|Hne].
  - by rewrite bool_decide_eq_true_2.
  - rewrite (bool_decide_eq_false_2 _ Hne). by destruct q.
Qed.

(** A FLAG selection of an unexplored button in a game in play. *)
Lemma select_flag (app : TermSweeperApp) (p : Position) :
  session_ok app → restart_button_label app = FACE_SMILING →
  in_bounds p → explored_at (mine_grid app) p = false →
  ∃ app', select app p FLAG = Some app'
          ∧ restart_button_label app' = FACE_SMILING
          ∧ mines_flagged (mine_grid app')
            = mines_flagged (mine_grid app)
              + (if flagged_at (mine_grid app) p then -1 else 1)
          ∧ ∀ q, in_bounds q →
                 explored_at (mine_grid app') q = explored_at (mine_grid app) q
                 ∧ flagged_at (mine_grid app') q
                   = if decide (q = p) then negb (flagged_at (mine_grid app) p)
                     else flagged_at (mine_grid app) q.
Proof.
  destruct app as [g face]. simpl. intros (Hsound & Hpost & Hface) -> Hp He.
  simpl in *. destruct Hface as (Hdis & _). pose proof Hsound as (Hok & _).
  destruct (button_at_ok g p Hok Hp) as (b & Hb & Hpos).
  assert (explored b = false) as Heb by (unfold explored_at in He; by rewrite Hb in He).
  destruct (handle_selected_flag g p b Hok Hp Hb Heb)
    as (g0 & c & Hfocus & Hcur & Hb0 & Hsel).
  pose proof Hfocus as (Hok0 & _ & _ & _ & _ & Hpost0 & _).
  unfold select. cbn [mine_grid restart_button_label]. rewrite Hdis, Hsel.
  set (g1 := set_button p _ _).
  change (Some g1 ≫= ?f) with (f g1). cbv beta.
  unfold deliver_posted. cbn [mine_grid restart_button_label].
  assert (posted g1 = []) as -> by (unfold g1; rewrite posted_set_button; simpl; congruence).
  cbn [for_each]. eexists. split; [done|]. cbn [mine_grid restart_button_label].
  split; [done|].
  assert (flagged_at g p = flagged b) as Hfb by (unfold flagged_at; by rewrite Hb).
  split.
  { simpl. unfold g1. rewrite mines_flagged_set_button. simpl. rewrite Hfb.
    by destruct (flagged b). }
  intros q Hq.
  change (explored_at (Grid (mines g1) (buttons g1) (total_explored g1) (mines_flagged g1)
                            (current_cell g1) (disabled g1) []) q)
    with (explored_at g1 q).
  change (flagged_at (Grid (mines g1) (buttons g1) (total_explored g1) (mines_flagged g1)
                           (current_cell g1) (disabled g1) []) q)
    with (flagged_at g1 q).
  unfold explored_at at 1. unfold flagged_at at 1. unfold g1.
  rewrite (button_at_set_button (with_mines_flagged _ g0))
    by (try done; by apply grid_ok_dims).
  change (button_at (with_mines_flagged ?v g0) q) with (button_at g0 q).
  destruct (decide (q = p)) as [->|Hne].
  - simpl. rewrite He, Hfb. done.
  - split.
    + by apply (focus_moved_explored_at g g0).
    + by apply (focus_moved_flagged_at g g0).
Qed.

(** FLAG selections of pairwise different unflagged buttons of a game in
    which nothing is explored: each is counted. *)
Lemma flag_all_counts (ps : list Position) (app : TermSweeperApp) :
  MINES_AMOUNT < GRID_HEIGHT * GRID_WIDTH →
  NoDup ps → Forall in_bounds ps →
  runs app → restart_button_label app = FACE_SMILING →
  (∀ q, in_bounds q → explored_at (mine_grid app) q = false) →
  (∀ q, q ∈ ps → flagged_at (mine_grid app) q = false) →
  ∃ app', flag_all app ps = Some app' ∧ runs app'
          ∧ restart_button_label app' = FACE_SMILING
          ∧ mines_flagged (mine_grid app')
            = mines_flagged (mine_grid app) + Z.of_nat (length ps)
          ∧ ∀ q, in_bounds q →
                 explored_at (mine_grid app') q = false
                 ∧ flagged_at (mine_grid app') q
                   = (bool_decide (q ∈ ps) || flagged_at (mine_grid app) q).
Proof.
  intros HM. revert app.
  induction ps as [|p ps IH]; intros app Hnd Hin Hruns Hface He Hfl.
  - exists app. split; [done|]. split; [done|]. split; [done|].
    split; [simpl; lia|]. intros q Hq. split; [by apply He|].
    by rewrite bool_decide_eq_false_2 by (by intros ?%elem_of_nil).
  - apply NoDup_cons in Hnd as [Hp Hnd]. apply Forall_cons in Hin as [Hpb Hin].
    destruct (select_flag app p (runs_session_ok app HM Hruns) Hface Hpb (He p Hpb))
      as (app1 & Hsel & Hface1 & Hmf1 & Hat1).
    rewrite (Hfl p) in Hmf1, Hat1 by apply list_elem_of_here.
    assert (runs app1) as Hruns1.
    { apply (runs_select app p FLAG); [done| |done]. by apply elem_of_all_positions. }
    destruct (IH app1 Hnd Hin Hruns1 Hface1) as (app' & Hall & Hruns' & Hface' & Hmf' & Hat').
    { intros q Hq. destruct (Hat1 q Hq) as [-> _]. by apply He. }
    { intros q Hq. rewrite Forall_forall in Hin.
      destruct (Hat1 q (Hin q Hq)) as [_ ->].
      rewrite decide_False by (intros ->; done).
      apply Hfl. by apply list_elem_of_further. }
    exists app'. unfold flag_all in *. cbn [for_each]. rewrite Hsel.
    split; [exact Hall|]. split; [done|]. split; [done|].
    split; [rewrite Hmf', Hmf1; simpl length; lia|].
    intros q Hq. destruct (Hat' q Hq) as [He' ->]. split; [done|].
    destruct (Hat1 q Hq) as [_ ->].
    destruct (decide (q = p)) as [->|Hne].
    + simpl. rewrite orb_true_r.
      by rewrite (bool_decide_eq_true_2 (p ∈ p :: ps)) by apply list_elem_of_here.
    + f_equal. apply bool_decide_ext. rewrite elem_of_cons.
      split; [by right|by intros [?|?]].
Qed.


(** ** The text of the mine counter *)

Lemma format_0_right_3_digits (n : Z) :
  0 ≤ n ≤ 999 →
  format_0_right_3 n
  = String (digit_char (n `div` 100))
      (String (digit_char ((n `div` 10) `mod` 10))
         (String (digit_char (n `mod` 10)) EmptyString)).
Proof.
  intros Hn.
  assert (Forall (λ n, format_0_right_3 n
                       = String (digit_char (n `div` 100))
                           (String (digit_char ((n `div` 10) `mod` 10))
                              (String (digit_char (n `mod` 10)) EmptyString)))
                 (seqZ 0 1000)) as Hall
    by (apply (bool_decide_unpack _); by vm_compute).
  rewrite Forall_forall in Hall. apply Hall, elem_of_seqZ. lia.
Qed.

Lemma format_0_right_3_negative (n : Z) :
  -9 ≤ n ≤ -1 →
  format_0_right_3 n
  = String "0"%char (String "-"%char (String (digit_char (- n)) EmptyString)).
Proof.
  intros Hn.
  assert (Forall (λ k, format_0_right_3 (- k)
                       = String "0"%char
                           (String "-"%char (String (digit_char k) EmptyString)))
                 (seqZ 1 9)) as Hall
    by (apply (bool_decide_unpack _); by vm_compute).
  rewrite Forall_forall in Hall. specialize (Hall (- n)).
  rewrite Z.opp_involutive in Hall. apply Hall, elem_of_seqZ. lia.
Qed.


(** ** What each handler keeps, whatever the state it runs in *)

Lemma open_cell_shown (fuel : nat) (g : MineGrid) (p : Position) (g' : MineGrid) :
  grid_ok g → in_bounds p → open_cell fuel g p = Some g' →
  grid_ok g' ∧ mines g' = mines g ∧ (counter_ok g → counter_ok g')
  ∧ (focus_unique g → focus_unique g') ∧ (labels_ok g → labels_ok g')
  ∧ (covers_ok g → covers_ok g') ∧ (flags_counted g → flags_counted g').
Proof.
  intros Hok Hp Hrun.
  destruct (open_cell_facts fuel g p g' Hok Hp Hrun)
    as (Hok' & Hm & Hmf & Hcur & _ & _ & Hflags & Hframe & Htot & _).
  destruct (open_cell_view fuel g p g' Hok Hp Hrun) as (Hfocus & Hshow1 & Hshow2).
  split; [done|]. split; [done|]. split; [unfold counter_ok; lia|].
  split; [|split; [|split]].
  - by apply (focus_unique_ext g).
  - intros Hl. apply (labels_ok_ext g); [done| |by intros; apply Hshow2|done].
    intros q Hq He _ _. unfold label_at. by rewrite Hframe.
  - intros Hc. apply (covers_ok_ext g); [|done]. intros q Hq He'.
    pose proof (Hshow1 q Hq He') as Hb.
    unfold explored_at, label_at, flagged_at in *. rewrite Hb in He' |- *. done.
  - intros Hn. unfold flags_counted. rewrite Hmf, (flagged_set_ext g g'); done.
Qed.

Lemma flag_cell_shown (g : MineGrid) (p : Position) (b : MineButton) (g' : MineGrid) :
  grid_ok g → in_bounds p → button_at g p = Some b → position b = p →
  explored b = false → flag_cell g p = Some g' →
  grid_ok g' ∧ mines g' = mines g ∧ (counter_ok g → counter_ok g')
  ∧ (focus_unique g → focus_unique g') ∧ (labels_ok g → labels_ok g')
  ∧ (covers_ok g → covers_ok g') ∧ (flags_counted g → flags_counted g').
Proof.
  intros Hok Hp Hb Hpos Heb Hrun.
  rewrite (flag_cell_spec g p b Hb) in Hrun. injection Hrun as <-.
  set (v := mines_flagged g + (if negb (flagged b) then 1 else -1)).
  pose proof (grid_ok_dims g Hok) as Hd.
  assert (∀ q, in_bounds q →
               button_at (set_button p (MineButton.toggle_flagged b)
                            (with_mines_flagged v g)) q
               = if decide (q = p) then Some (MineButton.toggle_flagged b)
                 else button_at g q) as Hbtn.
  { intros q Hq. by rewrite (button_at_set_button (with_mines_flagged v g)). }
  split; [by apply (grid_ok_set_button (with_mines_flagged v g))|].
  split; [by rewrite mines_set_button|]. split; [|split; [|split; [|split]]].
  - unfold counter_ok. rewrite total_explored_set_button. simpl. intros ->.
    do 2 f_equal. apply explored_set_ext. intros q Hq. unfold explored_at.
    rewrite Hbtn by done. destruct (decide (q = p)) as [->|]; [|done].
    by rewrite Hb.
  - apply focus_unique_ext; [by rewrite current_cell_set_button|].
    intros q Hq. unfold can_focus_at. rewrite Hbtn by done.
    destruct (decide (q = p)) as [->|]; [by rewrite Hb|done].
  - apply labels_ok_ext; [by rewrite mines_set_button| |].
    + intros q Hq He _ _. unfold label_at. rewrite Hbtn by done.
      destruct (decide (q = p)) as [->|]; [|done].
      unfold explored_at in He. rewrite Hb in He. simpl in He. congruence.
    + intros q Hq _ He' He. exfalso. unfold explored_at in He', He.
      rewrite Hbtn in He' by done.
      destruct (decide (q = p)) as [->|]; [|congruence].
      simpl in He'. congruence.
  - intros Hc. unfold covers_ok in *. rewrite Forall_positions in Hc |- *.
    intros q Hq He.
    unfold explored_at, label_at, flagged_at in *. rewrite Hbtn in He |- * by done.
    destruct (decide (q = p)) as [->|]; [|by apply Hc].
    simpl. by destruct (flagged b).
  - intros Hn. unfold flags_counted in *.
    rewrite (flagged_set_flag g p b v Hok Hp Hb).
    rewrite mines_flagged_set_button. simpl. unfold v. lia.
Qed.

Lemma counter_ok_marks (g g' : MineGrid) :
  same_marks g g' → total_explored g' = total_explored g →
  counter_ok g → counter_ok g'.
Proof.
  intros Hs Ht. unfold counter_ok. by rewrite Ht, (same_marks_explored_set g g').
Qed.

(** [handle_selected], in whatever state it runs. *)
Lemma handle_selected_shown (g : MineGrid) (p : Position) (action : SelectAction)
    (g' : MineGrid) :
  grid_ok g → in_bounds p → focus_unique g →
  handle_selected g p action = Some g' →
  grid_ok g' ∧ mines g' = mines g ∧ (counter_ok g → counter_ok g')
  ∧ focus_unique g' ∧ (labels_ok g → labels_ok g')
  ∧ (covers_ok g → covers_ok g') ∧ (flags_counted g → flags_counted g').
Proof.
  intros Hok Hp Hf Hrun.
  destruct (handle_selected_focus g p action Hok Hp Hf)
    as (g0 & b0 & Hfocus & Hf0 & Hcur & Hb0 & Heq).
  rewrite Heq in Hrun. clear Heq.
  pose proof Hfocus as (Hok0 & Hm0 & Ht0 & _).
  pose proof (same_marks_focus_moved g g0 Hok Hfocus) as Hmarks.
  destruct (button_at_ok g0 p Hok0 Hp) as (b0' & Hb0' & Hpos0).
  assert (b0' = b0) as -> by congruence.
  assert (grid_ok g' ∧ mines g' = mines g0 ∧ (counter_ok g0 → counter_ok g')
          ∧ (focus_unique g0 → focus_unique g') ∧ (labels_ok g0 → labels_ok g')
          ∧ (covers_ok g0 → covers_ok g') ∧ (flags_counted g0 → flags_counted g'))
    as (Hok' & Hm' & Hc' & Hf' & Hl' & Hcov' & Hn').
  { destruct (decide (action = OPEN ∧ flagged b0 = false)) as [HA|HA];
      [|destruct (decide (action = FLAG ∧ explored b0 = false)) as [[_ HB]|HB]].
    - by apply (open_cell_shown enough_fuel g0 p).
    - by apply (flag_cell_shown g0 p b0).
    - injection Hrun as <-. done. }
  split; [done|]. split; [congruence|]. split; [|split; [|split; [|split]]].
  - intros Hc. by apply Hc', (counter_ok_marks g).
  - by apply Hf'.
  - intros Hl. by apply Hl', (labels_ok_marks g).
  - intros Hc. by apply Hcov', (covers_ok_marks g).
  - intros Hn. by apply Hn', (flags_counted_marks g).
Qed.

(** [end_game], in whatever state it runs: a win keeps the covers of the
    unexplored cells, a loss keeps the count of the flags. *)
Lemma end_game_shown (g : MineGrid) (win : bool) (g' : MineGrid) :
  grid_ok g → mines_ok g → end_game g (GameEnd win) = Some g' →
  grid_ok g' ∧ mines g' = mines g ∧ (counter_ok g → counter_ok g')
  ∧ (focus_unique g → focus_unique g') ∧ (labels_ok g → labels_ok g')
  ∧ (win = true → covers_ok g → covers_ok g')
  ∧ (win = false → flags_counted g → flags_counted g').
Proof.
  intros Hok Hmines Hrun.
  destruct (end_game_view g win g' Hok Hmines Hrun)
    as (Hok' & Hm & Ht & Hmf & Hcur & Hbtn).
  pose proof (λ q, end_game_explored_at g win g' q Hok Hmines Hrun) as Hat.
  split; [done|]. split; [done|]. split; [|split; [|split; [|split]]].
  - unfold counter_ok. rewrite Ht. intros ->. do 2 f_equal. symmetry.
    apply explored_set_ext. intros q Hq. by apply Hat.
  - apply focus_unique_ext; [done|]. intros q Hq. by apply Hat.
  - apply labels_ok_ext; [done| |].
    + intros q Hq _ Hnm _. unfold label_at. rewrite Hbtn by done.
      by rewrite decide_False.
    + intros q Hq _ He' He. destruct (Hat q Hq) as [Heq _]. congruence.
  - intros -> Hc. unfold covers_ok in *. rewrite Forall_positions in Hc |- *.
    intros q Hq He.
    destruct (Hat q Hq) as [Heq _]. rewrite Heq in He. specialize (Hc q Hq He).
    unfold label_at, flagged_at in *. rewrite Hbtn by done.
    case_decide; [|done]. destruct (button_at g q) as [b|]; [|done]. simpl in *.
    unfold reveal_button. destruct (flagged b) eqn:Hfb; simpl; [by rewrite Hfb|].
    unfold MineButton.toggle_flagged. simpl. by rewrite Hfb.
  - intros -> Hn. unfold flags_counted. rewrite Hmf, (flagged_set_ext g g'); [done|].
    intros q Hq. unfold flagged_at. rewrite Hbtn by done.
    case_decide; [|done]. by destruct (button_at g q).
Qed.

(** A key move, in whatever state it comes. *)
Lemma action_move_cell_focus_shown (g : MineGrid) (dir : string) (g' : MineGrid) :
  grid_ok g → action_move_cell_focus g dir = Some g' →
  grid_ok g' ∧ mines g' = mines g ∧ (counter_ok g → counter_ok g')
  ∧ (focus_unique g → focus_unique g') ∧ (labels_ok g → labels_ok g')
  ∧ (covers_ok g → covers_ok g') ∧ (flags_counted g → flags_counted g').
Proof.
  intros Hok Hrun.
  destruct (action_move_cell_focus_spec g dir Hok) as (g'' & Hrun' & Hfocus & _).
  assert (g'' = g') as -> by congruence. clear Hrun'.
  pose proof Hfocus as (Hok' & Hm & Ht & _).
  pose proof (same_marks_focus_moved g g' Hok Hfocus) as Hmarks.
  split; [done|]. split; [done|]. split; [by apply counter_ok_marks|].
  split; [|split; [by apply labels_ok_marks|
                   split; [by apply covers_ok_marks|by apply flags_counted_marks]]].
  intros Hf. destruct (action_move_cell_focus_set g dir Hok) as (v & Hv & [Heq|Heq]);
    rewrite Heq in Hrun.
  - apply (set_current_cell_focus g v); [done..|].
    intros q Hq Hne. by apply focus_unique_others.
  - by injection Hrun as <-.
Qed.

(** A grid with nothing explored, a zero counter and freshly drawn
    mines. *)
Lemma fresh_kept (g : MineGrid) (sample : list Z) :
  random_sample (range 0 (GRID_HEIGHT * GRID_WIDTH)) MINES_AMOUNT sample →
  grid_ok g → mines g = generate_mines sample → total_explored g = 0 →
  (∀ q, in_bounds q → explored_at g q = false) →
  grid_kept g.
Proof.
  intros Hsample Hok Hm Ht He.
  destruct (generate_mines_spec sample Hsample) as [Hsize Hin].
  split; [done|]. split; [|split; [by rewrite Hm|]].
  - unfold mines_ok. apply Forall_forall. intros m Hmm%elem_of_elements.
    apply elem_of_all_positions, Hin. by rewrite <- Hm.
  - unfold counter_ok. by rewrite Ht, (explored_set_empty g He), size_empty.
Qed.

Lemma start_kept (sample : list Z) (app : TermSweeperApp) :
  random_sample (range 0 (GRID_HEIGHT * GRID_WIDTH)) MINES_AMOUNT sample →
  start sample = Some app →
  grid_kept (mine_grid app) ∧ play_ok (mine_grid app)
  ∧ posted (mine_grid app) = [] ∧ disabled (mine_grid app) = false.
Proof.
  intros Hsample Hstart.
  destruct (start_buttons sample app Hstart) as (Hmf & Hcur & _ & Hbtn).
  unfold start, on_mount in Hstart.
  pose proof (grid_ok_new_grid sample) as Hok.
  destruct (set_current_cell_spec (new_grid sample) (Pos 0 0) Hok)
    as (g & Hset & Hfocus & _); [split; simpl; lia|].
  rewrite Hset in Hstart. injection Hstart as <-. simpl in *.
  pose proof Hfocus as (Hok' & Hm & Ht & _ & Hdis & Hpost & _).
  split; [|split; [|done]].
  - apply (fresh_kept g sample); [done..|].
    intros q Hq. unfold explored_at. by rewrite Hbtn.
  - apply fresh_play_ok; [done|]. intros q Hq. by rewrite Hcur, Hbtn.
Qed.

Lemma app_reset_kept (app : TermSweeperApp) (sample : list Z) (app' : TermSweeperApp) :
  random_sample (range 0 (GRID_HEIGHT * GRID_WIDTH)) MINES_AMOUNT sample →
  grid_ok (mine_grid app) → app_reset app sample = Some app' →
  grid_kept (mine_grid app') ∧ play_ok (mine_grid app').
Proof.
  intros Hsample Hok Hrun. unfold app_reset in Hrun.
  destruct (reset_spec (mine_grid app) sample Hok)
    as (g' & Hreset & Hok' & Hm & Ht & Hmf & _ & Hcur & _ & Hbtn).
  rewrite Hreset in Hrun. injection Hrun as <-. simpl. split.
  - apply (fresh_kept g' sample); [done..|].
    intros q Hq. unfold explored_at. by rewrite Hbtn.
  - apply fresh_play_ok; [done|]. intros q Hq. by rewrite Hcur, Hbtn.
Qed.

(** In every state, whatever the order of handling: the grid is as every
    handler keeps it, the tracked cell is the only focusable one, and the
    explored cells without a mine show their counts; the unexplored cells
    show their covers as long as no loss has been handled, and the flags
    are counted as long as no win has been. *)
Lemma scheduled_inv (ended up : list Message) (app : TermSweeperApp) :
  scheduled ended up app →
  grid_kept (mine_grid app) ∧ focus_unique (mine_grid app)
  ∧ labels_ok (mine_grid app)
  ∧ (GameEnd false ∉ ended → covers_ok (mine_grid app))
  ∧ (GameEnd true ∉ ended → flags_counted (mine_grid app)).
Proof.
  induction 1 as [sample app Hsample Hstart
                 |ended up app p action g' _ IH Hp Hsel
                 |ended up app m rest g' _ IH Hpost Hend
                 |ended up app m _ IH
                 |ended up app dir g' _ IH Hmove
                 |ended up app sample app' _ IH Hsample Hreset].
  - destruct (start_kept sample app Hsample Hstart) as (Hk & (Hf & Hl & Hc & Hn) & _).
    done.
  - destruct IH as ((Hok & Hmines & Hsize & Hcount) & Hf & Hl & Hc & Hn).
    apply elem_of_all_positions in Hp.
    destruct (handle_selected_shown _ p action g' Hok Hp Hf Hsel)
      as (Hok' & Hm' & Hcount' & Hf' & Hl' & Hc' & Hn').
    cbn [mine_grid]. split; [|split; [done|split; [by apply Hl'|split]]].
    + split; [done|]. split; [unfold mines_ok; by rewrite Hm'|].
      split; [by rewrite Hm'|by apply Hcount'].
    + intros Hno. by apply Hc', Hc.
    + intros Hno. by apply Hn', Hn.
  - destruct IH as ((Hok & Hmines & Hsize & Hcount) & Hf & Hl & Hc & Hn).
    destruct m as [win].
    destruct (end_game_shown (with_posted rest (mine_grid app)) win g' Hok Hmines Hend)
      as (Hok' & Hm' & Hcount' & Hf' & Hl' & Hc' & Hn').
    change (mines (with_posted rest (mine_grid app))) with (mines (mine_grid app)) in Hm'.
    cbn [mine_grid]. split; [|split; [by apply Hf'|split; [by apply Hl'|split]]].
    + split; [done|]. split; [unfold mines_ok; by rewrite Hm'|].
      split; [by rewrite Hm'|by apply Hcount'].
    + intros Hno. rewrite elem_of_app, list_elem_of_singleton in Hno.
      destruct win; [|by destruct Hno; right].
      apply Hc'; [done|]. apply Hc. intros ?. apply Hno. by left.
    + intros Hno. rewrite elem_of_app, list_elem_of_singleton in Hno.
      destruct win; [by destruct Hno; right|].
      apply Hn'; [done|]. apply Hn. intros ?. apply Hno. by left.
  - by destruct m.
  - destruct IH as ((Hok & Hmines & Hsize & Hcount) & Hf & Hl & Hc & Hn).
    destruct (action_move_cell_focus_shown _ dir g' Hok Hmove)
      as (Hok' & Hm' & Hcount' & Hf' & Hl' & Hc' & Hn').
    cbn [mine_grid]. split; [|split; [by apply Hf'|split; [by apply Hl'|split]]].
    + split; [done|]. split; [unfold mines_ok; by rewrite Hm'|].
      split; [by rewrite Hm'|by apply Hcount'].
    + intros Hno. by apply Hc', Hc.
    + intros Hno. by apply Hn', Hn.
  - destruct IH as ((Hok & _) & _).
    destruct (app_reset_kept app sample app' Hsample Hok Hreset)
      as (Hk & (Hf & Hl & Hc & Hn)).
    done.
Qed.


(** ** One selection at a time is one of the orders *)

Lemma set_button_with_posted (p : Position) (b : MineButton) (v : list Message)
    (g : MineGrid) :
  set_button p b (with_posted v g) = with_posted v (set_button p b g).
Proof. unfold set_button. simpl. by case_match. Qed.

Lemma for_each_with_posted {A} (l : list A) (body : MineGrid → A → option MineGrid)
    (v : list Message) :
  (∀ g x, body (with_posted v g) x = with_posted v <$> body g x) →
  ∀ g, for_each l body (with_posted v g) = with_posted v <$> for_each l body g.
Proof.
  intros Hbody. induction l as [|x l IH]; intros g; cbn [for_each]; [done|].
  rewrite Hbody. destruct (body g x) as [g1|]; simpl; [apply IH|done].
Qed.

(** [end_game] neither reads nor writes the queue. *)
Lemma end_game_with_posted (v : list Message) (g : MineGrid) (m : Message) :
  end_game (with_posted v g) m = with_posted v <$> end_game g m.
Proof.
  destruct m as [win]. unfold end_game, reveal_mines.
  change (mines (with_disabled true (with_posted v g)))
    with (mines (with_disabled true g)).
  change (with_disabled true (with_posted v g))
    with (with_posted v (with_disabled true g)).
  apply for_each_with_posted. intros g0 x.
  change (button_at (with_posted v g0) x) with (button_at g0 x).
  destruct win; destruct (button_at g0 x) as [b|]; simpl; try done.
  - destruct (flagged b); simpl; [done|]. by rewrite set_button_with_posted.
  - by rewrite set_button_with_posted.
Qed.

Lemma with_posted_same (g : MineGrid) (v : list Message) :
  posted g = v → with_posted v g = g.
Proof. intros <-. by destruct g. Qed.

(** The deliveries of [deliver_posted], one by one. *)
Lemma deliver_scheduled (queue : list Message) :
  ∀ ended g face app',
    scheduled ended [] (App g face) → posted g = queue →
    for_each queue
      (λ app m,
         g ← end_game (mine_grid app) m;
         Some (handle_game_end (App g (restart_button_label app)) m))
      (App (with_posted [] g) face) = Some app' →
    ∃ ended', scheduled ended' [] app'.
Proof.
  induction queue as [|m rest IH]; intros ended g face app' Hs Hpost Hrun.
  - cbn [for_each] in Hrun. injection Hrun as <-.
    rewrite (with_posted_same g [] Hpost). by exists ended.
  - cbn [for_each mine_grid restart_button_label] in Hrun.
    rewrite end_game_with_posted in Hrun.
    destruct (end_game g m) as [g1|] eqn:Hend; [|done]. simpl in Hrun.
    pose proof (scheduled_game_end ended [] (App g face) m rest (with_posted rest g1) Hs
                  Hpost) as Hs1.
    cbn [mine_grid restart_button_label] in Hs1.
    rewrite end_game_with_posted, Hend in Hs1. specialize (Hs1 eq_refl).
    apply scheduled_bubble in Hs1.
    apply (IH (ended ++ [m]) (with_posted rest g1)
              (restart_button_label (handle_game_end (App g1 face) m)) app').
    + by destruct m.
    + done.
    + by destruct m.
Qed.

Lemma reachable_runs (app : TermSweeperApp) : reachable app → runs app.
Proof.
  induction 1 as [sample app Hsample Hstart
                 |app p action app' _ IH Hp Hsel
                 |app sample app' _ IH Hsample Hreset].
  - by apply (runs_start sample).
  - by apply (runs_select app p action).
  - by apply (runs_reset app sample).
Qed.

(** Every state of a game played one selection at a time is a state of
    the program, with nothing on its way to the application. *)
Lemma runs_scheduled (app : TermSweeperApp) :
  runs app → ∃ ended, scheduled ended [] app.
Proof.
  induction 1 as [sample app Hsample Hstart
                 |app p action app' _ [ended IH] Hp Hsel
                 |app dir g' _ [ended IH] Hmove
                 |app sample app' _ [ended IH] Hsample Hreset].
  - exists []. by apply (scheduled_start sample).
  - unfold select in Hsel.
    destruct (disabled (mine_grid app)); [injection Hsel as <-; by exists ended|].
    destruct (handle_selected (mine_grid app) p action) as [g1|] eqn:Hh; [|done].
    simpl in Hsel. unfold deliver_posted in Hsel.
    cbn [mine_grid restart_button_label] in Hsel.
    apply (deliver_scheduled (posted g1) ended g1 (restart_button_label app) app');
      [|done|exact Hsel].
    by apply (scheduled_selected ended [] app p action).
  - exists ended. by apply (scheduled_move ended [] app dir).
  - exists []. by apply (scheduled_reset ended [] app sample).
Qed.

Lemma runs_any_order (app : TermSweeperApp) : runs app → any_order app.
Proof. intros [ended Hs]%runs_scheduled. by exists ended, []. Qed.

End Game.

(** * The properties of the board engine *)

(** C1. Opening an unexplored cell that counts no mine around it returns,
    and afterwards every neighbour of the cell (3x3 block cut at the
    edges) is explored, and so is the whole region reached from the cell
    through cells that count no mine, on every grid that is closed under
    the flood (as the grids of a run are). On the 3x3 board whose single
    mine is at (0,0), opening (2,2) explores every cell but the mine in
    that one call, brings [total_explored] to [3*3 - 1], posts the win,
    and the application shows the winning face. *)
Theorem open_cell_floods_zero_region :
  (∀ (W H M : Z) (g : MineGrid) (p : Position),
     0 < W → 0 < H →
     grid_ok W H g → flood_closed W H g → in_bounds W H p →
     explored_at g p = false → count_mines_near g p = 0 →
     ∃ g', open_cell W H M (enough_fuel W H) g p = Some g'
           ∧ (∀ q, q ∈ neighbours W H p → explored_at g' q = true)
           ∧ (∀ q, zero_region W H g p q → explored_at g' q = true)
           ∧ flood_closed W H g')
  ∧ (let g := new_grid 3 3 [0] in
     elements (mines g) = [Pos 0 0]
     ∧ ∃ g', open_cell 3 3 1 (enough_fuel 3 3) g (Pos 2 2) = Some g'
             ∧ (λ r : list MineButton, explored <$> r) <$> buttons g'
               = [[false; true; true]; [true; true; true]; [true; true; true]]
             ∧ total_explored g' = 3 * 3 - 1
             ∧ GameEnd true ∈ posted g'
             ∧ ∃ app app', start 3 3 [0] = Some app
                           ∧ select 3 3 1 app (Pos 2 2) OPEN = Some app'
                           ∧ restart_button_label app' = FACE_SUNGLASSES).
Proof.
  split.
  - intros W H M g p HW HH Hok Hclosed Hp He Hzero.
    assert (p ∉ mines g) as Hnm.
    { apply (count_zero_no_mine g p); [done|]. apply elem_of_square. lia. }
    destruct (open_cell_terminates W H M HW HH g p Hok Hp) as [g' Hrun].
    destruct (open_cell_safe W H M HW HH _ g p g' Hok Hp Hnm Hrun)
      as (Hs & Hep & _ & _ & Hblock).
    assert (flood_closed W H g') as Hclosed'
      by (by apply (os_closed _ _ _ _ _ _ Hs)).
    exists g'. split; [done|]. split; [|split; [|done]].
    + intros q [Hq _]%elem_of_neighbours. by apply Hblock.
    + assert (∀ q, zero_region W H g p q → in_bounds W H q ∧ explored_at g' q = true)
        as Hregion; [|intros q Hq; by apply Hregion].
      induction 1 as [|z q Hz [Hzb Hze] Hcount Hq]; [done|].
      apply elem_of_neighbours in Hq as [Hq _].
      split; [by apply elem_of_block in Hq as [? _]|].
      apply (flood_closed_but_elim W H HW HH [] g' z q); try done.
      * rewrite (count_mines_near_mines g g'); [done|]. apply Hs.
      * apply not_elem_of_nil.
  - cbv zeta. split; [by vm_compute|].
    eexists. split; [by vm_compute|]. split; [by vm_compute|].
    split; [by vm_compute|]. split; [apply list_elem_of_In; vm_compute; tauto|].
    eexists _, _. split; [by vm_compute|]. split; by vm_compute.
Qed.

Lemma open_cell_floods_zero_region_witness :
  let g := new_grid 3 3 [0] in
  let p := Pos 2 2 in
  (grid_ok 3 3 g ∧ flood_closed 3 3 g ∧ in_bounds 3 3 p
   ∧ explored_at g p = false ∧ count_mines_near g p = 0)
  ∧ ∃ g', open_cell 3 3 1 (enough_fuel 3 3) g p = Some g'
          ∧ (∀ q, q ∈ neighbours 3 3 p → explored_at g' q = true)
          ∧ (∀ q, zero_region 3 3 g p q → explored_at g' q = true)
          ∧ flood_closed 3 3 g'.
Proof.
  cbv zeta.
  assert (grid_ok 3 3 (new_grid 3 3 [0])) as Hok
    by (unfold grid_ok; apply (bool_decide_unpack _); by vm_compute).
  assert (flood_closed 3 3 (new_grid 3 3 [0])) as Hclosed
    by (unfold flood_closed, flood_closed_but; apply (bool_decide_unpack _); by vm_compute).
  assert (in_bounds 3 3 (Pos 2 2)) as Hp by (unfold in_bounds; simpl; lia).
  split; [done|].
  apply (proj1 open_cell_floods_zero_region 3 3 1 (new_grid 3 3 [0]) (Pos 2 2));
    [lia|lia|done|done|done|reflexivity|reflexivity].
Defined.

(** C4, as the code has it. On a board whose mines are all on the grid,
    [count_mines_near] of a position of the grid is the number of mines
    among its up-to-8 neighbours (3x3 block cut at the edges, the position
    left out) when the position is not a mine, and one more when it is:
    the loops do not skip the position itself. The count reads the mine
    set only. *)
Theorem count_mines_near_counts_neighbours_and_self
    (W H : Z) (g : MineGrid) (pos : Position) :
  0 < W → 0 < H → mines_ok W H g → in_bounds W H pos →
  count_mines_near g pos
  = adjacent_mine_count W H (mines g) pos + (if decide (pos ∈ mines g) then 1 else 0)
  ∧ (pos ∉ mines g → count_mines_near g pos = adjacent_mine_count W H (mines g) pos)
  ∧ (∀ g', mines g' = mines g → count_mines_near g' pos = count_mines_near g pos).
Proof.
  intros HW HH Hmines Hpos.
  pose proof (count_mines_near_spec W H HW HH g pos Hmines Hpos) as Hc.
  split; [done|]. split.
  - intros Hnm. rewrite Hc, decide_False by done. lia.
  - intros g' Hm. by apply count_mines_near_mines.
Qed.

Lemma count_mines_near_counts_neighbours_and_self_witness :
  let g := new_grid 3 3 [4] in
  let pos := Pos 0 0 in
  (mines_ok 3 3 g ∧ in_bounds 3 3 pos)
  ∧ count_mines_near g pos
    = adjacent_mine_count 3 3 (mines g) pos + (if decide (pos ∈ mines g) then 1 else 0)
  ∧ (pos ∉ mines g → count_mines_near g pos = adjacent_mine_count 3 3 (mines g) pos)
  ∧ (∀ g', mines g' = mines g → count_mines_near g' pos = count_mines_near g pos).
Proof.
  cbv zeta.
  assert (mines_ok 3 3 (new_grid 3 3 [4])) as Hm
    by (unfold mines_ok; apply (bool_decide_unpack _); by vm_compute).
  assert (in_bounds 3 3 (Pos 0 0)) as Hp by (unfold in_bounds; simpl; lia).
  split; [done|].
  apply (count_mines_near_counts_neighbours_and_self 3 3); [lia|lia|done|done].
Defined.

(** C4 as stated fails on a mine: with the single mine of a 3x3 board at
    (0,0), that position has no mine among its neighbours, and
    [count_mines_near] returns 1 for it. *)
Lemma count_mines_near_counts_the_cell_itself :
  let g := new_grid 3 3 [0] in
  in_bounds 3 3 (Pos 0 0)
  ∧ adjacent_mine_count 3 3 (mines g) (Pos 0 0) = 0
  ∧ count_mines_near g (Pos 0 0) = 1
  ∧ count_mines_near g (Pos 0 0) ≠ adjacent_mine_count 3 3 (mines g) (Pos 0 0).
Proof.
  cbv zeta. split; [unfold in_bounds; simpl; lia|].
  split; [by vm_compute|]. split; [by vm_compute|]. by vm_compute.
Qed.

(** C7. When [0 < M < W*H], [random.sample] has a result, and for every
    result the generated mine set has exactly [M] positions, each with its
    row in [0,H) and its column in [0,W); a new grid has that set as its
    mines. *)
Theorem generate_mines_count_and_bounds (W H M : Z) :
  0 < W → 0 < H → 0 < M < W * H →
  (∃ sample, random_sample (range 0 (H * W)) M sample)
  ∧ ∀ sample, random_sample (range 0 (H * W)) M sample →
      Z.of_nat (size (generate_mines W sample)) = M
      ∧ (∀ m, m ∈ generate_mines W sample → 0 ≤ row m < H ∧ 0 ≤ col m < W)
      ∧ mines (new_grid W H sample) = generate_mines W sample.
Proof.
  intros HW HH HM. split.
  - exists (range 0 M). apply random_sample_exists. lia.
  - intros sample Hs.
    destruct (generate_mines_spec W H M HW HH sample Hs) as [Hsize Hin].
    split; [done|]. split; [|done]. intros m Hm. by apply Hin.
Qed.

Lemma generate_mines_count_and_bounds_witness :
  (0 < 3 ∧ 0 < 2 < 3 * 3)
  ∧ (∃ sample, random_sample (range 0 (3 * 3)) 2 sample)
  ∧ ∀ sample, random_sample (range 0 (3 * 3)) 2 sample →
      Z.of_nat (size (generate_mines 3 sample)) = 2
      ∧ (∀ m, m ∈ generate_mines 3 sample → 0 ≤ row m < 3 ∧ 0 ≤ col m < 3)
      ∧ mines (new_grid 3 3 sample) = generate_mines 3 sample.
Proof.
  split; [lia|]. apply (generate_mines_count_and_bounds 3 3 2); lia.
Defined.

(** C6, as the code has it. A call of [open_cell] on a button of the grid
    returns. The calls that get past the [explored] test are on pairwise
    different cells, each unexplored before the call and explored after
    it, so there are at most [W*H] of them; every other call is on an
    explored cell and returns at the test. In all there are at most one
    call plus nine per newly explored cell. *)
Theorem open_cell_reveals_each_cell_once (W H M : Z) (g : MineGrid) (p : Position) :
  0 < W → 0 < H → grid_ok W H g → in_bounds W H p →
  ∃ g' calls,
    open_cell W H M (enough_fuel W H) g p = Some g'
    ∧ open_cell_calls W H M (enough_fuel W H) g p = Some (g', calls)
    ∧ NoDup (revealed calls)
    ∧ (∀ q, q ∈ revealed calls →
            in_bounds W H q ∧ explored_at g q = false ∧ explored_at g' q = true)
    ∧ Z.of_nat (length (revealed calls)) ≤ W * H
    ∧ Z.of_nat (length calls) ≤ 1 + 9 * Z.of_nat (length (revealed calls))
    ∧ (explored_at g p = true → g' = g ∧ calls = [(p, false)]).
Proof.
  intros HW HH Hok Hp.
  destruct (open_cell_terminates W H M HW HH g p Hok Hp) as [g' Hrun].
  pose proof (open_cell_calls_state W H M (enough_fuel W H) g p) as Hst.
  rewrite Hrun in Hst.
  destruct (open_cell_calls W H M (enough_fuel W H) g p) as [[g2 calls]|] eqn:Hcalls;
    [|done].
  simpl in Hst. injection Hst as ->.
  exists g', calls. do 2 (split; [done|]).
  destruct (button_at_ok W H HW HH g p Hok Hp) as (b & Hb & Hpos).
  assert (explored_at g p = explored b) as Hep by (unfold explored_at; by rewrite Hb).
  assert (NoDup (revealed calls)
          ∧ (∀ q, q ∈ revealed calls →
                  in_bounds W H q ∧ explored_at g q = false ∧ explored_at g' q = true)
          ∧ Z.of_nat (length calls) ≤ 1 + 9 * Z.of_nat (length (revealed calls)))
    as (Hnd & Hrev & Hlen).
  { destruct (decide (p ∈ mines g)) as [Hm|Hnm];
      [|by apply (open_cell_calls_safe W H M HW HH (enough_fuel W H) g p g' calls)].
    unfold enough_fuel in Hcalls, Hrun. destruct (explored b) eqn:He.
    - rewrite (open_cell_calls_explored W H M _ _ _ b) in Hcalls by done.
      injection Hcalls as <- <-. rewrite revealed_cons_false.
      split; [constructor|]. split; [|simpl; lia].
      intros q Hq. by apply elem_of_nil in Hq.
    - rewrite (open_cell_calls_mine W H M _ _ _ b) in Hcalls by done.
      injection Hcalls as _ <-. rewrite revealed_cons_true.
      split; [apply NoDup_singleton|]. split; [|simpl; lia].
      intros q ->%list_elem_of_singleton. split; [done|]. split; [done|].
      by apply (open_cell_facts W H M HW HH (S (Z.to_nat (H * W))) g p g'). }
  do 2 (split; [done|]). split; [|split; [done|]].
  - assert (revealed calls ⊆+ all_positions W H) as Hsub.
    { apply NoDup_submseteq; [done|]. intros q Hq.
      apply elem_of_all_positions; [done..|]. by apply Hrev. }
    apply submseteq_length in Hsub. rewrite length_all_positions in Hsub. nia.
  - intros He. unfold enough_fuel in Hcalls.
    rewrite (open_cell_calls_explored W H M _ _ _ b) in Hcalls by congruence.
    by injection Hcalls as <- <-.
Qed.

Lemma open_cell_reveals_each_cell_once_witness :
  let g := new_grid 3 3 [0] in
  let p := Pos 2 2 in
  (grid_ok 3 3 g ∧ in_bounds 3 3 p)
  ∧ ∃ g' calls,
      open_cell 3 3 1 (enough_fuel 3 3) g p = Some g'
      ∧ open_cell_calls 3 3 1 (enough_fuel 3 3) g p = Some (g', calls)
      ∧ NoDup (revealed calls)
      ∧ (∀ q, q ∈ revealed calls →
              in_bounds 3 3 q ∧ explored_at g q = false ∧ explored_at g' q = true)
      ∧ Z.of_nat (length (revealed calls)) ≤ 3 * 3
      ∧ Z.of_nat (length calls) ≤ 1 + 9 * Z.of_nat (length (revealed calls))
      ∧ (explored_at g p = true → g' = g ∧ calls = [(p, false)]).
Proof.
  cbv zeta.
  assert (grid_ok 3 3 (new_grid 3 3 [0])) as Hok
    by (unfold grid_ok; apply (bool_decide_unpack _); by vm_compute).
  assert (in_bounds 3 3 (Pos 2 2)) as Hp by (unfold in_bounds; simpl; lia).
  split; [done|].
  apply (open_cell_reveals_each_cell_once 3 3 1); [lia|lia|done|done].
Defined.

(** C6 as stated fails on the number of calls and on revisiting: on the
    3x3 board with its mine at (0,0), opening (2,2) makes 25 calls of
    [open_cell] for 9 cells, 8 of them past the [explored] test, and one
    of the others is on (2,2) again. *)
Lemma open_cell_calls_exceed_the_cells :
  let g := new_grid 3 3 [0] in
  ∃ g' calls,
    open_cell_calls 3 3 1 (enough_fuel 3 3) g (Pos 2 2) = Some (g', calls)
    ∧ length calls = 25%nat
    ∧ ¬ (Z.of_nat (length calls) ≤ 3 * 3)
    ∧ length (revealed calls) = 8%nat
    ∧ (Pos 2 2, false) ∈ calls.
Proof.
  cbv zeta. eexists _, _. split; [by vm_compute|].
  split; [by vm_compute|]. split; [vm_compute; by intros H; apply H|].
  split; [by vm_compute|]. apply list_elem_of_In. vm_compute. tauto.
Qed.

(** C9. Opening a cell that is already explored changes nothing:
    [open_cell] returns the state it was given. So a call of [open_cell]
    on the cell it has just opened returns that state unchanged (the
    button, [total_explored] and everything else), and so does a second
    OPEN selection of the same button. *)
Theorem second_open_is_noop (W H M : Z) (g : MineGrid) (p : Position) :
  0 < W → 0 < H → grid_ok W H g → in_bounds W H p →
  (explored_at g p = true → ∀ fuel, open_cell W H M (S fuel) g p = Some g)
  ∧ (∀ fuel fuel' g1,
       open_cell W H M fuel g p = Some g1 →
       explored_at g1 p = true ∧ open_cell W H M (S fuel') g1 p = Some g1)
  ∧ ∃ g1, handle_selected W H M g p OPEN = Some g1
          ∧ handle_selected W H M g1 p OPEN = Some g1.
Proof.
  intros HW HH Hok Hp.
  assert (∀ g0, grid_ok W H g0 → explored_at g0 p = true →
                ∀ fuel, open_cell W H M (S fuel) g0 p = Some g0) as Hnoop.
  { intros g0 Hok0 He fuel.
    destruct (button_at_ok W H HW HH g0 p Hok0 Hp) as (b & Hb & _).
    apply (open_cell_explored W H M _ _ _ b); [done|].
    unfold explored_at in He. by rewrite Hb in He. }
  split; [by apply Hnoop|]. split.
  - intros fuel fuel' g1 Hrun.
    destruct (open_cell_facts W H M HW HH fuel g p g1 Hok Hp Hrun)
      as (Hok1 & _ & _ & _ & _ & He1 & _).
    split; [done|]. by apply Hnoop.
  - destruct (handle_selected_spec W H M HW HH g p OPEN Hok Hp)
      as (g0 & b0 & Hfocus & Hcur & Hb0 & Hsel).
    pose proof Hfocus as (Hok0 & _).
    destruct (button_at_ok W H HW HH g0 p Hok0 Hp) as (b0' & Hb0' & Hpos0).
    assert (b0' = b0) as -> by congruence.
    destruct (flagged b0) eqn:Hflag.
    + rewrite decide_False in Hsel by (intros [_ ?]; done).
      rewrite decide_False in Hsel by (intros [? _]; done).
      exists g0. split; [done|].
      rewrite (handle_selected_focused W H M g0 p b0) by congruence.
      rewrite decide_False by (intros [_ ?]; congruence).
      by rewrite decide_False by (intros [? _]; done).
    + rewrite decide_True in Hsel by done.
      destruct (open_cell_terminates W H M HW HH g0 p Hok0 Hp) as [g1 Hrun].
      exists g1. split; [congruence|].
      destruct (open_cell_facts W H M HW HH _ g0 p g1 Hok0 Hp Hrun)
        as (Hok1 & _ & _ & Hcur1 & _ & He1 & Hflags & _).
      destruct (button_at_ok W H HW HH g1 p Hok1 Hp) as (b1 & Hb1 & Hpos1).
      rewrite (handle_selected_focused W H M g1 p b1) by congruence.
      specialize (Hflags p Hp). unfold flagged_at in Hflags.
      rewrite Hb1, Hb0 in Hflags. simpl in Hflags.
      rewrite decide_True by (split; congruence).
      unfold enough_fuel. by apply Hnoop.
Qed.

Lemma second_open_is_noop_witness :
  let g := new_grid 3 3 [0; 8] in
  let p := Pos 1 1 in
  (grid_ok 3 3 g ∧ in_bounds 3 3 p)
  ∧ (explored_at g p = true → ∀ fuel, open_cell 3 3 2 (S fuel) g p = Some g)
  ∧ (∀ fuel fuel' g1,
       open_cell 3 3 2 fuel g p = Some g1 →
       explored_at g1 p = true ∧ open_cell 3 3 2 (S fuel') g1 p = Some g1)
  ∧ ∃ g1, handle_selected 3 3 2 g p OPEN = Some g1
          ∧ handle_selected 3 3 2 g1 p OPEN = Some g1.
Proof.
  cbv zeta.
  assert (grid_ok 3 3 (new_grid 3 3 [0; 8])) as Hok
    by (unfold grid_ok; apply (bool_decide_unpack _); by vm_compute).
  assert (in_bounds 3 3 (Pos 1 1)) as Hp by (unfold in_bounds; simpl; lia).
  split; [done|].
  apply (second_open_is_noop 3 3 2); [lia|lia|done|done].
Defined.

(** C10. Within a call of [open_cell] the loss is posted exactly when the
    cell the call was made on is an unexplored mine; every other cell
    that the call explores (the flood) has no mine; and a call on an
    unexplored mine posts the loss and nothing else, explores that one
    cell, and leaves every other button as it was. *)
Theorem loss_only_from_the_selected_cell
    (W H M : Z) (fuel : nat) (g g' : MineGrid) (p : Position) :
  0 < W → 0 < H → grid_ok W H g → in_bounds W H p →
  open_cell W H M fuel g p = Some g' →
  (GameEnd false ∈ new_messages g g' ↔ p ∈ mines g ∧ explored_at g p = false)
  ∧ (∀ q, in_bounds W H q → q ≠ p →
          explored_at g q = false → explored_at g' q = true → q ∉ mines g)
  ∧ (p ∈ mines g → explored_at g p = false →
     new_messages g g' = [GameEnd false]
     ∧ explored_set W H g' = {[p]} ∪ explored_set W H g
     ∧ total_explored g' = total_explored g + 1
     ∧ ∀ q, in_bounds W H q → q ≠ p → button_at g' q = button_at g q).
Proof.
  intros HW HH Hok Hp Hrun. destruct (decide (p ∈ mines g)) as [Hm|Hnm].
  - destruct fuel as [|fuel]; [done|]. destruct (explored_at g p) eqn:He.
    + destruct (button_at_ok W H HW HH g p Hok Hp) as (b & Hb & _).
      rewrite (open_cell_explored W H M _ _ _ b) in Hrun
        by (try done; unfold explored_at in He; by rewrite Hb in He).
      injection Hrun as <-. rewrite new_messages_same. split; [|split].
      * split; [by intros ?%elem_of_nil|by intros [_ ?]].
      * intros q _ _ ? ?. congruence.
      * done.
    + destruct (open_cell_mine_facts W H M HW HH fuel g p g' Hok Hp Hm He Hrun)
        as (_ & _ & _ & _ & _ & Hpost & Htot & Hset & Hbtn & _).
      rewrite (new_messages_app g g' [GameEnd false]) by done. split; [|split].
      * split; [done|]. intros _. apply list_elem_of_here.
      * intros q Hq Hne He1 He2. unfold explored_at in He1, He2.
        rewrite Hbtn in He2 by done. congruence.
      * done.
  - destruct (open_cell_safe W H M HW HH fuel g p g' Hok Hp Hnm Hrun) as (Hs & _).
    destruct (os_posted _ _ _ _ _ _ Hs) as (new & Hnew & Hwin & _).
    rewrite (new_messages_app g g' new) by done. split; [|split].
    + split; [|by intros [? _]]. intros Hin.
      rewrite Forall_forall in Hwin. by specialize (Hwin _ Hin).
    + intros q Hq _ He1 He2. by apply (os_no_mine _ _ _ _ _ _ Hs q).
    + done.
Qed.

Lemma loss_only_from_the_selected_cell_witness :
  let g := new_grid 3 3 [0] in
  let p := Pos 0 0 in
  (grid_ok 3 3 g ∧ in_bounds 3 3 p)
  ∧ ∃ g', open_cell 3 3 1 2 g p = Some g'
    ∧ (GameEnd false ∈ new_messages g g' ↔ p ∈ mines g ∧ explored_at g p = false)
    ∧ (∀ q, in_bounds 3 3 q → q ≠ p →
            explored_at g q = false → explored_at g' q = true → q ∉ mines g)
    ∧ (p ∈ mines g → explored_at g p = false →
       new_messages g g' = [GameEnd false]
       ∧ explored_set 3 3 g' = {[p]} ∪ explored_set 3 3 g
       ∧ total_explored g' = total_explored g + 1
       ∧ ∀ q, in_bounds 3 3 q → q ≠ p → button_at g' q = button_at g q).
Proof.
  cbv zeta.
  assert (grid_ok 3 3 (new_grid 3 3 [0])) as Hok
    by (unfold grid_ok; apply (bool_decide_unpack _); by vm_compute).
  assert (in_bounds 3 3 (Pos 0 0)) as Hp by (unfold in_bounds; simpl; lia).
  split; [done|].
  destruct (open_cell 3 3 1 2 (new_grid 3 3 [0]) (Pos 0 0)) as [g'|] eqn:Hrun;
    [|by vm_compute in Hrun].
  exists g'. split; [done|].
  apply (loss_only_from_the_selected_cell 3 3 1 2); [lia|lia|done|done|done].
Defined.

(** C3, where the code departs from it. [open_cell] counts the button of
    a mine in [total_explored] before it tests for the mine, posts the
    loss without ending anything, and tests [total_explored] alone for
    the win; [handle_selected] tests neither [disabled] nor the queue.
    On the 3x3 grid with eight mines, all cells but (1,1), the OPEN
    selections of (0,0) and of (1,1) handled one after the other, before
    the [GameEnd] of the first reaches [end_game], explore the mine at
    (0,0) and then post the win with [total_explored] at 2, where
    [W*H - M] is 1; once the two messages are handled the restart button
    shows the winning face, with a mine explored. *)
Theorem win_posted_after_a_mine :
  ∃ app0 g1 g2 g3 g4,
    start 3 3 [0; 1; 2; 3; 5; 6; 7; 8] = Some app0
    ∧ handle_selected 3 3 8 (mine_grid app0) (Pos 0 0) OPEN = Some g1
    ∧ handle_selected 3 3 8 g1 (Pos 1 1) OPEN = Some g2
    ∧ posted g1 = [GameEnd false]
    ∧ posted g2 = [GameEnd false; GameEnd true]
    ∧ end_game (with_posted [GameEnd true] g2) (GameEnd false) = Some g3
    ∧ end_game (with_posted [] g3) (GameEnd true) = Some g4
    ∧ scheduled 3 3 8 [GameEnd false; GameEnd true] [] (App g4 FACE_SUNGLASSES)
    ∧ Pos 0 0 ∈ mines g4 ∧ explored_at g2 (Pos 0 0) = true
    ∧ explored_at g4 (Pos 0 0) = true
    ∧ total_explored g2 = 2 ∧ total_explored g4 = 2 ∧ 3 * 3 - 8 = 1.
Proof.
  assert (random_sample (range 0 (3 * 3)) 8 [0; 1; 2; 3; 5; 6; 7; 8]) as Hsample.
  { split; [apply (bool_decide_unpack _); by vm_compute|]. split; [done|].
    intros x Hx. apply elem_of_range.
    repeat (apply elem_of_cons in Hx as [->|Hx]; [lia|]).
    by apply elem_of_nil in Hx. }
  assert (Pos 0 0 ∈ all_positions 3 3) as Hin00
    by (apply elem_of_all_positions; [lia..|]; split; simpl; lia).
  assert (Pos 1 1 ∈ all_positions 3 3) as Hin11
    by (apply elem_of_all_positions; [lia..|]; split; simpl; lia).
  eexists _, _, _, _, _.
  match goal with
  | |- ?A ∧ _ => assert A as Hstart by (vm_compute; reflexivity); split; [exact Hstart|]
  end.
  match goal with
  | |- ?A ∧ _ => assert A as Hsel1 by (vm_compute; reflexivity); split; [exact Hsel1|]
  end.
  match goal with
  | |- ?A ∧ _ => assert A as Hsel2 by (vm_compute; reflexivity); split; [exact Hsel2|]
  end.
  split; [reflexivity|]. split; [reflexivity|].
  match goal with
  | |- ?A ∧ _ => assert A as Hend1 by (vm_compute; reflexivity); split; [exact Hend1|]
  end.
  match goal with
  | |- ?A ∧ _ => assert A as Hend2 by (vm_compute; reflexivity); split; [exact Hend2|]
  end.
  split.
  - pose proof (scheduled_start 3 3 8 _ _ Hsample Hstart) as Hs.
    pose proof (scheduled_selected 3 3 8 _ _ _ (Pos 0 0) OPEN _ Hs Hin00 Hsel1) as Hs1.
    pose proof (scheduled_selected 3 3 8 _ _ _ (Pos 1 1) OPEN _ Hs1 Hin11 Hsel2) as Hs2.
    pose proof (scheduled_game_end 3 3 8 _ _ _ (GameEnd false) [GameEnd true] _ Hs2
                  eq_refl Hend1) as Hs3.
    pose proof (scheduled_bubble 3 3 8 _ [] _ (GameEnd false) Hs3) as Hs4.
    pose proof (scheduled_game_end 3 3 8 _ _ _ (GameEnd true) [] _ Hs4
                  eq_refl Hend2) as Hs5.
    exact (scheduled_bubble 3 3 8 _ [] _ (GameEnd true) Hs5).
  - split; [apply (bool_decide_unpack _); vm_compute; exact I|].
    repeat split; reflexivity.
Qed.

(** X17. In a game played one selection at a time, the win is as the
    comment in [open_cell] has it: in every state [total_explored] is
    the number of explored buttons, and the restart button shows the
    winning face exactly when [total_explored] is [W*H - M] and no mine
    is explored; and a selection on the enabled grid posts
    [GameEnd(win=True)] exactly when it leaves [total_explored] at
    [W*H - M] with no mine explored. *)
Theorem win_exactly_when_cleared (W H M : Z) :
  0 < W → 0 < H → 0 < M < W * H →
  (∀ app, reachable W H M app →
     let g := mine_grid app in
     total_explored g = Z.of_nat (size (explored_set W H g))
     ∧ (restart_button_label app = FACE_SUNGLASSES
        ↔ total_explored g = W * H - M
          ∧ ∀ m, m ∈ mines g → explored_at g m = false))
  ∧ (∀ app p action,
       reachable W H M app → disabled (mine_grid app) = false → in_bounds W H p →
       ∃ g', handle_selected W H M (mine_grid app) p action = Some g'
             ∧ (GameEnd true ∈ posted g'
                ↔ total_explored g' = W * H - M
                  ∧ ∀ m, m ∈ mines g' → explored_at g' m = false)).
Proof.
  intros HW HH HM. assert (M < H * W) as HM' by lia.
  replace (W * H - M) with (H * W - M) by lia. split.
  - intros app Hreach g.
    destruct (reachable_session_ok W H M HW HH app HM' Hreach)
      as ((Hok & Hmines & Hsize & Hcount & Hclosed) & Hpost & Hface).
    fold g in Hok, Hmines, Hsize, Hcount, Hclosed, Hpost, Hface.
    split; [done|]. rewrite <- (no_mine_explored_iff W H HW HH g Hmines).
    destruct (restart_button_label app).
    + destruct Hface as (_ & Hd & Ht). split; [done|]. intros [? _]. lia.
    + destruct Hface as (_ & Hd & Ht). done.
    + destruct Hface as (_ & Hd). split; [done|]. intros [_ ?]. done.
  - intros app p action Hreach Hdis Hp.
    destruct (reachable_session_ok W H M HW HH app HM' Hreach)
      as (Hsound & Hpost & Hface).
    destruct (restart_button_label app);
      [|destruct Hface; congruence|destruct Hface; congruence].
    destruct Hface as (_ & Hd & Ht).
    destruct (handle_selected_session W H M HW HH (mine_grid app) p action
                Hsound Hpost Hdis Hd Ht Hp) as (g' & Hrun & Hsound' & _ & Hout).
    exists g'. split; [done|]. destruct Hsound' as (_ & Hmines' & _).
    rewrite <- (no_mine_explored_iff W H HW HH g' Hmines').
    destruct Hout as [(Hq & Hd' & Ht')|[(Hq & Hw & Hd' & Ht')|(Hq & Hd')]].
    + rewrite Hq. split; [by intros ?%elem_of_nil|]. intros [? _]. lia.
    + split; [done|]. intros _.
      destruct (posted g') as [|m l]; [done|].
      apply Forall_cons in Hw as [-> _]. apply list_elem_of_here.
    + rewrite Hq. split; [|by intros [_ ?]].
      intros Hin%list_elem_of_singleton. done.
Qed.

Lemma win_exactly_when_cleared_witness :
  (∃ app0 app1,
     start 3 3 [0] = Some app0
     ∧ select 3 3 1 app0 (Pos 2 2) OPEN = Some app1
     ∧ reachable 3 3 1 app1
     ∧ total_explored (mine_grid app1) = Z.of_nat (size (explored_set 3 3 (mine_grid app1)))
     ∧ (restart_button_label app1 = FACE_SUNGLASSES
        ↔ total_explored (mine_grid app1) = 3 * 3 - 1
          ∧ ∀ m, m ∈ mines (mine_grid app1) → explored_at (mine_grid app1) m = false))
  ∧ (∀ app, reachable 9 9 10 app →
       restart_button_label app = FACE_SUNGLASSES
       ↔ total_explored (mine_grid app) = 71
         ∧ ∀ m, m ∈ mines (mine_grid app) → explored_at (mine_grid app) m = false).
Proof.
  split.
  - eexists _, _. split; [vm_compute; reflexivity|].
    split; [vm_compute; reflexivity|].
    match goal with
    | |- reachable 3 3 1 ?a ∧ _ =>
        assert (reachable 3 3 1 a) as Hreach
    end.
    { eapply (reachable_select 3 3 1 _ (Pos 2 2) OPEN).
      - eapply (reachable_start 3 3 1 [0]).
        + split; [apply NoDup_singleton|]. split; [done|].
          intros x ->%list_elem_of_singleton. apply elem_of_range. lia.
        + vm_compute. reflexivity.
      - apply elem_of_all_positions; [lia..|]. split; simpl; lia.
      - vm_compute. reflexivity. }
    split; [exact Hreach|].
    apply (proj1 (win_exactly_when_cleared 3 3 1 ltac:(lia) ltac:(lia) ltac:(lia)) _ Hreach).
  - intros app Hreach.
    apply (proj1 (win_exactly_when_cleared 9 9 10 ltac:(lia) ltac:(lia) ltac:(lia)) _ Hreach).
Defined.

(** C5, as the code has it. On a loss [end_game] disables the grid and
    shows every mine as a mine, the flagged ones too: the button of each
    mine gets the mine label and colour and keeps its [explored] and
    [flagged] attributes. The buttons without a mine, [total_explored],
    [mines_flagged] and the set of explored cells are as before. *)
Theorem loss_explodes_every_mine (W H : Z) (g : MineGrid) :
  0 < W → 0 < H → grid_ok W H g → mines_ok W H g →
  ∃ g', end_game g (GameEnd false) = Some g'
        ∧ disabled g' = true
        ∧ total_explored g' = total_explored g
        ∧ mines_flagged g' = mines_flagged g
        ∧ explored_set W H g' = explored_set W H g
        ∧ (∀ q, in_bounds W H q → q ∉ mines g → button_at g' q = button_at g q)
        ∧ (∀ q b, in_bounds W H q → q ∈ mines g → button_at g q = Some b →
             button_at g' q = Some (MineButton.explode b)
             ∧ label (MineButton.explode b) = CHAR_MINE
             ∧ explored (MineButton.explode b) = explored b
             ∧ flagged (MineButton.explode b) = flagged b).
Proof.
  intros HW HH Hok Hmines. unfold end_game.
  destruct (reveal_mines_spec W H HW HH false (with_disabled true g) Hok Hmines)
    as (g' & Hrun & Hok' & (Hm & Ht & Hmf & Hcur & Hdis & Hpost) & Hbtn).
  exists g'. split; [done|]. do 3 (split; [done|]). split; [|split].
  - apply (explored_set_ext W H HW HH). intros q Hq. unfold explored_at.
    rewrite Hbtn by done.
    change (button_at (with_disabled true g) q) with (button_at g q).
    case_decide; [|done]. by destruct (button_at g q).
  - intros q Hq Hnm. rewrite Hbtn by done. by rewrite decide_False.
  - intros q b Hq Hqm Hb. rewrite Hbtn by done.
    rewrite decide_True by done.
    change (button_at (with_disabled true g) q) with (button_at g q).
    by rewrite Hb.
Qed.

Lemma loss_explodes_every_mine_witness :
  let g := new_grid 3 3 [0; 8] in
  (grid_ok 3 3 g ∧ mines_ok 3 3 g)
  ∧ ∃ g', end_game g (GameEnd false) = Some g'
          ∧ disabled g' = true
          ∧ total_explored g' = total_explored g
          ∧ mines_flagged g' = mines_flagged g
          ∧ explored_set 3 3 g' = explored_set 3 3 g
          ∧ (∀ q, in_bounds 3 3 q → q ∉ mines g → button_at g' q = button_at g q)
          ∧ (∀ q b, in_bounds 3 3 q → q ∈ mines g → button_at g q = Some b →
               button_at g' q = Some (MineButton.explode b)
               ∧ label (MineButton.explode b) = CHAR_MINE
               ∧ explored (MineButton.explode b) = explored b
               ∧ flagged (MineButton.explode b) = flagged b).
Proof.
  cbv zeta.
  assert (grid_ok 3 3 (new_grid 3 3 [0; 8])) as Hok
    by (unfold grid_ok; apply (bool_decide_unpack _); by vm_compute).
  assert (mines_ok 3 3 (new_grid 3 3 [0; 8])) as Hm
    by (unfold mines_ok; apply (bool_decide_unpack _); by vm_compute).
  split; [done|].
  apply (loss_explodes_every_mine 3 3); [lia|lia|done|done].
Defined.

(** C5 as stated fails on flagged mines: on the 3x3 board with mines at
    (0,0) and (2,2), flag (0,0) and then open the mine (2,2). The game is
    lost, and the flagged mine (0,0), which showed the flag, now shows a
    mine: its button has changed. *)
Lemma loss_explodes_flagged_mines :
  ∃ app0 app1 app2,
    start 3 3 [0; 8] = Some app0
    ∧ select 3 3 2 app0 (Pos 0 0) FLAG = Some app1
    ∧ select 3 3 2 app1 (Pos 2 2) OPEN = Some app2
    ∧ restart_button_label app2 = FACE_DIZZY
    ∧ Pos 0 0 ∈ mines (mine_grid app1)
    ∧ flagged_at (mine_grid app1) (Pos 0 0) = true
    ∧ label_at (mine_grid app1) (Pos 0 0) = Some CHAR_FLAGGED
    ∧ label_at (mine_grid app2) (Pos 0 0) = Some CHAR_MINE
    ∧ button_at (mine_grid app2) (Pos 0 0) ≠ button_at (mine_grid app1) (Pos 0 0).
Proof.
  eexists _, _, _. split; [vm_compute; reflexivity|].
  split; [vm_compute; reflexivity|]. split; [vm_compute; reflexivity|].
  split; [by vm_compute|].
  split; [apply elem_of_elements, list_elem_of_In; vm_compute; tauto|].
  split; [by vm_compute|]. split; [by vm_compute|]. split; [by vm_compute|].
  by vm_compute.
Qed.

(** C8. An OPEN selection of a button that is flagged and not explored
    opens nothing: nothing but the focus changes, so the button stays
    flagged and unexplored, and [total_explored] and the message queue
    are as before. A FLAG selection then takes the flag off, after which
    an OPEN selection opens the cell: it is explored and
    [total_explored] has grown. *)
Theorem open_on_flagged_is_blocked
    (W H M : Z) (g : MineGrid) (p : Position) (b : MineButton) :
  0 < W → 0 < H → grid_ok W H g → in_bounds W H p →
  button_at g p = Some b → flagged b = true → explored b = false →
  (∃ g1, handle_selected W H M g p OPEN = Some g1
         ∧ focus_moved W H g g1
         ∧ flagged_at g1 p = true ∧ explored_at g1 p = false
         ∧ total_explored g1 = total_explored g
         ∧ explored_set W H g1 = explored_set W H g
         ∧ posted g1 = posted g)
  ∧ (∃ g2 g3, handle_selected W H M g p FLAG = Some g2
              ∧ flagged_at g2 p = false ∧ explored_at g2 p = false
              ∧ mines_flagged g2 = mines_flagged g - 1
              ∧ handle_selected W H M g2 p OPEN = Some g3
              ∧ explored_at g3 p = true
              ∧ total_explored g < total_explored g3).
Proof.
  intros HW HH Hok Hp Hb Hfl Hex.
  assert (∀ action, ∃ g0 b0,
            focus_moved W H g g0 ∧ current_cell g0 = p ∧ button_at g0 p = Some b0
            ∧ flagged b0 = true ∧ explored b0 = false ∧ position b0 = p
            ∧ handle_selected W H M g p action
              = if decide (action = OPEN ∧ flagged b0 = false)
                then open_cell W H M (enough_fuel W H) g0 p
                else if decide (action = FLAG ∧ explored b0 = false)
                     then flag_cell g0 p else Some g0) as Hsel.
  { intros action.
    destruct (handle_selected_spec W H M HW HH g p action Hok Hp)
      as (g0 & b0 & Hfocus & Hcur & Hb0 & Hrun).
    exists g0, b0. do 3 (split; [done|]).
    pose proof Hfocus as (Hok0 & _ & _ & _ & _ & _ & Hbtn).
    destruct (Hbtn p b Hp Hb) as (c & Hb0').
    rewrite Hb0 in Hb0'. injection Hb0' as ->.
    destruct (button_at_ok W H HW HH g p Hok Hp) as (b' & Hb' & Hpos).
    assert (b' = b) as -> by congruence. done. }
  split.
  - destruct (Hsel OPEN) as (g0 & b0 & Hfocus & Hcur & Hb0 & Hfl0 & Hex0 & _ & Hrun).
    rewrite decide_False in Hrun by (intros [_ ?]; congruence).
    rewrite decide_False in Hrun by (intros [? _]; done).
    exists g0. split; [done|]. split; [done|].
    unfold flagged_at, explored_at. rewrite Hb0. simpl.
    do 2 (split; [done|]).
    pose proof (focus_moved_explored_set W H HW HH g g0 Hfocus Hok) as Hset.
    destruct Hfocus as (Hok0 & Hm & Ht & Hmf & Hdis & Hpost & Hbtn).
    done.
  - destruct (Hsel FLAG) as (g0 & b0 & Hfocus & Hcur & Hb0 & Hfl0 & Hex0 & Hpos0 & Hrun).
    rewrite decide_False in Hrun by (intros [? _]; done).
    rewrite decide_True in Hrun by done.
    rewrite (flag_cell_spec g0 p b0 Hb0) in Hrun.
    pose proof Hfocus as (Hok0 & Hm & Ht & Hmf & Hdis & Hpost & Hbtn).
    set (g2 := set_button p (MineButton.toggle_flagged b0)
                 (with_mines_flagged
                    (mines_flagged g0 + (if negb (flagged b0) then 1 else -1)) g0)) in *.
    assert (grid_ok W H g2) as Hok2 by (by apply grid_ok_set_button).
    assert (button_at g2 p = Some (MineButton.toggle_flagged b0)) as Hb2.
    { unfold g2. rewrite (button_at_set_button W H HW HH)
        by (by try apply grid_ok_dims). by rewrite decide_True. }
    assert (current_cell g2 = p) as Hcur2
      by (unfold g2; by rewrite current_cell_set_button).
    assert (explored_set W H g2 = explored_set W H g) as Hset2.
    { apply (explored_set_ext W H HW HH). intros q Hq.
      rewrite <- (focus_moved_explored_at W H HW HH g g0 q Hfocus Hok Hq).
      unfold explored_at, g2.
      rewrite (button_at_set_button W H HW HH) by (by try apply grid_ok_dims).
      destruct (decide (q = p)) as [->|]; [|done].
      change (button_at (with_mines_flagged ?v g0) p) with (button_at g0 p).
      by rewrite Hb0. }
    destruct (open_cell_terminates W H M HW HH g2 p Hok2 Hp) as [g3 Hrun3].
    exists g2, g3. split; [done|].
    unfold flagged_at at 1. unfold explored_at at 1. rewrite Hb2.
    cbn [from_option MineButton.toggle_flagged with_flagged with_label flagged explored].
    rewrite Hfl0, Hex0. do 2 (split; [done|]). split.
    { unfold g2. rewrite mines_flagged_set_button. simpl. rewrite Hfl0, Hmf. simpl. lia. }
    split.
    { rewrite (handle_selected_focused W H M g2 p (MineButton.toggle_flagged b0))
        by (try done; simpl; congruence).
      rewrite decide_True; [done|]. split; [done|]. simpl. by rewrite Hfl0. }
    destruct (open_cell_facts W H M HW HH _ g2 p g3 Hok2 Hp Hrun3)
      as (_ & _ & _ & _ & _ & He3 & _ & _ & Htot3 & Hsub3).
    split; [done|].
    assert (total_explored g2 = total_explored g) as Ht2
      by (unfold g2; rewrite total_explored_set_button; exact Ht).
    assert (p ∉ explored_set W H g2) as Hpn.
    { rewrite Hset2, elem_of_explored_set by done. unfold explored_at.
      rewrite Hb. simpl. intros [_ ?]. congruence. }
    assert ({[p]} ∪ explored_set W H g2 ⊆ explored_set W H g3) as Hsub.
    { apply union_subseteq. split; [|done].
      apply singleton_subseteq_l. by apply elem_of_explored_set. }
    apply subseteq_size in Hsub.
    rewrite size_union, size_singleton in Hsub by (by apply disjoint_singleton_l).
    lia.
Qed.

Lemma open_on_flagged_is_blocked_witness :
  ∃ g b,
    handle_selected 3 3 1 (new_grid 3 3 [0]) (Pos 1 1) FLAG = Some g
    ∧ (grid_ok 3 3 g ∧ in_bounds 3 3 (Pos 1 1) ∧ button_at g (Pos 1 1) = Some b
       ∧ flagged b = true ∧ explored b = false)
    ∧ (∃ g1, handle_selected 3 3 1 g (Pos 1 1) OPEN = Some g1
             ∧ focus_moved 3 3 g g1
             ∧ flagged_at g1 (Pos 1 1) = true ∧ explored_at g1 (Pos 1 1) = false
             ∧ total_explored g1 = total_explored g
             ∧ explored_set 3 3 g1 = explored_set 3 3 g
             ∧ posted g1 = posted g)
    ∧ (∃ g2 g3, handle_selected 3 3 1 g (Pos 1 1) FLAG = Some g2
                ∧ flagged_at g2 (Pos 1 1) = false ∧ explored_at g2 (Pos 1 1) = false
                ∧ mines_flagged g2 = mines_flagged g - 1
                ∧ handle_selected 3 3 1 g2 (Pos 1 1) OPEN = Some g3
                ∧ explored_at g3 (Pos 1 1) = true
                ∧ total_explored g < total_explored g3).
Proof.
  eexists _, _. split; [vm_compute; reflexivity|].
  match goal with
  | |- (grid_ok 3 3 ?g ∧ _) ∧ _ =>
      assert (grid_ok 3 3 g) as Hok
        by (unfold grid_ok; apply (bool_decide_unpack _); by vm_compute)
  end.
  assert (in_bounds 3 3 (Pos 1 1)) as Hp by (unfold in_bounds; simpl; lia).
  split; [split; [exact Hok|split; [exact Hp|split; [vm_compute; reflexivity|split; reflexivity]]]|].
  eapply (open_on_flagged_is_blocked 3 3 1 _ (Pos 1 1));
    [lia|lia|exact Hok|exact Hp|vm_compute; reflexivity|reflexivity|reflexivity].
Defined.

(** C2 fails in the code: the flood opens flagged cells and leaves their
    flag on. On the 4x4 board with mines at (0,0) and (0,3), flag (2,1)
    and then open (3,3): the game is still in play, the button at (2,1)
    is both flagged and explored, it shows no flag any more,
    [mines_flagged] still counts it, and a FLAG selection can no longer
    take the flag off. *)
Theorem flood_opens_flagged_cells :
  ∃ app0 app1 app2 app3,
    start 4 4 [0; 3] = Some app0
    ∧ select 4 4 2 app0 (Pos 2 1) FLAG = Some app1
    ∧ select 4 4 2 app1 (Pos 3 3) OPEN = Some app2
    ∧ select 4 4 2 app2 (Pos 2 1) FLAG = Some app3
    ∧ reachable 4 4 2 app2
    ∧ restart_button_label app2 = FACE_SMILING
    ∧ disabled (mine_grid app2) = false
    ∧ flagged_at (mine_grid app2) (Pos 2 1) = true
    ∧ explored_at (mine_grid app2) (Pos 2 1) = true
    ∧ label_at (mine_grid app2) (Pos 2 1) = Some CHAR_EMPTY
    ∧ mines_flagged (mine_grid app2) = 1
    ∧ flagged_at (mine_grid app3) (Pos 2 1) = true
    ∧ explored_at (mine_grid app3) (Pos 2 1) = true.
Proof.
  eexists _, _, _, _. split; [vm_compute; reflexivity|].
  split; [vm_compute; reflexivity|]. split; [vm_compute; reflexivity|].
  split; [vm_compute; reflexivity|]. split.
  { eapply (reachable_select 4 4 2 _ (Pos 3 3) OPEN).
    - eapply (reachable_select 4 4 2 _ (Pos 2 1) FLAG).
      + eapply (reachable_start 4 4 2 [0; 3]).
        * split; [apply (bool_decide_unpack _); by vm_compute|]. split; [done|].
          intros x Hx. apply elem_of_range.
          apply elem_of_cons in Hx as [->|Hx]; [lia|].
          apply list_elem_of_singleton in Hx as ->. lia.
        * vm_compute. reflexivity.
      + apply elem_of_all_positions; [lia..|]. split; simpl; lia.
      + vm_compute. reflexivity.
    - apply elem_of_all_positions; [lia..|]. split; simpl; lia.
    - vm_compute. reflexivity. }
  repeat split; by vm_compute.
Qed.

(** * More of the application *)

(** X1. Two FLAG selections of an unexplored button undo each other: the
    first toggles the flag, the label and counts it in [mines_flagged];
    after the second the flag and [mines_flagged] are as at the start,
    the button shows the mark of its state, nothing is explored or
    posted, and no other button has changed but for the focus. *)
Theorem flag_twice_restores
    (W H M : Z) (g : MineGrid) (p : Position) (b : MineButton) :
  0 < W → 0 < H → grid_ok W H g → in_bounds W H p →
  button_at g p = Some b → explored b = false →
  ∃ g1 g2,
    handle_selected W H M g p FLAG = Some g1
    ∧ flagged_at g1 p = negb (flagged b)
    ∧ label_at g1 p = Some (if flagged b then CHAR_UNOPENED else CHAR_FLAGGED)
    ∧ mines_flagged g1 = mines_flagged g + (if flagged b then -1 else 1)
    ∧ handle_selected W H M g1 p FLAG = Some g2
    ∧ flagged_at g2 p = flagged b
    ∧ label_at g2 p = Some (if flagged b then CHAR_FLAGGED else CHAR_UNOPENED)
    ∧ mines_flagged g2 = mines_flagged g
    ∧ explored_at g2 p = false
    ∧ total_explored g2 = total_explored g ∧ posted g2 = posted g
    ∧ ∀ q bq, in_bounds W H q → q ≠ p → button_at g q = Some bq →
        ∃ c, button_at g2 q = Some (with_can_focus c bq).
Proof.
  intros HW HH Hok Hp Hb Hex.
  destruct (handle_selected_flag W H M HW HH g p b Hok Hp Hb Hex)
    as (g0 & c & Hfocus & Hcur & Hb0 & Hsel).
  pose proof Hfocus as (Hok0 & Hm & Ht & Hmf & Hdis & Hpost & Hbtn).
  set (b0 := with_can_focus c b) in *.
  set (g1 := set_button p (MineButton.toggle_flagged b0)
               (with_mines_flagged
                  (mines_flagged g + (if negb (flagged b) then 1 else -1)) g0)) in *.
  destruct (button_at_ok W H HW HH g0 p Hok0 Hp) as (b0' & Hb0' & Hpos0).
  assert (b0' = b0) as -> by congruence.
  assert (grid_ok W H g1) as Hok1 by (by apply grid_ok_set_button).
  assert (∀ q, in_bounds W H q →
            button_at g1 q = if decide (q = p) then Some (MineButton.toggle_flagged b0)
                             else button_at g0 q) as Hbtn1.
  { intros q Hq. unfold g1.
    by rewrite (button_at_set_button W H HW HH) by (by try apply grid_ok_dims). }
  assert (button_at g1 p = Some (MineButton.toggle_flagged b0)) as Hb1
    by (rewrite Hbtn1 by done; by rewrite decide_True).
  assert (handle_selected W H M g1 p FLAG
          = Some (set_button p (MineButton.toggle_flagged (MineButton.toggle_flagged b0))
                    (with_mines_flagged
                       (mines_flagged g1
                        + (if negb (flagged (MineButton.toggle_flagged b0)) then 1 else -1))
                       g1))) as Hsel2.
  { rewrite (handle_selected_focused W H M g1 p (MineButton.toggle_flagged b0)).
    - rewrite decide_False by (intros [? _]; done).
      rewrite decide_True by done. by rewrite (flag_cell_spec g1 p _ Hb1).
    - done.
    - unfold g1. rewrite current_cell_set_button. simpl. rewrite Hcur. exact Hpos0. }
  eexists g1, _. split; [done|].
  unfold flagged_at at 1. unfold label_at at 1. rewrite Hb1.
  split; [by destruct b as [? ? [] ? ? ?]|].
  split; [by destruct b as [? ? [] ? ? ?]|].
  split.
  { unfold g1. rewrite mines_flagged_set_button. simpl. by destruct (flagged b). }
  split; [exact Hsel2|].
  set (g2 := set_button p _ _).
  assert (∀ q, in_bounds W H q →
            button_at g2 q
            = if decide (q = p)
              then Some (MineButton.toggle_flagged (MineButton.toggle_flagged b0))
              else button_at g0 q) as Hbtn2.
  { intros q Hq. unfold g2.
    rewrite (button_at_set_button W H HW HH) by (by try apply grid_ok_dims).
    case_decide; [done|].
    change (button_at (with_mines_flagged ?v g1) q) with (button_at g1 q).
    rewrite Hbtn1 by done. by rewrite decide_False. }
  unfold flagged_at, label_at, explored_at. rewrite Hbtn2, decide_True by done.
  rewrite toggle_flagged_twice.
  split; [done|]. split; [done|]. split.
  { unfold g2. rewrite mines_flagged_set_button. simpl.
    unfold g1. rewrite mines_flagged_set_button. simpl.
    destruct (flagged b); simpl; lia. }
  split; [done|]. split.
  { unfold g2. rewrite total_explored_set_button. simpl.
    unfold g1. by rewrite total_explored_set_button. }
  split.
  { unfold g2. rewrite posted_set_button. simpl.
    unfold g1. by rewrite posted_set_button. }
  intros q bq Hq Hne Hbq. rewrite Hbtn2 by done. rewrite decide_False by done.
  by apply Hbtn.
Qed.

Lemma flag_twice_restores_witness :
  let g := new_grid 3 3 [0] in
  let p := Pos 1 2 in
  let b := MineButton.init p in
  (grid_ok 3 3 g ∧ in_bounds 3 3 p ∧ button_at g p = Some b ∧ explored b = false)
  ∧ ∃ g1 g2,
      handle_selected 3 3 1 g p FLAG = Some g1
      ∧ flagged_at g1 p = negb (flagged b)
      ∧ label_at g1 p = Some (if flagged b then CHAR_UNOPENED else CHAR_FLAGGED)
      ∧ mines_flagged g1 = mines_flagged g + (if flagged b then -1 else 1)
      ∧ handle_selected 3 3 1 g1 p FLAG = Some g2
      ∧ flagged_at g2 p = flagged b
      ∧ label_at g2 p = Some (if flagged b then CHAR_FLAGGED else CHAR_UNOPENED)
      ∧ mines_flagged g2 = mines_flagged g
      ∧ explored_at g2 p = false
      ∧ total_explored g2 = total_explored g ∧ posted g2 = posted g
      ∧ ∀ q bq, in_bounds 3 3 q → q ≠ p → button_at g q = Some bq →
          ∃ c, button_at g2 q = Some (with_can_focus c bq).
Proof.
  cbv zeta.
  assert (grid_ok 3 3 (new_grid 3 3 [0])) as Hok
    by (unfold grid_ok; apply (bool_decide_unpack _); by vm_compute).
  assert (in_bounds 3 3 (Pos 1 2)) as Hp by (unfold in_bounds; simpl; lia).
  split; [split; [exact Hok|split; [exact Hp|split; reflexivity]]|].
  apply (flag_twice_restores 3 3 1); [lia|lia|done|done|reflexivity|reflexivity].
Defined.

(** X2. A FLAG selection of an explored button flags nothing: nothing but
    the focus changes, so the flag of the button and [mines_flagged] are
    as before. *)
Theorem flag_on_explored_is_blocked
    (W H M : Z) (g : MineGrid) (p : Position) (b : MineButton) :
  0 < W → 0 < H → grid_ok W H g → in_bounds W H p →
  button_at g p = Some b → explored b = true →
  ∃ g1, handle_selected W H M g p FLAG = Some g1
        ∧ focus_moved W H g g1 ∧ current_cell g1 = p
        ∧ flagged_at g1 p = flagged b ∧ explored_at g1 p = true
        ∧ mines_flagged g1 = mines_flagged g.
Proof.
  intros HW HH Hok Hp Hb Hex.
  destruct (handle_selected_spec W H M HW HH g p FLAG Hok Hp)
    as (g0 & b0 & Hfocus & Hcur & Hb0 & Hsel).
  pose proof Hfocus as (Hok0 & _ & _ & Hmf & _ & _ & Hbtn).
  destruct (Hbtn p b Hp Hb) as (c & Hb0').
  rewrite Hb0 in Hb0'. injection Hb0' as ->.
  rewrite decide_False in Hsel by (intros [? _]; done).
  rewrite decide_False in Hsel by (intros [_ ?]; simpl in *; congruence).
  exists g0. do 3 (split; [done|]).
  unfold flagged_at, explored_at. rewrite Hb0. done.
Qed.

Lemma flag_on_explored_is_blocked_witness :
  ∃ g b,
    open_cell 3 3 2 (enough_fuel 3 3) (new_grid 3 3 [0; 8]) (Pos 1 1) = Some g
    ∧ (grid_ok 3 3 g ∧ in_bounds 3 3 (Pos 1 1) ∧ button_at g (Pos 1 1) = Some b
       ∧ explored b = true)
    ∧ ∃ g1, handle_selected 3 3 2 g (Pos 1 1) FLAG = Some g1
            ∧ focus_moved 3 3 g g1 ∧ current_cell g1 = Pos 1 1
            ∧ flagged_at g1 (Pos 1 1) = flagged b ∧ explored_at g1 (Pos 1 1) = true
            ∧ mines_flagged g1 = mines_flagged g.
Proof.
  eexists _, _. split; [vm_compute; reflexivity|].
  match goal with
  | |- (grid_ok 3 3 ?g ∧ _) ∧ _ =>
      assert (grid_ok 3 3 g) as Hok
        by (unfold grid_ok; apply (bool_decide_unpack _); by vm_compute)
  end.
  assert (in_bounds 3 3 (Pos 1 1)) as Hp by (unfold in_bounds; simpl; lia).
  split; [split; [exact Hok|split; [exact Hp|split; [vm_compute; reflexivity|reflexivity]]]|].
  eapply (flag_on_explored_is_blocked 3 3 2 _ (Pos 1 1));
    [lia|lia|exact Hok|exact Hp|vm_compute; reflexivity|reflexivity].
Defined.

(** X3. [MineGrid.reset] returns on every well-shaped grid and leaves a
    new game whatever the state before: the mines are the newly drawn
    ones, both counters are zero, the grid is enabled, the tracked cell
    is (0,0), and every button is unexplored, unflagged and shows the
    unopened mark in white, the one at (0,0) alone being focusable. The
    application shows the smiling face again. *)
Theorem reset_gives_a_new_game (W H : Z) (app : TermSweeperApp) (sample : list Z) :
  0 < W → 0 < H → grid_ok W H (mine_grid app) →
  ∃ g', app_reset W app sample = Some (App g' FACE_SMILING)
        ∧ grid_ok W H g'
        ∧ mines g' = generate_mines W sample
        ∧ total_explored g' = 0 ∧ mines_flagged g' = 0 ∧ disabled g' = false
        ∧ current_cell g' = Pos 0 0
        ∧ ∀ q, in_bounds W H q →
            button_at g' q
            = Some (Button q false false (bool_decide (q = Pos 0 0))
                           CHAR_UNOPENED "white").
Proof.
  intros HW HH Hok.
  destruct (reset_spec W H HW HH (mine_grid app) sample Hok)
    as (g' & Hrun & Hok' & Hm & Ht & Hmf & Hdis & Hcur & _ & Hbtn).
  exists g'. unfold app_reset. rewrite Hrun. done.
Qed.

Lemma reset_gives_a_new_game_witness :
  ∃ app,
    (start 3 3 [0] ≫= λ app0, select 3 3 1 app0 (Pos 0 0) OPEN) = Some app
    ∧ restart_button_label app = FACE_DIZZY
    ∧ grid_ok 3 3 (mine_grid app)
    ∧ ∃ g', app_reset 3 app [4] = Some (App g' FACE_SMILING)
            ∧ grid_ok 3 3 g'
            ∧ mines g' = generate_mines 3 [4]
            ∧ total_explored g' = 0 ∧ mines_flagged g' = 0 ∧ disabled g' = false
            ∧ current_cell g' = Pos 0 0
            ∧ ∀ q, in_bounds 3 3 q →
                button_at g' q
                = Some (Button q false false (bool_decide (q = Pos 0 0))
                               CHAR_UNOPENED "white").
Proof.
  eexists. split; [vm_compute; reflexivity|]. split; [reflexivity|].
  match goal with
  | |- grid_ok 3 3 ?g ∧ _ =>
      assert (grid_ok 3 3 g) as Hok
        by (unfold grid_ok; apply (bool_decide_unpack _); by vm_compute)
  end.
  split; [exact Hok|].
  apply (reset_gives_a_new_game 3 3 _ [4]); [lia|lia|exact Hok].
Defined.

(** X4. On a win [end_game] disables the grid and puts a flag on every
    mine that has none: afterwards every mine is flagged, the mines that
    were flagged and the buttons without a mine are as before, and
    [mines_flagged], [total_explored] and the explored cells are
    unchanged (the flags put here are not counted). Delivering the win
    once more changes no button. *)
Theorem win_flags_every_mine (W H : Z) (g : MineGrid) :
  0 < W → 0 < H → grid_ok W H g → mines_ok W H g →
  ∃ g1, end_game g (GameEnd true) = Some g1
        ∧ disabled g1 = true
        ∧ mines_flagged g1 = mines_flagged g
        ∧ total_explored g1 = total_explored g
        ∧ explored_set W H g1 = explored_set W H g
        ∧ (∀ q, in_bounds W H q → q ∉ mines g → button_at g1 q = button_at g q)
        ∧ (∀ q, q ∈ mines g →
             flagged_at g1 q = true
             ∧ (flagged_at g q = true → button_at g1 q = button_at g q)
             ∧ (flagged_at g q = false → label_at g1 q = Some CHAR_FLAGGED))
        ∧ ∃ g2, end_game g1 (GameEnd true) = Some g2
                ∧ ∀ q, in_bounds W H q → button_at g2 q = button_at g1 q.
Proof.
  intros HW HH Hok Hmines. unfold end_game.
  destruct (reveal_mines_spec W H HW HH true (with_disabled true g) Hok Hmines)
    as (g1 & Hrun & Hok1 & (Hm & Ht & Hmf & Hcur & Hdis & Hpost) & Hbtn).
  assert (∀ q, in_bounds W H q →
            button_at g1 q = if decide (q ∈ mines g)
                             then reveal_button true <$> button_at g q
                             else button_at g q) as Hbtn' by exact Hbtn.
  exists g1. split; [done|]. do 3 (split; [done|]). split; [|split; [|split]].
  - apply (explored_set_ext W H HW HH). intros q Hq. unfold explored_at.
    rewrite Hbtn' by done. case_decide; [|done].
    destruct (button_at g q) as [bq|]; [|done].
    exact (reveal_button_explored true bq).
  - intros q Hq Hnm. rewrite Hbtn' by done. by rewrite decide_False.
  - intros q Hqm.
    pose proof (mines_ok_in_bounds W H HW HH g q Hmines Hqm) as Hq.
    destruct (button_at_ok W H HW HH g q Hok Hq) as (b & Hb & _).
    unfold flagged_at, label_at. rewrite Hbtn', decide_True, Hb by done. simpl.
    destruct b as [? ? [] ? ? ?]; simpl; done.
  - assert (mines_ok W H g1) as Hmines1 by (unfold mines_ok; by rewrite Hm).
    destruct (reveal_mines_spec W H HW HH true (with_disabled true g1) Hok1 Hmines1)
      as (g2 & Hrun2 & _ & _ & Hbtn2).
    exists g2. split; [done|]. intros q Hq.
    rewrite Hbtn2 by done.
    change (button_at (with_disabled true g1) q) with (button_at g1 q).
    change (mines (with_disabled true g1)) with (mines g1). rewrite Hm.
    change (mines (with_disabled true g)) with (mines g).
    case_decide; [|done]. rewrite Hbtn' by done. rewrite decide_True by done.
    destruct (button_at g q) as [bq|]; [|done].
    exact (f_equal Some (reveal_button_idemp true bq)).
Qed.

Lemma win_flags_every_mine_witness :
  let g := new_grid 3 3 [0; 8] in
  (grid_ok 3 3 g ∧ mines_ok 3 3 g)
  ∧ ∃ g1, end_game g (GameEnd true) = Some g1
          ∧ disabled g1 = true
          ∧ mines_flagged g1 = mines_flagged g
          ∧ total_explored g1 = total_explored g
          ∧ explored_set 3 3 g1 = explored_set 3 3 g
          ∧ (∀ q, in_bounds 3 3 q → q ∉ mines g → button_at g1 q = button_at g q)
          ∧ (∀ q, q ∈ mines g →
               flagged_at g1 q = true
               ∧ (flagged_at g q = true → button_at g1 q = button_at g q)
               ∧ (flagged_at g q = false → label_at g1 q = Some CHAR_FLAGGED))
          ∧ ∃ g2, end_game g1 (GameEnd true) = Some g2
                  ∧ ∀ q, in_bounds 3 3 q → button_at g2 q = button_at g1 q.
Proof.
  cbv zeta.
  assert (grid_ok 3 3 (new_grid 3 3 [0; 8])) as Hok
    by (unfold grid_ok; apply (bool_decide_unpack _); by vm_compute).
  assert (mines_ok 3 3 (new_grid 3 3 [0; 8])) as Hm
    by (unfold mines_ok; apply (bool_decide_unpack _); by vm_compute).
  split; [done|].
  apply (win_flags_every_mine 3 3); [lia|lia|done|done].
Defined.

(** X5. A key move returns on every well-shaped grid, changes nothing but
    the focus, and takes the tracked cell one step in the direction of the
    key, staying where it is at the edge of the grid, so the tracked cell
    never leaves the grid; any other string moves nothing. *)
Theorem move_keeps_the_focus_on_the_grid (W H : Z) (g : MineGrid) (dir : string) :
  0 < W → 0 < H → grid_ok W H g →
  ∃ g', action_move_cell_focus W H g dir = Some g'
        ∧ focus_moved W H g g'
        ∧ in_bounds W H (current_cell g')
        ∧ current_cell g'
          = (if decide (dir = "left") then
               Pos (row (current_cell g)) (0 `max` (col (current_cell g) - 1))
             else if decide (dir = "right") then
               Pos (row (current_cell g)) ((W - 1) `min` (col (current_cell g) + 1))
             else if decide (dir = "up") then
               Pos (0 `max` (row (current_cell g) - 1)) (col (current_cell g))
             else if decide (dir = "down") then
               Pos ((H - 1) `min` (row (current_cell g) + 1)) (col (current_cell g))
             else current_cell g)%string
        ∧ (dir = "left"%string → col (current_cell g) = 0 →
           current_cell g' = current_cell g)
        ∧ (dir = "right"%string → col (current_cell g) = W - 1 →
           current_cell g' = current_cell g)
        ∧ (dir = "up"%string → row (current_cell g) = 0 →
           current_cell g' = current_cell g)
        ∧ (dir = "down"%string → row (current_cell g) = H - 1 →
           current_cell g' = current_cell g).
Proof.
  intros HW HH Hok.
  destruct (action_move_cell_focus_spec W H HW HH g dir Hok)
    as (g' & Hrun & Hfocus & Hb & Hcur).
  exists g'. do 4 (split; [done|]).
  destruct (current_cell g) as [r c] eqn:Hc. simpl in *.
  split; [|split; [|split]]; intros -> Hedge; rewrite Hcur; simpl; f_equal; lia.
Qed.

Lemma move_keeps_the_focus_on_the_grid_witness :
  let g := new_grid 3 3 [0] in
  grid_ok 3 3 g
  ∧ ∃ g', action_move_cell_focus 3 3 g "up" = Some g'
          ∧ focus_moved 3 3 g g'
          ∧ in_bounds 3 3 (current_cell g')
          ∧ current_cell g'
            = (if decide ("up" = "left") then
                 Pos (row (current_cell g)) (0 `max` (col (current_cell g) - 1))
               else if decide ("up" = "right") then
                 Pos (row (current_cell g)) ((3 - 1) `min` (col (current_cell g) + 1))
               else if decide ("up" = "up") then
                 Pos (0 `max` (row (current_cell g) - 1)) (col (current_cell g))
               else if decide ("up" = "down") then
                 Pos ((3 - 1) `min` (row (current_cell g) + 1)) (col (current_cell g))
               else current_cell g)%string
          ∧ ("up" = "left"%string → col (current_cell g) = 0 →
             current_cell g' = current_cell g)
          ∧ ("up" = "right"%string → col (current_cell g) = 3 - 1 →
             current_cell g' = current_cell g)
          ∧ ("up" = "up"%string → row (current_cell g) = 0 →
             current_cell g' = current_cell g)
          ∧ ("up" = "down"%string → row (current_cell g) = 3 - 1 →
             current_cell g' = current_cell g).
Proof.
  cbv zeta.
  assert (grid_ok 3 3 (new_grid 3 3 [0])) as Hok
    by (unfold grid_ok; apply (bool_decide_unpack _); by vm_compute).
  split; [done|].
  apply (move_keeps_the_focus_on_the_grid 3 3); [lia|lia|done].
Defined.

(** X6. The cell at row [r] and column [c] of the grid is a mine exactly
    when the index [r * W + c] was drawn: each index of
    [range(H*W)] stands for one cell and each cell for one index. *)
Theorem mine_iff_index_drawn (W H : Z) (sample : list Z) (p : Position) :
  0 < W → 0 < H → sample ⊆ range 0 (H * W) →
  (p ∈ mines (new_grid W H sample) ↔ in_bounds W H p ∧ row p * W + col p ∈ sample)
  ∧ (∀ x, x ∈ sample →
       row (Pos (x ÷ W) (x `mod` W)) * W + col (Pos (x ÷ W) (x `mod` W)) = x).
Proof.
  intros HW HH Hsub. split.
  - by apply elem_of_generate_mines.
  - intros x Hx%Hsub%elem_of_range. simpl. rewrite Z.quot_div_nonneg by lia.
    rewrite (Z.div_mod x W) at 3 by lia. lia.
Qed.

Lemma mine_iff_index_drawn_witness :
  let sample := [5; 7] in
  let p := Pos 1 2 in
  sample ⊆ range 0 (3 * 3)
  ∧ (p ∈ mines (new_grid 3 3 sample) ↔ in_bounds 3 3 p ∧ row p * 3 + col p ∈ sample)
  ∧ (∀ x, x ∈ sample →
       row (Pos (x ÷ 3) (x `mod` 3)) * 3 + col (Pos (x ÷ 3) (x `mod` 3)) = x).
Proof.
  cbv zeta.
  assert ([5; 7] ⊆ range 0 (3 * 3)) as Hsub.
  { intros x Hx. apply elem_of_range.
    apply elem_of_cons in Hx as [->|Hx]; [lia|].
    apply list_elem_of_singleton in Hx as ->. lia. }
  split; [done|].
  apply (mine_iff_index_drawn 3 3); [lia|lia|done].
Defined.

(** X7. No handler raises, whatever the order of handling: in every state
    of the program the grid has its shape, the mines are on the grid and
    [MINES_AMOUNT] of them, and [total_explored] is the number of
    explored buttons; there [handle_selected] returns for every button
    of the grid and both actions, [end_game] returns for both messages
    and whatever is left in the queue, a key move returns, and a restart
    returns. *)
Theorem handlers_never_raise (W H M : Z) (app : TermSweeperApp) :
  0 < W → 0 < H → any_order W H M app →
  (grid_ok W H (mine_grid app) ∧ mines_ok W H (mine_grid app)
   ∧ Z.of_nat (size (mines (mine_grid app))) = M
   ∧ total_explored (mine_grid app)
     = Z.of_nat (size (explored_set W H (mine_grid app))))
  ∧ (∀ p action, in_bounds W H p →
       ∃ g', handle_selected W H M (mine_grid app) p action = Some g')
  ∧ (∀ m rest, ∃ g', end_game (with_posted rest (mine_grid app)) m = Some g')
  ∧ (∀ dir, ∃ g', action_move_cell_focus W H (mine_grid app) dir = Some g')
  ∧ (∀ sample, ∃ app', app_reset W app sample = Some app').
Proof.
  intros HW HH (ended & up & Hs).
  destruct (scheduled_inv W H M HW HH ended up app Hs)
    as ((Hok & Hmines & Hsize & Hcount) & _).
  split; [done|]. split; [|split; [|split]].
  - intros p action Hp.
    destruct (handle_selected_spec W H M HW HH (mine_grid app) p action Hok Hp)
      as (g0 & b0 & Hfocus & _ & Hb0 & ->).
    destruct (decide (action = OPEN ∧ flagged b0 = false)) as [HA|HA];
      [|destruct (decide (action = FLAG ∧ explored b0 = false)) as [HB|HB]].
    + destruct (open_cell_terminates W H M HW HH g0 p (proj1 Hfocus) Hp) as [g' Hg'].
      by exists g'.
    + rewrite (flag_cell_spec g0 p b0 Hb0). by eexists.
    + by eexists.
  - intros [win] rest. unfold end_game.
    destruct (reveal_mines_spec W H HW HH win
                (with_disabled true (with_posted rest (mine_grid app))) Hok Hmines)
      as (g' & Hrun & _). by exists g'.
  - intros dir.
    destruct (action_move_cell_focus_spec W H HW HH (mine_grid app) dir Hok)
      as (g' & Hrun & _). by exists g'.
  - intros sample. unfold app_reset.
    destruct (reset_spec W H HW HH (mine_grid app) sample Hok) as (g' & -> & _).
    by eexists.
Qed.

Lemma handlers_never_raise_witness :
  ∃ app0 g1,
    start 3 3 [0; 4] = Some app0
    ∧ handle_selected 3 3 2 (mine_grid app0) (Pos 0 0) OPEN = Some g1
    ∧ posted g1 = [GameEnd false]
    ∧ any_order 3 3 2 (App g1 FACE_SMILING)
    ∧ (grid_ok 3 3 g1 ∧ mines_ok 3 3 g1
       ∧ Z.of_nat (size (mines g1)) = 2
       ∧ total_explored g1 = Z.of_nat (size (explored_set 3 3 g1)))
    ∧ (∀ p action, in_bounds 3 3 p →
         ∃ g', handle_selected 3 3 2 g1 p action = Some g')
    ∧ (∀ m rest, ∃ g', end_game (with_posted rest g1) m = Some g')
    ∧ (∀ dir, ∃ g', action_move_cell_focus 3 3 g1 dir = Some g')
    ∧ (∀ sample, ∃ app', app_reset 3 (App g1 FACE_SMILING) sample = Some app').
Proof.
  assert (0 < 3) as Hpos by lia.
  assert (random_sample (range 0 (3 * 3)) 2 [0; 4]) as Hsample.
  { split; [apply (bool_decide_unpack _); by vm_compute|]. split; [done|].
    intros x Hx. apply elem_of_range.
    repeat (apply elem_of_cons in Hx as [->|Hx]; [lia|]).
    by apply elem_of_nil in Hx. }
  assert (Pos 0 0 ∈ all_positions 3 3) as Hin
    by (apply elem_of_all_positions; [lia..|]; split; simpl; lia).
  eexists _, _.
  match goal with
  | |- ?A ∧ _ => assert A as Hstart by (vm_compute; reflexivity); split; [exact Hstart|]
  end.
  match goal with
  | |- ?A ∧ _ => assert A as Hsel by (vm_compute; reflexivity); split; [exact Hsel|]
  end.
  split; [reflexivity|].
  match goal with
  | |- any_order 3 3 2 ?a ∧ _ => assert (any_order 3 3 2 a) as Hany
  end.
  { exists [], [].
    exact (scheduled_selected 3 3 2 _ _ _ (Pos 0 0) OPEN _
             (scheduled_start 3 3 2 [0; 4] _ Hsample Hstart) Hin Hsel). }
  split; [exact Hany|].
  exact (handlers_never_raise 3 3 2 _ Hpos Hpos Hany).
Defined.

(** * What is shown *)

(** X8. The flag counter is exact until a win is handled: in every state
    of the program, whatever the order of handling, in which [end_game]
    has handled no win since the start or the last restart,
    [mines_flagged] is the number of buttons of the grid whose [flagged]
    is set (on a win, [reveal_mines] puts flags that are not counted). *)
Theorem flag_counter_counts_the_flags
    (W H M : Z) (ended up : list Message) (app : TermSweeperApp) :
  0 < W → 0 < H →
  scheduled W H M ended up app → GameEnd true ∉ ended →
  mines_flagged (mine_grid app)
  = Z.of_nat (size (flagged_set W H (mine_grid app))).
Proof.
  intros HW HH Hs Hno.
  destruct (scheduled_inv W H M HW HH ended up app Hs) as (_ & _ & _ & _ & Hn).
  by apply Hn.
Qed.

Lemma flag_counter_counts_the_flags_witness :
  ∃ app0 g1 g2 g3,
    start 3 3 [0] = Some app0
    ∧ handle_selected 3 3 1 (mine_grid app0) (Pos 1 1) FLAG = Some g1
    ∧ handle_selected 3 3 1 g1 (Pos 0 0) OPEN = Some g2
    ∧ end_game (with_posted [] g2) (GameEnd false) = Some g3
    ∧ scheduled 3 3 1 [GameEnd false] [GameEnd false] (App g3 FACE_SMILING)
    ∧ (GameEnd true ∉ [GameEnd false])
    ∧ mines_flagged g3 = 1
    ∧ mines_flagged g3 = Z.of_nat (size (flagged_set 3 3 g3)).
Proof.
  assert (0 < 3) as Hpos by lia.
  assert (random_sample (range 0 (3 * 3)) 1 [0]) as Hsample.
  { split; [apply NoDup_singleton|]. split; [done|].
    intros x ->%list_elem_of_singleton. apply elem_of_range. lia. }
  assert (Pos 1 1 ∈ all_positions 3 3) as Hin11
    by (apply elem_of_all_positions; [lia..|]; split; simpl; lia).
  assert (Pos 0 0 ∈ all_positions 3 3) as Hin00
    by (apply elem_of_all_positions; [lia..|]; split; simpl; lia).
  assert (GameEnd true ∉ [GameEnd false]) as Hno
    by (by intros ?%list_elem_of_singleton).
  eexists _, _, _, _.
  match goal with
  | |- ?A ∧ _ => assert A as Hstart by (vm_compute; reflexivity); split; [exact Hstart|]
  end.
  match goal with
  | |- ?A ∧ _ => assert A as Hsel1 by (vm_compute; reflexivity); split; [exact Hsel1|]
  end.
  match goal with
  | |- ?A ∧ _ => assert A as Hsel2 by (vm_compute; reflexivity); split; [exact Hsel2|]
  end.
  match goal with
  | |- ?A ∧ _ => assert A as Hend by (vm_compute; reflexivity); split; [exact Hend|]
  end.
  match goal with
  | |- ?A ∧ _ => assert A as Hs
  end.
  { pose proof (scheduled_start 3 3 1 _ _ Hsample Hstart) as Hs0.
    pose proof (scheduled_selected 3 3 1 _ _ _ (Pos 1 1) FLAG _ Hs0 Hin11 Hsel1) as Hs1.
    pose proof (scheduled_selected 3 3 1 _ _ _ (Pos 0 0) OPEN _ Hs1 Hin00 Hsel2) as Hs2.
    exact (scheduled_game_end 3 3 1 _ _ _ (GameEnd false) [] _ Hs2 eq_refl Hend). }
  split; [exact Hs|]. split; [exact Hno|]. split; [reflexivity|].
  exact (flag_counter_counts_the_flags 3 3 1 _ _ _ Hpos Hpos Hs Hno).
Defined.

(** X9. The tracked cell is the only focusable one: in every state of the
    program, whatever the order of handling, a button of the grid has
    [can_focus] set exactly when it is the button of [_current_cell]. *)
Theorem focus_only_on_the_tracked_cell (W H M : Z) (app : TermSweeperApp)
    (q : Position) :
  0 < W → 0 < H →
  any_order W H M app → in_bounds W H q →
  can_focus_at (mine_grid app) q = true ↔ q = current_cell (mine_grid app).
Proof.
  intros HW HH (ended & up & Hs) Hq.
  destruct (scheduled_inv W H M HW HH ended up app Hs) as (_ & Hf & _).
  unfold focus_unique in Hf. rewrite (Forall_positions W H HW HH) in Hf.
  rewrite (Hf q Hq). apply bool_decide_eq_true.
Qed.

Lemma focus_only_on_the_tracked_cell_witness :
  ∃ app0 g,
    start 3 3 [0] = Some app0
    ∧ action_move_cell_focus 3 3 (mine_grid app0) "down" = Some g
    ∧ any_order 3 3 1 (App g (restart_button_label app0))
    ∧ in_bounds 3 3 (Pos 1 0)
    ∧ current_cell g = Pos 1 0
    ∧ (can_focus_at g (Pos 1 0) = true ↔ Pos 1 0 = current_cell g).
Proof.
  assert (0 < 3) as Hpos by lia.
  assert (random_sample (range 0 (3 * 3)) 1 [0]) as Hsample.
  { split; [apply NoDup_singleton|]. split; [done|].
    intros x ->%list_elem_of_singleton. apply elem_of_range. lia. }
  assert (in_bounds 3 3 (Pos 1 0)) as Hq by (split; simpl; lia).
  eexists _, _.
  match goal with
  | |- ?A ∧ _ => assert A as Hstart by (vm_compute; reflexivity); split; [exact Hstart|]
  end.
  match goal with
  | |- ?A ∧ _ => assert A as Hmove by (vm_compute; reflexivity); split; [exact Hmove|]
  end.
  match goal with
  | |- any_order 3 3 1 ?a ∧ _ => assert (any_order 3 3 1 a) as Hany
  end.
  { exists [], [].
    exact (scheduled_move 3 3 1 _ _ _ "down" _
             (scheduled_start 3 3 1 [0] _ Hsample Hstart) Hmove). }
  split; [exact Hany|]. split; [exact Hq|]. split; [reflexivity|].
  exact (focus_only_on_the_tracked_cell 3 3 1 _ (Pos 1 0) Hpos Hpos Hany Hq).
Defined.

(** X10. Every explored cell without a mine shows the number of mines
    among its neighbours: in every state of the program, whatever the
    order of handling, such a cell shows nothing when no neighbour is a
    mine and the number of its neighbours that are mines otherwise. *)
Theorem explored_cell_shows_adjacent_mines (W H M : Z) (app : TermSweeperApp)
    (q : Position) :
  0 < W → 0 < H →
  any_order W H M app → in_bounds W H q →
  q ∉ mines (mine_grid app) → explored_at (mine_grid app) q = true →
  label_at (mine_grid app) q
  = Some (if decide (adjacent_mine_count W H (mines (mine_grid app)) q = 0)
          then CHAR_EMPTY
          else Digit (adjacent_mine_count W H (mines (mine_grid app)) q)).
Proof.
  intros HW HH (ended & up & Hs) Hq Hnm He.
  destruct (scheduled_inv W H M HW HH ended up app Hs)
    as ((_ & Hmines & _) & _ & Hl & _).
  unfold labels_ok in Hl. rewrite (Forall_positions W H HW HH) in Hl.
  rewrite (Hl q Hq He Hnm). unfold count_label.
  rewrite (count_mines_near_spec W H HW HH _ q Hmines Hq).
  rewrite (decide_False (P := q ∈ mines (mine_grid app))) by done.
  by rewrite Z.add_0_r.
Qed.

Lemma explored_cell_shows_adjacent_mines_witness :
  ∃ app0 g,
    start 3 3 [0] = Some app0
    ∧ handle_selected 3 3 1 (mine_grid app0) (Pos 2 2) OPEN = Some g
    ∧ any_order 3 3 1 (App g FACE_SMILING)
    ∧ in_bounds 3 3 (Pos 1 1)
    ∧ (Pos 1 1 ∉ mines g)
    ∧ explored_at g (Pos 1 1) = true
    ∧ label_at g (Pos 1 1) = Some (Digit 1)
    ∧ label_at g (Pos 1 1)
      = Some (if decide (adjacent_mine_count 3 3 (mines g) (Pos 1 1) = 0)
              then CHAR_EMPTY
              else Digit (adjacent_mine_count 3 3 (mines g) (Pos 1 1))).
Proof.
  assert (0 < 3) as Hpos by lia.
  assert (random_sample (range 0 (3 * 3)) 1 [0]) as Hsample.
  { split; [apply NoDup_singleton|]. split; [done|].
    intros x ->%list_elem_of_singleton. apply elem_of_range. lia. }
  assert (Pos 2 2 ∈ all_positions 3 3) as Hin
    by (apply elem_of_all_positions; [lia..|]; split; simpl; lia).
  assert (in_bounds 3 3 (Pos 1 1)) as Hq by (split; simpl; lia).
  eexists _, _.
  match goal with
  | |- ?A ∧ _ => assert A as Hstart by (vm_compute; reflexivity); split; [exact Hstart|]
  end.
  match goal with
  | |- ?A ∧ _ => assert A as Hsel by (vm_compute; reflexivity); split; [exact Hsel|]
  end.
  match goal with
  | |- any_order 3 3 1 ?a ∧ _ => assert (any_order 3 3 1 a) as Hany
  end.
  { exists [], [].
    exact (scheduled_selected 3 3 1 _ _ _ (Pos 2 2) OPEN _
             (scheduled_start 3 3 1 [0] _ Hsample Hstart) Hin Hsel). }
  split; [exact Hany|]. split; [exact Hq|].
  match goal with
  | |- (?q ∉ ?ms) ∧ _ =>
      assert (q ∉ ms) as Hnm by (apply (bool_decide_unpack _); vm_compute; exact I)
  end.
  split; [exact Hnm|]. split; [reflexivity|]. split; [reflexivity|].
  exact (explored_cell_shows_adjacent_mines 3 3 1 _ (Pos 1 1)
           Hpos Hpos Hany Hq Hnm eq_refl).
Defined.

(** X11. A game won one selection at a time is cleared and flagged: when
    every selection is made in turn (on the enabled grid, with no
    message on its way, see [select]), in every state that shows the
    face of a win the grid is disabled, every cell without a mine is
    explored, and every mine is unexplored, flagged and shown as a flag.
    Selections handled before an earlier [GameEnd] is can break each of
    these, as [win_posted_after_a_mine] shows. *)
Theorem won_game_is_cleared_and_flagged (W H M : Z) (app : TermSweeperApp) :
  0 < W → 0 < H → M < W * H →
  runs W H M app → restart_button_label app = FACE_SUNGLASSES →
  disabled (mine_grid app) = true
  ∧ (∀ q, in_bounds W H q → q ∉ mines (mine_grid app) →
          explored_at (mine_grid app) q = true)
  ∧ (∀ m, m ∈ mines (mine_grid app) →
          explored_at (mine_grid app) m = false
          ∧ flagged_at (mine_grid app) m = true
          ∧ label_at (mine_grid app) m = Some CHAR_FLAGGED).
Proof.
  intros HW HH HM Hruns Hface. assert (M < H * W) as HM' by lia.
  pose proof (runs_display_ok W H M HW HH app HM' Hruns) as Hd.
  pose proof (runs_session_ok W H M HW HH app HM' Hruns)
    as ((_ & Hmines & _) & _ & Hs).
  unfold display_ok in Hd. rewrite Hface in Hd, Hs.
  destruct Hd as (_ & _ & Hc & Hfl & Hset). destruct Hs as (Hdis & _).
  split; [done|]. split.
  - intros q Hq Hnm.
    assert (q ∈ explored_set W H (mine_grid app)) as Hin.
    { rewrite Hset. apply elem_of_difference. split; [|done].
      by apply (elem_of_board W H HW HH). }
    apply (elem_of_explored_set W H HW HH) in Hin. apply Hin.
  - intros m Hm.
    pose proof (mines_ok_in_bounds W H HW HH _ m Hmines Hm) as Hb.
    assert (explored_at (mine_grid app) m = false) as He.
    { destruct (explored_at (mine_grid app) m) eqn:He; [|done]. exfalso.
      assert (m ∈ explored_set W H (mine_grid app)) as Hin
        by (by apply (elem_of_explored_set W H HW HH)).
      rewrite Hset in Hin. by apply elem_of_difference in Hin as [_ Hin]. }
    split; [done|]. split; [by apply Hfl|].
    unfold covers_ok in Hc. rewrite (Forall_positions W H HW HH) in Hc.
    rewrite (Hc m Hb He). by rewrite (Hfl m Hb Hm).
Qed.

Lemma won_game_is_cleared_and_flagged_witness :
  ∃ app0 app,
    start 3 3 [0] = Some app0
    ∧ select 3 3 1 app0 (Pos 2 2) OPEN = Some app
    ∧ runs 3 3 1 app
    ∧ restart_button_label app = FACE_SUNGLASSES
    ∧ disabled (mine_grid app) = true
    ∧ (∀ q, in_bounds 3 3 q → q ∉ mines (mine_grid app) →
            explored_at (mine_grid app) q = true)
    ∧ (∀ m, m ∈ mines (mine_grid app) →
            explored_at (mine_grid app) m = false
            ∧ flagged_at (mine_grid app) m = true
            ∧ label_at (mine_grid app) m = Some CHAR_FLAGGED).
Proof.
  eexists. eexists. split; [vm_compute; reflexivity|].
  split; [vm_compute; reflexivity|].
  match goal with
  | |- runs 3 3 1 ?a ∧ _ => assert (runs 3 3 1 a) as Hruns
  end.
  { eapply (runs_select 3 3 1 _ (Pos 2 2) OPEN).
    - eapply (runs_start 3 3 1 [0]).
      + split; [apply NoDup_singleton|]. split; [done|].
        intros x ->%list_elem_of_singleton. apply elem_of_range. lia.
      + vm_compute. reflexivity.
    - apply (elem_of_all_positions 3 3); [lia|lia|split; simpl; lia].
    - vm_compute. reflexivity. }
  split; [exact Hruns|]. split; [reflexivity|].
  exact (won_game_is_cleared_and_flagged 3 3 1 _
           ltac:(lia) ltac:(lia) ltac:(lia) Hruns eq_refl).
Defined.

(** X12. A game lost one selection at a time shows every mine: when every
    selection is made in turn (on the enabled grid, with no message on
    its way, see [select]), in every state that shows the face of a loss
    the grid is disabled, exactly one mine is explored, and every mine is
    shown as a mine. *)
Theorem lost_game_shows_every_mine (W H M : Z) (app : TermSweeperApp) :
  0 < W → 0 < H → M < W * H →
  runs W H M app → restart_button_label app = FACE_DIZZY →
  disabled (mine_grid app) = true
  ∧ (∃ p, p ∈ mines (mine_grid app) ∧ explored_at (mine_grid app) p = true
          ∧ ∀ m, m ∈ mines (mine_grid app) →
                 explored_at (mine_grid app) m = true → m = p)
  ∧ (∀ m, m ∈ mines (mine_grid app) → label_at (mine_grid app) m = Some CHAR_MINE).
Proof.
  intros HW HH HM Hruns Hface. assert (M < H * W) as HM' by lia.
  pose proof (runs_display_ok W H M HW HH app HM' Hruns) as Hd.
  pose proof (runs_session_ok W H M HW HH app HM' Hruns)
    as ((_ & Hmines & _) & _ & Hs).
  unfold display_ok in Hd. rewrite Hface in Hd, Hs.
  destruct Hd as (_ & _ & _ & Hshown & _ & p & Hset). destruct Hs as (Hdis & _).
  split; [done|]. split.
  - exists p.
    assert (p ∈ explored_set W H (mine_grid app) ∩ mines (mine_grid app)) as Hp
      by (rewrite Hset; by apply elem_of_singleton).
    apply elem_of_intersection in Hp as [Hpe Hpm].
    apply (elem_of_explored_set W H HW HH) in Hpe as [_ Hpe].
    split; [done|]. split; [done|]. intros m Hm He.
    assert (m ∈ explored_set W H (mine_grid app) ∩ mines (mine_grid app)) as Hin.
    { apply elem_of_intersection. split; [|done].
      apply (elem_of_explored_set W H HW HH). split; [|done].
      by apply (mines_ok_in_bounds W H HW HH (mine_grid app)). }
    rewrite Hset in Hin. by apply elem_of_singleton in Hin.
  - intros m Hm. apply Hshown; [|done].
    by apply (mines_ok_in_bounds W H HW HH (mine_grid app)).
Qed.

Lemma lost_game_shows_every_mine_witness :
  ∃ app0 app,
    start 3 3 [0; 4] = Some app0
    ∧ select 3 3 2 app0 (Pos 1 1) OPEN = Some app
    ∧ runs 3 3 2 app
    ∧ restart_button_label app = FACE_DIZZY
    ∧ disabled (mine_grid app) = true
    ∧ (∃ p, p ∈ mines (mine_grid app) ∧ explored_at (mine_grid app) p = true
            ∧ ∀ m, m ∈ mines (mine_grid app) →
                   explored_at (mine_grid app) m = true → m = p)
    ∧ (∀ m, m ∈ mines (mine_grid app) →
            label_at (mine_grid app) m = Some CHAR_MINE).
Proof.
  eexists. eexists. split; [vm_compute; reflexivity|].
  split; [vm_compute; reflexivity|].
  match goal with
  | |- runs 3 3 2 ?a ∧ _ => assert (runs 3 3 2 a) as Hruns
  end.
  { eapply (runs_select 3 3 2 _ (Pos 1 1) OPEN).
    - eapply (runs_start 3 3 2 [0; 4]).
      + split; [apply (bool_decide_unpack _); by vm_compute|]. split; [done|].
        intros x Hx. apply elem_of_range.
        apply elem_of_cons in Hx as [->|Hx]; [lia|].
        apply list_elem_of_singleton in Hx as ->. lia.
      + vm_compute. reflexivity.
    - apply (elem_of_all_positions 3 3); [lia|lia|split; simpl; lia].
    - vm_compute. reflexivity. }
  split; [exact Hruns|]. split; [reflexivity|].
  exact (lost_game_shows_every_mine 3 3 2 _
           ltac:(lia) ltac:(lia) ltac:(lia) Hruns eq_refl).
Defined.

(** X13. Every unexplored cell shows its cover until a loss is handled: in
    every state of the program, whatever the order of handling, in which
    [end_game] has handled no loss since the start or the last restart,
    an unexplored cell of the grid shows the flag when it is flagged and
    the unopened mark when it is not. *)
Theorem unexplored_cell_shows_its_cover
    (W H M : Z) (ended up : list Message) (app : TermSweeperApp) (q : Position) :
  0 < W → 0 < H →
  scheduled W H M ended up app → GameEnd false ∉ ended →
  in_bounds W H q → explored_at (mine_grid app) q = false →
  label_at (mine_grid app) q
  = Some (if flagged_at (mine_grid app) q then CHAR_FLAGGED else CHAR_UNOPENED).
Proof.
  intros HW HH Hs Hno Hq He.
  destruct (scheduled_inv W H M HW HH ended up app Hs) as (_ & _ & _ & Hc & _).
  specialize (Hc Hno). unfold covers_ok in Hc.
  rewrite (Forall_positions W H HW HH) in Hc. by apply Hc.
Qed.

Lemma unexplored_cell_shows_its_cover_witness :
  ∃ app0 g1 g2,
    start 3 3 [0; 1; 2; 3; 5; 6; 7; 8] = Some app0
    ∧ handle_selected 3 3 8 (mine_grid app0) (Pos 1 1) OPEN = Some g1
    ∧ end_game (with_posted [] g1) (GameEnd true) = Some g2
    ∧ scheduled 3 3 8 [GameEnd true] [GameEnd true] (App g2 FACE_SMILING)
    ∧ (GameEnd false ∉ [GameEnd true])
    ∧ in_bounds 3 3 (Pos 0 0)
    ∧ explored_at g2 (Pos 0 0) = false
    ∧ flagged_at g2 (Pos 0 0) = true
    ∧ label_at g2 (Pos 0 0)
      = Some (if flagged_at g2 (Pos 0 0) then CHAR_FLAGGED else CHAR_UNOPENED).
Proof.
  assert (0 < 3) as Hpos by lia.
  assert (random_sample (range 0 (3 * 3)) 8 [0; 1; 2; 3; 5; 6; 7; 8]) as Hsample.
  { split; [apply (bool_decide_unpack _); by vm_compute|]. split; [done|].
    intros x Hx. apply elem_of_range.
    repeat (apply elem_of_cons in Hx as [->|Hx]; [lia|]).
    by apply elem_of_nil in Hx. }
  assert (Pos 1 1 ∈ all_positions 3 3) as Hin
    by (apply elem_of_all_positions; [lia..|]; split; simpl; lia).
  assert (in_bounds 3 3 (Pos 0 0)) as Hq by (split; simpl; lia).
  assert (GameEnd false ∉ [GameEnd true]) as Hno
    by (by intros ?%list_elem_of_singleton).
  eexists _, _, _.
  match goal with
  | |- ?A ∧ _ => assert A as Hstart by (vm_compute; reflexivity); split; [exact Hstart|]
  end.
  match goal with
  | |- ?A ∧ _ => assert A as Hsel by (vm_compute; reflexivity); split; [exact Hsel|]
  end.
  match goal with
  | |- ?A ∧ _ => assert A as Hend by (vm_compute; reflexivity); split; [exact Hend|]
  end.
  match goal with
  | |- ?A ∧ _ => assert A as Hs
  end.
  { pose proof (scheduled_start 3 3 8 _ _ Hsample Hstart) as Hs0.
    pose proof (scheduled_selected 3 3 8 _ _ _ (Pos 1 1) OPEN _ Hs0 Hin Hsel) as Hs1.
    exact (scheduled_game_end 3 3 8 _ _ _ (GameEnd true) [] _ Hs1 eq_refl Hend). }
  split; [exact Hs|]. split; [exact Hno|]. split; [exact Hq|].
  split; [reflexivity|]. split; [reflexivity|].
  exact (unexplored_cell_shows_its_cover 3 3 8 _ _ _ (Pos 0 0)
           Hpos Hpos Hs Hno Hq eq_refl).
Defined.

(** * The mine counter *)

(** X14. While the number of mines less the number of flags is between 0
    and 999, the text that [flag_update] writes on the mine counter for a
    FLAG selection is that number in three decimal digits, with leading
    zeros; for any other selection it writes nothing. *)
Theorem mine_counter_shows_three_digits (M : Z) (app : TermSweeperApp) (n : Z) :
  M - mines_flagged (mine_grid app) = n → 0 ≤ n ≤ 999 →
  flag_update M app FLAG
  = Some (String (digit_char (n `div` 100))
            (String (digit_char ((n `div` 10) `mod` 10))
               (String (digit_char (n `mod` 10)) EmptyString)))
  ∧ flag_update M app OPEN = None.
Proof.
  intros Hn Hr. unfold flag_update. split; [|done].
  rewrite decide_True by done. rewrite Hn. f_equal.
  by apply format_0_right_3_digits.
Qed.

Lemma mine_counter_shows_three_digits_witness :
  ∃ app0 app,
    start 3 3 [0; 4] = Some app0
    ∧ select 3 3 2 app0 (Pos 2 2) FLAG = Some app
    ∧ 2 - mines_flagged (mine_grid app) = 1 ∧ 0 ≤ 1 ≤ 999
    ∧ flag_update 2 app FLAG = Some "001"
    ∧ flag_update 2 app FLAG
      = Some (String (digit_char (1 `div` 100))
                (String (digit_char ((1 `div` 10) `mod` 10))
                   (String (digit_char (1 `mod` 10)) EmptyString)))
      ∧ flag_update 2 app OPEN = None.
Proof.
  eexists. eexists. split; [vm_compute; reflexivity|].
  split; [vm_compute; reflexivity|].
  split; [reflexivity|]. split; [lia|]. split; [by vm_compute|].
  apply (mine_counter_shows_three_digits 2 _ 1); [reflexivity|lia].
Defined.

(** X15. With one to nine more flags than mines, the text that
    [flag_update] writes on the mine counter is no number: the fill
    character comes before the sign, as in [0-1]. *)
Theorem mine_counter_misplaces_the_sign (M : Z) (app : TermSweeperApp) (n : Z) :
  mines_flagged (mine_grid app) - M = n → 1 ≤ n ≤ 9 →
  flag_update M app FLAG
  = Some (String "0"%char (String "-"%char (String (digit_char n) EmptyString))).
Proof.
  intros Hn Hr. unfold flag_update. rewrite decide_True by done. f_equal.
  replace (M - mines_flagged (mine_grid app)) with (- n) by lia.
  rewrite format_0_right_3_negative by lia. by rewrite Z.opp_involutive.
Qed.

Lemma mine_counter_misplaces_the_sign_witness :
  ∃ app0 app1 app,
    start 3 3 [0] = Some app0
    ∧ select 3 3 1 app0 (Pos 1 1) FLAG = Some app1
    ∧ select 3 3 1 app1 (Pos 2 2) FLAG = Some app
    ∧ mines_flagged (mine_grid app) - 1 = 1 ∧ 1 ≤ 1 ≤ 9
    ∧ flag_update 1 app FLAG = Some "0-1"
    ∧ flag_update 1 app FLAG
      = Some (String "0"%char (String "-"%char (String (digit_char 1) EmptyString))).
Proof.
  eexists. eexists. eexists. split; [vm_compute; reflexivity|].
  split; [vm_compute; reflexivity|]. split; [vm_compute; reflexivity|].
  split; [reflexivity|]. split; [lia|]. split; [by vm_compute|].
  apply (mine_counter_misplaces_the_sign 1 _ 1); [reflexivity|lia].
Defined.

(** X16. Flags are not limited by the number of mines: from the start of
    a game, FLAG selections of the buttons at any pairwise different
    places of the grid, one after the other, all return and leave a game
    in play in which exactly these buttons are flagged and
    [mines_flagged] is their number, so that the number the mine counter
    is asked to show, [MINES_AMOUNT - mines_flagged], is negative once
    more buttons are flagged than there are mines. *)
Theorem flags_are_not_limited
    (W H M : Z) (sample : list Z) (app : TermSweeperApp) (ps : list Position) :
  0 < W → 0 < H → M < W * H →
  random_sample (range 0 (H * W)) M sample → start W H sample = Some app →
  NoDup ps → Forall (in_bounds W H) ps →
  ∃ app', flag_all W H M app ps = Some app' ∧ runs W H M app'
          ∧ restart_button_label app' = FACE_SMILING
          ∧ mines_flagged (mine_grid app') = Z.of_nat (length ps)
          ∧ (∀ q, in_bounds W H q →
                  explored_at (mine_grid app') q = false
                  ∧ flagged_at (mine_grid app') q = bool_decide (q ∈ ps))
          ∧ flag_update M app' FLAG
            = Some (format_0_right_3 (M - Z.of_nat (length ps))).
Proof.
  intros HW HH HM Hsample Hstart Hnd Hin. assert (M < H * W) as HM' by lia.
  destruct (start_buttons W H HW HH sample app Hstart) as (Hmf & _ & Hface & Hbtn).
  assert (runs W H M app) as Hruns by (by apply (runs_start W H M sample)).
  destruct (flag_all_counts W H M HW HH ps app HM' Hnd Hin Hruns Hface)
    as (app' & Hall & Hruns' & Hface' & Hmf' & Hat').
  { intros q Hq. unfold explored_at. by rewrite Hbtn. }
  { intros q Hq. rewrite Forall_forall in Hin. unfold flagged_at.
    by rewrite Hbtn by (by apply Hin). }
  exists app'. do 3 (split; [done|]). rewrite Hmf in Hmf'.
  split; [lia|]. split.
  - intros q Hq. destruct (Hat' q Hq) as [He ->]. split; [done|].
    unfold flagged_at at 1. rewrite Hbtn by done. simpl. by rewrite orb_false_r.
  - unfold flag_update. rewrite decide_True by done. do 2 f_equal. lia.
Qed.

Lemma flags_are_not_limited_witness :
  ∃ app,
    start 3 3 [0] = Some app
    ∧ random_sample (range 0 (3 * 3)) 1 [0]
    ∧ NoDup [Pos 1 1; Pos 2 2] ∧ Forall (in_bounds 3 3) [Pos 1 1; Pos 2 2]
    ∧ ∃ app', flag_all 3 3 1 app [Pos 1 1; Pos 2 2] = Some app' ∧ runs 3 3 1 app'
              ∧ restart_button_label app' = FACE_SMILING
              ∧ mines_flagged (mine_grid app')
                = Z.of_nat (length [Pos 1 1; Pos 2 2])
              ∧ (∀ q, in_bounds 3 3 q →
                      explored_at (mine_grid app') q = false
                      ∧ flagged_at (mine_grid app') q
                        = bool_decide (q ∈ [Pos 1 1; Pos 2 2]))
              ∧ flag_update 1 app' FLAG
                = Some (format_0_right_3 (1 - Z.of_nat (length [Pos 1 1; Pos 2 2]))).
Proof.
  eexists. split; [vm_compute; reflexivity|].
  assert (random_sample (range 0 (3 * 3)) 1 [0]) as Hsample.
  { split; [apply NoDup_singleton|]. split; [done|].
    intros x ->%list_elem_of_singleton. apply elem_of_range. lia. }
  assert (NoDup [Pos 1 1; Pos 2 2]) as Hnd
    by (apply (bool_decide_unpack _); by vm_compute).
  assert (Forall (in_bounds 3 3) [Pos 1 1; Pos 2 2]) as Hin
    by (repeat constructor; simpl; lia).
  split; [exact Hsample|]. split; [exact Hnd|]. split; [exact Hin|].
  apply (flags_are_not_limited 3 3 1 [0]);
    [lia|lia|lia|exact Hsample|vm_compute; reflexivity|exact Hnd|exact Hin].
Defined.
